(** * WhatsApp group list manager: access control, ordering, quota and
      message rendering of the list views

    A shallow embedding of the React views of the repository
    (SharedList, ListEditor, ImageUpload, CollaborationPanel, Dashboard).
    Each view is a record of its [useState] cells; each handler is a
    computation in a small state-and-exception monad over that record and
    a world that holds the remote document store, the blob store and the
    user-visible notifications. Awaited calls that can reject are
    fallible steps; [try]/[catch]/[finally] are combinators. *)

From Stdlib Require Import String Ascii List ZArith Lia Bool DecimalString.
From Stdlib Require Import Permutation Sorted.
Import ListNotations.

Open Scope string_scope.
Open Scope Z_scope.

Set Implicit Arguments.

(* ================================================================== *)
(** * JavaScript values used by the views *)
(* ================================================================== *)

Module Js.

(** The line feed character written \n in a JavaScript literal. *)
Definition LF : string := String (ascii_of_nat 10) EmptyString.

(** The two characters backslash and n, written \\n in a JavaScript
    literal. *)
Definition backslash_n : string := "\n".

(** [Number(b)] on a boolean; the interfaces type [isChecked] so. *)
Definition Number (b : bool) : Z := if b then 1 else 0.

(** [!n] on a number (NaN does not arise from [Number] of a boolean). *)
Definition not_number (n : Z) : bool := n =? 0.

(** Truthiness of a string: every string but the empty one. *)
Definition truthy (s : string) : bool :=
  match s with EmptyString => false | String _ _ => true end.

(** Template-literal rendering of an array index or length. *)
Definition show_nat (n : nat) : string :=
  NilEmpty.string_of_uint (Nat.to_uint n).

(** Template-literal rendering of an integral number. *)
Definition show_Z (z : Z) : string :=
  NilZero.string_of_int (Z.to_int z).

(** [s.startsWith(p)]. *)
Definition startsWith (s p : string) : bool := String.prefix p s.

(** [s.split(sep)[0]] for a one-character separator: the text before
    its first occurrence, or all of [s]. *)
Fixpoint split_head (sep : ascii) (s : string) : string :=
  match s with
  | EmptyString => EmptyString
  | String c r =>
      if Ascii.eqb c sep then EmptyString else String c (split_head sep r)
  end.

(** [xs.find(p)]. *)
Definition find {A} (p : A -> bool) (xs : list A) : option A :=
  List.find p xs.

(** [xs.forEach((x, index) => acc = step(acc, x, index))], the index
    starting at [i]. *)
Fixpoint forEach_from {A B} (step : B -> A -> nat -> B)
         (xs : list A) (i : nat) (acc : B) : B :=
  match xs with
  | [] => acc
  | x :: r => forEach_from step r (S i) (step acc x i)
  end.

Definition forEach {A B} (step : B -> A -> nat -> B)
           (xs : list A) (acc : B) : B :=
  forEach_from step xs 0%nat acc.

(** [xs.reduce((total, x) => total + size(x), 0)]. The sizes are byte
    counts: integers far below 2^53, where the addition of numbers is
    exact. *)
Definition reduce_sum {A} (size : A -> Z) (xs : list A) : Z :=
  fold_left (fun total x => total + size x) xs 0.

End Js.

(* ================================================================== *)
(** * Data model: the interfaces of the views and the stored rows *)
(* ================================================================== *)

Record User := mkUser {
  user_id : string;
  user_email : string;
  user_displayName : option string
}.

(** [interface List], with the two timestamps the store rows carry. *)
Record ListRecord := mkList {
  list_id : string;
  list_title : string;
  list_description : string;
  list_templateType : string;
  list_language : string;
  list_isShared : bool;
  list_shareToken : string;
  list_userId : string;
  list_createdAt : string;
  list_updatedAt : string
}.

(** [Partial<List>], with the [updatedAt] stamp the handlers add. *)
Record ListPatch := mkListPatch {
  lp_id : option string;
  lp_title : option string;
  lp_description : option string;
  lp_templateType : option string;
  lp_language : option string;
  lp_isShared : option bool;
  lp_shareToken : option string;
  lp_userId : option string;
  lp_updatedAt : option string
}.

Definition no_list_patch : ListPatch :=
  mkListPatch None None None None None None None None None.

Definition or_else {A} (o : option A) (d : A) : A :=
  match o with Some a => a | None => d end.

(** [{ ...list, ...updates }]. *)
Definition patch_list (l : ListRecord) (u : ListPatch) : ListRecord :=
  mkList (or_else (lp_id u) (list_id l))
         (or_else (lp_title u) (list_title l))
         (or_else (lp_description u) (list_description l))
         (or_else (lp_templateType u) (list_templateType l))
         (or_else (lp_language u) (list_language l))
         (or_else (lp_isShared u) (list_isShared l))
         (or_else (lp_shareToken u) (list_shareToken l))
         (or_else (lp_userId u) (list_userId l))
         (list_createdAt l)
         (or_else (lp_updatedAt u) (list_updatedAt l)).

(** [interface ListItem], with the [listId] and [createdAt] of its row. *)
Record ListItem := mkItem {
  item_id : string;
  item_listId : string;
  item_content : string;
  item_isChecked : bool;
  item_orderIndex : Z;
  item_createdAt : string
}.

(** [Partial<ListItem>]. *)
Record ItemPatch := mkItemPatch {
  ip_id : option string;
  ip_content : option string;
  ip_isChecked : option bool;
  ip_orderIndex : option Z
}.

(** [{ ...item, ...updates }]. *)
Definition patch_item (i : ListItem) (u : ItemPatch) : ListItem :=
  mkItem (or_else (ip_id u) (item_id i))
         (item_listId i)
         (or_else (ip_content u) (item_content i))
         (or_else (ip_isChecked u) (item_isChecked i))
         (or_else (ip_orderIndex u) (item_orderIndex i))
         (item_createdAt i).

(** [interface UploadedImage]. *)
Record UploadedImage := mkImage {
  img_id : string;
  img_filename : string;
  img_url : string;
  img_size : Z
}.

(** A row of the [listImages] collection. *)
Record ImageRow := mkImageRow {
  ir_image : UploadedImage;
  ir_listId : string;
  ir_userId : string;
  ir_createdAt : string
}.

Inductive Role := owner | editor | viewer.

Inductive InviteStatus := pending | accepted.

(** [interface Collaborator], with the remaining fields of its row. *)
Record Collaborator := mkCollaborator {
  col_id : string;
  col_listId : string;
  col_userId : string;
  col_userEmail : string;
  col_userDisplayName : option string;
  col_role : Role;
  col_status : InviteStatus;
  col_invitedBy : string;
  col_joinedAt : string
}.

(** A [File] of the browser: name, declared content type, byte size. *)
Record File := mkFile {
  file_name : string;
  file_type : string;
  file_size : Z
}.

(* ================================================================== *)
(** * The external document store *)
(* ================================================================== *)

(** Modelled from the spec: the document store behind [blink.db] is an
    external service; section 6 of the specification gives the shape
    used here. [list] returns all rows matching the filter, ordered by
    one field when asked; [update] and [delete] fail on an unknown id;
    [create] is idempotent by identifier. Any call can also fail for
    reasons outside the program ([Env.fault] below). *)
Module Store.

Record t := mk {
  lists : list ListRecord;
  listItems : list ListItem;
  listImages : list ImageRow;
  listCollaborators : list Collaborator
}.

Section Collection.
Variable R : Type.
Variable key : R -> string.

Definition has_id (id : string) (rows : list R) : bool :=
  existsb (fun r => key r =? id)%string rows.

Fixpoint insert_by (le : R -> R -> bool) (r : R) (sorted : list R)
  : list R :=
  match sorted with
  | [] => [r]
  | x :: rest =>
      if le r x then r :: x :: rest else x :: insert_by le r rest
  end.

(** Stable ascending order: rows that compare equal keep their
    stored order. *)
Definition sort_by (le : R -> R -> bool) (rows : list R) : list R :=
  fold_right (insert_by le) [] rows.

Definition select (where_ : R -> bool)
           (orderBy : option (R -> R -> bool)) (rows : list R)
  : list R :=
  match orderBy with
  | None => filter where_ rows
  | Some le => sort_by le (filter where_ rows)
  end.

Definition create (r : R) (rows : list R) : list R :=
  if has_id (key r) rows then rows else rows ++ [r].

Definition update (id : string) (f : R -> R) (rows : list R)
  : option (list R) :=
  if has_id id rows
  then Some (map (fun r => if (key r =? id)%string then f r else r) rows)
  else None.

Definition delete (id : string) (rows : list R) : option (list R) :=
  if has_id id rows
  then Some (filter (fun r => negb (key r =? id)%string) rows)
  else None.
End Collection.

Definition set_lists (s : t) (x : list ListRecord) : t :=
  mk x (listItems s) (listImages s) (listCollaborators s).
Definition set_listItems (s : t) (x : list ListItem) : t :=
  mk (lists s) x (listImages s) (listCollaborators s).
Definition set_listImages (s : t) (x : list ImageRow) : t :=
  mk (lists s) (listItems s) x (listCollaborators s).
Definition set_listCollaborators (s : t) (x : list Collaborator) : t :=
  mk (lists s) (listItems s) (listImages s) x.

End Store.

(* ================================================================== *)
(** * The world of a handler and the handler monad *)
(* ================================================================== *)

(** What an awaited call rejects with. *)
Inductive Exn :=
| StoreUnavailable
| StoreRejected (collection id : string)
| UploadFailed.

(** What a handler makes visible outside the component state. *)
Inductive Event :=
| Toast (title description : string) (destructive : bool)
| Navigate (path : string)
| Alert (message : string)
| ConsoleError (message : string) (error : Exn)
| ClipboardWrite (text : string)
| ResetFileInput.

(** The choices of the environment, indexed by the number of external
    interactions made so far: whether the call at that moment fails,
    the text of [Date.now()] and [Math.random()] in a fresh identifier,
    the text of [new Date().toISOString()], the public locator the blob
    store hands out, and the percentages it reports while uploading. *)
Record Env := mkEnv {
  fault : nat -> bool;
  fresh : nat -> string;
  clock : nat -> string;
  locator : nat -> string;
  progress : nat -> list Z
}.

Record World := mkWorld {
  db : Store.t;
  blobs : list (string * File);
  tick : nat;
  log : list Event
}.

Definition set_db (w : World) (d : Store.t) : World :=
  mkWorld d (blobs w) (tick w) (log w).
Definition set_blobs (w : World) (b : list (string * File)) : World :=
  mkWorld (db w) b (tick w) (log w).
Definition advance (w : World) : World :=
  mkWorld (db w) (blobs w) (S (tick w)) (log w).
Definition record (w : World) (e : Event) : World :=
  mkWorld (db w) (blobs w) (tick w) (log w ++ [e]).

Inductive Result (A : Type) :=
| Ok (a : A)
| Thrown (e : Exn).
Arguments Ok {A} a.
Arguments Thrown {A} e.

(** A handler over the component state [V]. *)
Definition M (V A : Type) : Type :=
  Env -> V -> World -> Result A * V * World.

Section Monad.
Context {V : Type}.

Definition ret {A} (a : A) : M V A := fun _ v w => (Ok a, v, w).

Definition bind {A B} (m : M V A) (k : A -> M V B) : M V B :=
  fun env v w =>
    match m env v w with
    | (Ok a, v', w') => k a env v' w'
    | (Thrown e, v', w') => (Thrown e, v', w')
    end.

(** [try { body } catch (error) { handler }]. *)
Definition try_catch {A} (body : M V A) (handler : Exn -> M V A) : M V A :=
  fun env v w =>
    match body env v w with
    | (Ok a, v', w') => (Ok a, v', w')
    | (Thrown e, v', w') => handler e env v' w'
    end.

(** [try { body } finally { cleanup }]: the cleanup always runs; the
    outcome of the body stands unless the cleanup itself throws. *)
Definition try_finally {A} (body : M V A) (cleanup : M V unit) : M V A :=
  fun env v w =>
    match body env v w with
    | (r, v', w') =>
        match cleanup env v' w' with
        | (Ok _, v'', w'') => (r, v'', w'')
        | (Thrown e, v'', w'') => (Thrown e, v'', w'')
        end
    end.

(** The state cells as the running closure sees them. *)
Definition render : M V V := fun _ v w => (Ok v, v, w).

(** A [setX(...)] call. *)
Definition setState (f : V -> V) : M V unit :=
  fun _ v w => (Ok tt, f v, w).

Definition emit (e : Event) : M V unit :=
  fun _ v w => (Ok tt, v, record w e).

(** An awaited store call: it consumes one environment choice, and
    rejects when the environment says so or the store refuses. *)
Definition await_store {A} (call : Store.t -> Exn + A * Store.t) : M V A :=
  fun env v w =>
    let w' := advance w in
    if fault env (tick w) then (Thrown StoreUnavailable, v, w')
    else match call (db w) with
         | inl e => (Thrown e, v, w')
         | inr (a, d) => (Ok a, v, set_db w' d)
         end.

(** The [${Date.now()}_${Math.random()...}] part of a new identifier. *)
Definition fresh_suffix : M V string :=
  fun env v w => (Ok (fresh env (tick w)), v, advance w).

(** [new Date().toISOString()]. *)
Definition now : M V string :=
  fun env v w => (Ok (clock env (tick w)), v, advance w).

(** [for (const x of xs) { body(x) }] with an accumulator. *)
Fixpoint for_of {A B} (xs : list A) (body : B -> A -> M V B) (acc : B)
  : M V B :=
  match xs with
  | [] => ret acc
  | x :: rest => bind (body acc x) (fun acc' => for_of rest body acc')
  end.

End Monad.

Declare Scope handler_scope.
Delimit Scope handler_scope with handler.
Notation "x <- m ;; k" := (bind m (fun x => k))
  (at level 61, m at next level, right associativity) : handler_scope.
Notation "m ;;; k" := (bind m (fun _ => k))
  (at level 61, right associativity) : handler_scope.
Open Scope handler_scope.

(** Store calls as the views write them. *)
Module Db.
Section Calls.
Context {V : Type}.

Definition query {R} (coll : Store.t -> list R) (where_ : R -> bool)
           (orderBy : option (R -> R -> bool)) : M V (list R) :=
  await_store (fun s => inr (Store.select where_ orderBy (coll s), s)).

Definition create {R} (coll : Store.t -> list R)
           (put : Store.t -> list R -> Store.t) (key : R -> string)
           (r : R) : M V unit :=
  await_store (fun s => inr (tt, put s (Store.create key r (coll s)))).

Definition update {R} (name : string) (coll : Store.t -> list R)
           (put : Store.t -> list R -> Store.t) (key : R -> string)
           (id : string) (f : R -> R) : M V unit :=
  await_store (fun s =>
    match Store.update key id f (coll s) with
    | Some rows => inr (tt, put s rows)
    | None => inl (StoreRejected name id)
    end).

Definition delete {R} (name : string) (coll : Store.t -> list R)
           (put : Store.t -> list R -> Store.t) (key : R -> string)
           (id : string) : M V unit :=
  await_store (fun s =>
    match Store.delete key id (coll s) with
    | Some rows => inr (tt, put s rows)
    | None => inl (StoreRejected name id)
    end).
End Calls.
End Db.

Definition stamp (u : ListPatch) (updatedAt : string) : ListPatch :=
  mkListPatch (lp_id u) (lp_title u) (lp_description u) (lp_templateType u)
              (lp_language u) (lp_isShared u) (lp_shareToken u) (lp_userId u)
              (Some updatedAt).

(* ================================================================== *)
(** * The shared-list view *)
(* ================================================================== *)

Module SharedList.

Record State := mkState {
  user : option User;
  list_ : option ListRecord;
  items : list ListItem;
  images : list UploadedImage;
  collaborators : list Collaborator;
  userRole : option Role;
  loading : bool;
  authLoading : bool
}.

Definition initial : State :=
  mkState None None [] [] [] None true true.

Definition set_list (x : option ListRecord) (s : State) : State :=
  mkState (user s) x (items s) (images s) (collaborators s) (userRole s)
          (loading s) (authLoading s).
Definition set_items (x : list ListItem) (s : State) : State :=
  mkState (user s) (list_ s) x (images s) (collaborators s) (userRole s)
          (loading s) (authLoading s).
Definition set_images (x : list UploadedImage) (s : State) : State :=
  mkState (user s) (list_ s) (items s) x (collaborators s) (userRole s)
          (loading s) (authLoading s).
Definition set_collaborators (x : list Collaborator) (s : State) : State :=
  mkState (user s) (list_ s) (items s) (images s) x (userRole s)
          (loading s) (authLoading s).
Definition set_userRole (x : option Role) (s : State) : State :=
  mkState (user s) (list_ s) (items s) (images s) (collaborators s) x
          (loading s) (authLoading s).
Definition set_loading (x : bool) (s : State) : State :=
  mkState (user s) (list_ s) (items s) (images s) (collaborators s)
          (userRole s) x (authLoading s).
Definition set_user (x : option User) (s : State) : State :=
  mkState x (list_ s) (items s) (images s) (collaborators s) (userRole s)
          (loading s) (authLoading s).
Definition set_authLoading (x : bool) (s : State) : State :=
  mkState (user s) (list_ s) (items s) (images s) (collaborators s)
          (userRole s) (loading s) x.

(** The callback handed to [blink.auth.onAuthStateChanged]:
    [setUser(state.user); setAuthLoading(state.isLoading)]. *)
Definition onAuthStateChanged (stateUser : option User) (isLoading : bool)
  : M State unit :=
  setState (set_user stateUser) ;;;
  setState (set_authLoading isLoading).

(** The block "Determine user role" of [loadSharedList]. Every role is
    a non-empty text, so [|| 'viewer'] applies only when no record is
    found. *)
Definition determineRole (user : option User) (sharedList : ListRecord)
           (collaboratorsData : list Collaborator) : option Role :=
  match user with
  | Some u =>
      if (list_userId sharedList =? user_id u)%string then Some owner
      else
        let collaboration :=
          Js.find (fun c => (col_userId c =? user_id u)%string)
                  collaboratorsData in
        Some (match collaboration with
              | Some c => col_role c
              | None => viewer
              end)
  | None => Some viewer
  end.

Definition notFoundToast : Event :=
  Toast "Error" "Shared list not found or no longer available" true.

Definition loadSharedList (shareToken : option string) : M State unit :=
  st <- render ;;
  if negb (Js.truthy (or_else shareToken EmptyString)) then
    emit (Toast "Error" "Invalid share link" true) ;;;
    emit (Navigate "/")
  else
    let shareToken := or_else shareToken EmptyString in
    try_finally
      (try_catch
         (listData <- Db.query Store.lists
                        (fun l => (list_shareToken l =? shareToken)%string
                                  && Bool.eqb (list_isShared l) true)
                        None ;;
          match listData with
          | [] =>
              emit notFoundToast ;;;
              emit (Navigate "/")
          | sharedList :: _ =>
              itemsData <- Db.query Store.listItems
                             (fun i => (item_listId i =? list_id sharedList)%string)
                             (Some (fun a b =>
                                      item_orderIndex a <=? item_orderIndex b)) ;;
              imagesData <- Db.query Store.listImages
                              (fun i => (ir_listId i =? list_id sharedList)%string)
                              (Some (fun a b =>
                                       String.leb (ir_createdAt a)
                                                  (ir_createdAt b))) ;;
              collaboratorsData <- Db.query Store.listCollaborators
                                     (fun c => (col_listId c =? list_id sharedList)%string)
                                     None ;;
              let role := determineRole (user st) sharedList collaboratorsData in
              setState (set_list (Some sharedList)) ;;;
              setState (set_items itemsData) ;;;
              setState (set_images (map ir_image imagesData)) ;;;
              setState (set_collaborators collaboratorsData) ;;;
              setState (set_userRole role)
          end)
         (fun error =>
            emit (ConsoleError "Failed to load shared list:" error) ;;;
            emit (Toast "Error" "Failed to load shared list" true) ;;;
            emit (Navigate "/")))
      (setState (set_loading false)).

Definition is_role (r : Role) (o : option Role) : bool :=
  match o, r with
  | Some owner, owner | Some editor, editor | Some viewer, viewer => true
  | _, _ => false
  end.

Definition canEdit (s : State) : bool :=
  is_role owner (userRole s) || is_role editor (userRole s).

Definition canManageSettings (s : State) : bool :=
  is_role owner (userRole s).

(** Each guarded handler is its guard followed by its [try] statement;
    the latter is named on its own so that passing the guard can be
    stated. [st] is the state the running closure captured. *)

Definition updateList_try (st : State) (l : ListRecord)
           (updates : ListPatch) : M State unit :=
  try_catch
    (updatedAt <- now ;;
     Db.update "lists" Store.lists Store.set_lists list_id (list_id l)
               (fun row => patch_list row (stamp updates updatedAt)) ;;;
     setState (set_list (Some (patch_list l updates))) ;;;
     emit (Toast "Success" "List updated successfully" false))
    (fun error =>
       emit (ConsoleError "Failed to update list:" error) ;;;
       emit (Toast "Error" "Failed to update list" true)).

Definition updateList (updates : ListPatch) : M State unit :=
  st <- render ;;
  match list_ st with
  | None => ret tt
  | Some l =>
      if negb (canManageSettings st) then ret tt
      else updateList_try st l updates
  end.

Definition addItem_try (st : State) (l : ListRecord) : M State unit :=
  suffix <- fresh_suffix ;;
  createdAt <- now ;;
  let newItem :=
    mkItem ("item_" ++ suffix) (list_id l) EmptyString false
           (Z.of_nat (length (items st))) createdAt in
  try_catch
    (Db.create Store.listItems Store.set_listItems item_id newItem ;;;
     setState (set_items (items st ++ [newItem])))
    (fun error =>
       emit (ConsoleError "Failed to add item:" error) ;;;
       emit (Toast "Error" "Failed to add item" true)).

Definition addItem : M State unit :=
  st <- render ;;
  match list_ st with
  | None => ret tt
  | Some l =>
      if negb (canEdit st) then ret tt
      else addItem_try st l
  end.

Definition updateItem_try (st : State) (itemId : string)
           (updates : ItemPatch) : M State unit :=
  try_catch
    (Db.update "listItems" Store.listItems Store.set_listItems item_id
               itemId (fun row => patch_item row updates) ;;;
     setState (set_items
                 (map (fun item =>
                         if (item_id item =? itemId)%string
                         then patch_item item updates else item)
                      (items st))))
    (fun error =>
       emit (ConsoleError "Failed to update item:" error) ;;;
       emit (Toast "Error" "Failed to update item" true)).

Definition updateItem (itemId : string) (updates : ItemPatch)
  : M State unit :=
  st <- render ;;
  if negb (canEdit st) then ret tt
  else updateItem_try st itemId updates.

Definition removeItem_try (st : State) (itemId : string) : M State unit :=
  try_catch
    (Db.delete "listItems" Store.listItems Store.set_listItems item_id
               itemId ;;;
     setState (set_items
                 (filter (fun item => negb (item_id item =? itemId)%string)
                         (items st))))
    (fun error =>
       emit (ConsoleError "Failed to remove item:" error) ;;;
       emit (Toast "Error" "Failed to remove item" true)).

Definition removeItem (itemId : string) : M State unit :=
  st <- render ;;
  if negb (canEdit st) then ret tt
  else removeItem_try st itemId.

(** The click handler of an item's check button:
    [updateItem(item.id, { isChecked: !Number(item.isChecked) })]. *)
Definition toggleChecked (item : ListItem) : M State unit :=
  updateItem (item_id item)
             (mkItemPatch None None
                (Some (Js.not_number (Js.Number (item_isChecked item))))
                None).

Definition has_image (id : string) (imgs : list UploadedImage) : bool :=
  match Js.find (fun i => (img_id i =? id)%string) imgs with
  | Some _ => true
  | None => false
  end.

Definition handleImagesChange_try (st : State) (l : ListRecord) (u : User)
           (newImages : list UploadedImage) : M State unit :=
  try_catch
    (let imagesToAdd :=
       filter (fun newImg => negb (has_image (img_id newImg) (images st)))
              newImages in
     let imagesToRemove :=
       filter (fun existingImg =>
                 negb (has_image (img_id existingImg) newImages))
              (images st) in
     for_of imagesToAdd
       (fun _ image =>
          createdAt <- now ;;
          Db.create Store.listImages Store.set_listImages
                    (fun r => img_id (ir_image r))
                    (mkImageRow image (list_id l) (user_id u) createdAt))
       tt ;;;
     for_of imagesToRemove
       (fun _ image =>
          Db.delete "listImages" Store.listImages Store.set_listImages
                    (fun r => img_id (ir_image r)) (img_id image))
       tt ;;;
     setState (set_images newImages))
    (fun error =>
       emit (ConsoleError "Failed to update images:" error) ;;;
       emit (Toast "Error" "Failed to update images" true)).

Definition handleImagesChange (newImages : list UploadedImage)
  : M State unit :=
  st <- render ;;
  match list_ st, user st with
  | Some l, Some u =>
      if negb (canEdit st) then ret tt
      else handleImagesChange_try st l u newImages
  | _, _ => ret tt
  end.



Definition generateWhatsAppMessage (st : State) : string :=
  match list_ st with
  | None => EmptyString
  | Some l =>
      let message := "*" ++ list_title l ++ "*" ++ Js.LF in
      let message :=
        if Js.truthy (list_description l)
        then message ++ "_" ++ list_description l ++ "_" ++ Js.LF
        else message in
      let message := message ++ Js.LF in
      let message :=
        Js.forEach
          (fun message item index =>
             let checkbox :=
               if Js.Number (item_isChecked item) >? 0 then "✅" else "☐" in
             message ++ checkbox ++ " " ++ Js.show_nat (index + 1) ++ ". "
                     ++ item_content item ++ Js.LF)
          (items st) message in
      let message :=
        if (0 <? length (images st))%nat
        then
          Js.forEach
            (fun message image index =>
               message ++ Js.show_nat (index + 1) ++ ". " ++ img_url image
                       ++ Js.LF)
            (images st) (message ++ Js.LF ++ "📸 *Images:*" ++ Js.LF)
        else message in
      message ++ Js.LF ++ "_Shared via WhatsApp List Manager_"
  end.

Definition copyToClipboard : M State unit :=
  st <- render ;;
  let message := generateWhatsAppMessage st in
  emit (ClipboardWrite message) ;;;
  emit (Toast "Copied!" "Message copied to clipboard. Paste it in WhatsApp!"
              false).

(** The two differences [handleImagesChange] computes, by name. *)
Definition imagesToAdd (images newImages : list UploadedImage)
  : list UploadedImage :=
  filter (fun newImg => negb (has_image (img_id newImg) images)) newImages.

Definition imagesToRemove (images newImages : list UploadedImage)
  : list UploadedImage :=
  filter (fun existingImg => negb (has_image (img_id existingImg) newImages))
         images.

(** The [updateItem] closure of the render that saw [st]: what a button
    rendered then calls, whatever the state has become since. *)
Definition updateItem_of (st : State) (itemId : string) (updates : ItemPatch)
  : M State unit :=
  if negb (canEdit st) then ret tt
  else updateItem_try st itemId updates.

(** The button "Uncheck All Items":
    [items.forEach(item => { if (Number(item.isChecked) > 0)
       updateItem(item.id, { isChecked: false }) })].
    The calls are not awaited; each is run here to its end in the order
    it was started. Every one of them works on the [items] of the same
    render. *)
Definition uncheckAll : M State unit :=
  st <- render ;;
  for_of (items st)
    (fun _ item =>
       if Js.Number (item_isChecked item) >? 0
       then updateItem_of st (item_id item)
                          (mkItemPatch None None (Some false) None)
       else ret tt)
    tt.

(** The button "Check All Items", with the test
    [Number(item.isChecked) === 0]. *)
Definition checkAll : M State unit :=
  st <- render ;;
  for_of (items st)
    (fun _ item =>
       if Js.Number (item_isChecked item) =? 0
       then updateItem_of st (item_id item)
                          (mkItemPatch None None (Some true) None)
       else ret tt)
    tt.

End SharedList.

(* ================================================================== *)
(** * The list editor view *)
(* ================================================================== *)

Module ListEditor.

Record State := mkState {
  user : option User;
  list_ : option ListRecord;
  items : list ListItem;
  images : list UploadedImage;
  loading : bool;
  saving : bool;
  showCollaboration : bool
}.

Definition initial : State :=
  mkState None None [] [] true false false.

Definition set_loaded (l : ListRecord) (its : list ListItem)
           (imgs : list UploadedImage) (s : State) : State :=
  mkState (user s) (Some l) its imgs (loading s) (saving s)
          (showCollaboration s).
Definition set_loading (x : bool) (s : State) : State :=
  mkState (user s) (list_ s) (items s) (images s) x (saving s)
          (showCollaboration s).

Definition loadList (listId : option string) : M State unit :=
  st <- render ;;
  match user st with
  | None => ret tt
  | Some u =>
      if negb (Js.truthy (or_else listId EmptyString)) then ret tt
      else
        let listId := or_else listId EmptyString in
        try_finally
          (try_catch
             (listData <- Db.query Store.lists
                            (fun l => (list_id l =? listId)%string
                                      && (list_userId l =? user_id u)%string)
                            None ;;
              match listData with
              | [] =>
                  emit (Toast "Error" "List not found" true) ;;;
                  emit (Navigate "/")
              | first :: _ =>
                  itemsData <- Db.query Store.listItems
                                 (fun i => (item_listId i =? listId)%string)
                                 (Some (fun a b =>
                                          item_orderIndex a <=? item_orderIndex b)) ;;
                  imagesData <- Db.query Store.listImages
                                  (fun i => (ir_listId i =? listId)%string)
                                  (Some (fun a b =>
                                           String.leb (ir_createdAt a)
                                                      (ir_createdAt b))) ;;
                  setState (set_loaded first itemsData (map ir_image imagesData))
              end)
             (fun error =>
                emit (ConsoleError "Failed to load list:" error) ;;;
                emit (Toast "Error" "Failed to load list" true)))
          (setState (set_loading false))
  end.

(** The [isOwner] property handed to the collaboration panel. *)
Definition isOwner (l : ListRecord) (u : User) : bool :=
  (list_userId l =? user_id u)%string.

Definition generateWhatsAppMessage (st : State) : string :=
  match list_ st with
  | None => EmptyString
  | Some l =>
      let message := "*" ++ list_title l ++ "*" ++ Js.backslash_n in
      let message :=
        if Js.truthy (list_description l)
        then message ++ "_" ++ list_description l ++ "_" ++ Js.backslash_n
        else message in
      let message := message ++ Js.backslash_n in
      let message :=
        Js.forEach
          (fun message item index =>
             let checkbox :=
               if Js.Number (item_isChecked item) >? 0 then "✅" else "☐" in
             message ++ checkbox ++ " " ++ Js.show_nat (index + 1) ++ ". "
                     ++ item_content item ++ Js.backslash_n)
          (items st) message in
      let message :=
        if (0 <? length (images st))%nat
        then
          Js.forEach
            (fun message image index =>
               message ++ Js.show_nat (index + 1) ++ ". " ++ img_url image
                       ++ Js.backslash_n)
            (images st)
            (message ++ Js.backslash_n ++ "📸 *Images:*" ++ Js.backslash_n)
        else message in
      message ++ Js.backslash_n ++ "_Created with WhatsApp List Manager_"
  end.

Definition set_list (x : option ListRecord) (s : State) : State :=
  mkState (user s) x (items s) (images s) (loading s) (saving s)
          (showCollaboration s).
Definition set_items (x : list ListItem) (s : State) : State :=
  mkState (user s) (list_ s) x (images s) (loading s) (saving s)
          (showCollaboration s).
Definition set_images (x : list UploadedImage) (s : State) : State :=
  mkState (user s) (list_ s) (items s) x (loading s) (saving s)
          (showCollaboration s).
Definition set_saving (x : bool) (s : State) : State :=
  mkState (user s) (list_ s) (items s) (images s) (loading s) x
          (showCollaboration s).

(** The editor's own handlers; none of them looks at a role. *)
Definition updateList (updates : ListPatch) : M State unit :=
  st <- render ;;
  match list_ st with
  | None => ret tt
  | Some l =>
      setState (set_saving true) ;;;
      try_finally
        (try_catch
           (updatedAt <- now ;;
            Db.update "lists" Store.lists Store.set_lists list_id (list_id l)
                      (fun row => patch_list row (stamp updates updatedAt)) ;;;
            setState (set_list (Some (patch_list l updates))) ;;;
            emit (Toast "Success" "List updated successfully" false))
           (fun error =>
              emit (ConsoleError "Failed to update list:" error) ;;;
              emit (Toast "Error" "Failed to update list" true)))
        (setState (set_saving false))
  end.

Definition addItem : M State unit :=
  st <- render ;;
  match list_ st with
  | None => ret tt
  | Some l =>
      suffix <- fresh_suffix ;;
      createdAt <- now ;;
      let newItem :=
        mkItem ("item_" ++ suffix) (list_id l) EmptyString false
               (Z.of_nat (length (items st))) createdAt in
      try_catch
        (Db.create Store.listItems Store.set_listItems item_id newItem ;;;
         setState (set_items (items st ++ [newItem])))
        (fun error =>
           emit (ConsoleError "Failed to add item:" error) ;;;
           emit (Toast "Error" "Failed to add item" true))
  end.

Definition updateItem (itemId : string) (updates : ItemPatch)
  : M State unit :=
  st <- render ;;
  try_catch
    (Db.update "listItems" Store.listItems Store.set_listItems item_id
               itemId (fun row => patch_item row updates) ;;;
     setState (set_items
                 (map (fun item =>
                         if (item_id item =? itemId)%string
                         then patch_item item updates else item)
                      (items st))))
    (fun error =>
       emit (ConsoleError "Failed to update item:" error) ;;;
       emit (Toast "Error" "Failed to update item" true)).

Definition removeItem (itemId : string) : M State unit :=
  st <- render ;;
  try_catch
    (Db.delete "listItems" Store.listItems Store.set_listItems item_id
               itemId ;;;
     setState (set_items
                 (filter (fun item => negb (item_id item =? itemId)%string)
                         (items st))))
    (fun error =>
       emit (ConsoleError "Failed to remove item:" error) ;;;
       emit (Toast "Error" "Failed to remove item" true)).

End ListEditor.


(* ================================================================== *)
(** * The blob store *)
(* ================================================================== *)

(** Modelled from the spec: [blink.storage.upload] is an external
    service; section 6 says it accepts a file and a destination path,
    returns a public content locator and reports progress while
    uploading. With [upsert] a file stored under the same path is
    replaced. The reports come first, then the call settles. *)
Module Storage.

Fixpoint upsert (path : string) (f : File) (bs : list (string * File))
  : list (string * File) :=
  match bs with
  | [] => [(path, f)]
  | (p, g) :: rest =>
      if (p =? path)%string then (p, f) :: rest
      else (p, g) :: upsert path f rest
  end.

Definition upload {V} (file : File) (path : string)
           (onProgress : Z -> M V unit) : M V string :=
  fun env v w =>
    let t := tick w in
    match for_of (progress env t) (fun _ percent => onProgress percent) tt
                 env v (advance w) with
    | (Thrown e, v', w') => (Thrown e, v', w')
    | (Ok _, v', w') =>
        if fault env t then (Thrown UploadFailed, v', w')
        else (Ok (locator env t), v',
              set_blobs w' (upsert path file (blobs w')))
    end.

End Storage.

(** Running a handler of a child component inside its parent: the
    child's cells are a part of the parent's state. *)
Definition zoom {P C A} (get : P -> C) (put : C -> P -> P) (m : M C A)
  : M P A :=
  fun env p w =>
    match m env (get p) w with
    | (r, c, w') => (r, put c p, w')
    end.

(* ================================================================== *)
(** * The image upload component *)
(* ================================================================== *)

Module ImageUpload.

Record State := mkState {
  uploading : bool;
  uploadProgress : list (string * Z)
}.

Definition initial : State := mkState false [].

(** [{ ...prev, [fileId]: percent }]. *)
Fixpoint with_key (fileId : string) (percent : Z) (prev : list (string * Z))
  : list (string * Z) :=
  match prev with
  | [] => [(fileId, percent)]
  | (k, v) :: rest =>
      if (k =? fileId)%string then (k, percent) :: rest
      else (k, v) :: with_key fileId percent rest
  end.

(** [delete updated[fileId]]. *)
Definition without_key (fileId : string) (prev : list (string * Z))
  : list (string * Z) :=
  filter (fun kv => negb (fst kv =? fileId)%string) prev.

Definition getTotalSize (images : list UploadedImage) : Z :=
  Js.reduce_sum img_size images.

Section Component.
(** The state of the page the component is mounted in, the place of
    the component's own cells in it, and the properties the page
    passes: [images], [onImagesChange], [maxImages], [maxTotalSize]
    and [readOnly]. [formatFileSize] rounds through floating-point
    logarithms and is kept abstract. *)
Variable P : Type.
Variable own : P -> State.
Variable set_own : State -> P -> P.
Variable images : list UploadedImage.
Variable onImagesChange : list UploadedImage -> M P unit.
Variable maxImages : Z.
Variable maxTotalSize : Z.
Variable readOnly : bool.
Variable formatFileSize : Z -> string.

Definition setUploading (b : bool) : M P unit :=
  setState (fun p => set_own (mkState b (uploadProgress (own p))) p).

Definition setUploadProgress
           (f : list (string * Z) -> list (string * Z)) : M P unit :=
  setState (fun p => set_own (mkState (uploading (own p))
                                      (f (uploadProgress (own p)))) p).

Definition countAlert : Event :=
  Alert ("Maximum " ++ Js.show_Z maxImages ++ " images allowed").

Definition sizeAlert : Event :=
  Alert ("Total size would exceed " ++ formatFileSize maxTotalSize
         ++ " limit").

(** The body of the [for (const file of files)] loop; [newImages]
    is the array the loop pushes to. *)
Definition uploadOne (newImages : list UploadedImage) (file : File)
  : M P (list UploadedImage) :=
  if negb (Js.startsWith (file_type file) "image/") then
    emit (Alert (file_name file ++ " is not an image file")) ;;;
    ret newImages
  else
    suffix <- fresh_suffix ;;
    let fileId := "img_" ++ suffix in
    publicUrl <- Storage.upload file
                   ("list-images/" ++ fileId ++ "_" ++ file_name file)
                   (fun percent => setUploadProgress (with_key fileId percent)) ;;
    setUploadProgress (without_key fileId) ;;;
    ret (newImages
           ++ [mkImage fileId (file_name file) publicUrl (file_size file)])%list.

(** Everything after the two limit checks. The page's handler behind
    [onImagesChange] catches its own failures and is run to its end at
    the call. *)
Definition uploadAll (files : list File) : M P unit :=
  setUploading true ;;;
  try_finally
    (try_catch
       (newImages <- for_of files uploadOne [] ;;
        onImagesChange (images ++ newImages)%list)
       (fun error =>
          emit (ConsoleError "Upload failed:" error) ;;;
          emit (Alert "Upload failed. Please try again.")))
    (setUploading false ;;;
     emit ResetFileInput).

Definition handleFileSelect (files : list File) : M P unit :=
  if (length files =? 0)%nat then ret tt
  else
    let currentTotalSize := getTotalSize images in
    let newFilesSize := Js.reduce_sum file_size files in
    if Z.of_nat (length images) + Z.of_nat (length files) >? maxImages
    then emit countAlert
    else if currentTotalSize + newFilesSize >? maxTotalSize
    then emit sizeAlert
    else uploadAll files.

Definition canAddMore : bool :=
  negb readOnly
  && (Z.of_nat (length images) <? maxImages)
  && (getTotalSize images <? maxTotalSize).

Definition removeImage (imageId : string) : M P unit :=
  let updatedImages :=
    filter (fun img => negb (img_id img =? imageId)%string) images in
  onImagesChange updatedImages.

End Component.

End ImageUpload.

(* ================================================================== *)
(** * The shared-list page with its image upload component *)
(* ================================================================== *)

Module SharedListPage.

Definition State : Type := SharedList.State * ImageUpload.State.

Definition own (p : State) : ImageUpload.State := snd p.
Definition set_own (c : ImageUpload.State) (p : State) : State := (fst p, c).
Definition set_view (s : SharedList.State) (p : State) : State := (s, snd p).

(** [onImagesChange={canEdit ? handleImagesChange : () => {}}]. *)
Definition onImagesChange (st : SharedList.State)
           (newImages : list UploadedImage) : M State unit :=
  if SharedList.canEdit st
  then zoom fst set_view (SharedList.handleImagesChange newImages)
  else ret tt.

(** The upload component as the page mounts it:
    [images={images} maxImages={4} maxTotalSize={1024 * 1024 * 1024}]. *)
Definition handleFileSelect (formatFileSize : Z -> string)
           (files : list File) : M State unit :=
  p <- render ;;
  ImageUpload.handleFileSelect own set_own (SharedList.images (fst p))
                               (onImagesChange (fst p)) 4
                               (1024 * 1024 * 1024) formatFileSize files.

(** The remove button of an image, with the same properties. *)
Definition removeImage (imageId : string) : M State unit :=
  p <- render ;;
  ImageUpload.removeImage (SharedList.images (fst p)) (onImagesChange (fst p))
                          imageId.

End SharedListPage.

(* ================================================================== *)
(** * The collaboration panel *)
(* ================================================================== *)

Module CollaborationPanel.

Inductive InviteRole := invite_editor | invite_viewer.

Definition role_of (r : InviteRole) : Role :=
  match r with invite_editor => editor | invite_viewer => viewer end.

Definition role_text (r : InviteRole) : string :=
  match r with invite_editor => "editor" | invite_viewer => "viewer" end.

Record State := mkState {
  collaborators : list Collaborator;
  inviteEmail : string;
  inviteRole : InviteRole;
  loading : bool;
  inviting : bool
}.

Definition initial : State := mkState [] EmptyString invite_editor true false.

Definition set_collaborators (x : list Collaborator) (s : State) : State :=
  mkState x (inviteEmail s) (inviteRole s) (loading s) (inviting s).
Definition set_inviteEmail (x : string) (s : State) : State :=
  mkState (collaborators s) x (inviteRole s) (loading s) (inviting s).
Definition set_loading (x : bool) (s : State) : State :=
  mkState (collaborators s) (inviteEmail s) (inviteRole s) x (inviting s).
Definition set_inviting (x : bool) (s : State) : State :=
  mkState (collaborators s) (inviteEmail s) (inviteRole s) (loading s) x.

Section Component.
(** The properties [listId], [currentUser] and [isOwner];
    [String.prototype.trim] is kept abstract. *)
Variable listId : string.
Variable currentUser : User.
Variable isOwner : bool.
Variable trim : string -> string.

Definition loadCollaborators : M State unit :=
  try_finally
    (try_catch
       (data <- Db.query Store.listCollaborators
                  (fun c => (col_listId c =? listId)%string)
                  (Some (fun a b =>
                           String.leb (col_joinedAt a) (col_joinedAt b))) ;;
        setState (set_collaborators data))
       (fun error =>
          emit (ConsoleError "Failed to load collaborators:" error) ;;;
          emit (Toast "Error" "Failed to load collaborators" true)))
    (setState (set_loading false)).

(** The record literal handed to [blink.db.listCollaborators.create]. *)
Definition invitation (st : State) (collaboratorId joinedAt : string)
  : Collaborator :=
  mkCollaborator collaboratorId
                 listId
                 (user_id currentUser)
                 (inviteEmail st)
                 (Some (Js.split_head "@"%char (inviteEmail st)))
                 (role_of (inviteRole st))
                 pending
                 (user_id currentUser)
                 joinedAt.

Definition inviteCollaborator : M State unit :=
  st <- render ;;
  if negb (Js.truthy (trim (inviteEmail st))) then ret tt
  else
    setState (set_inviting true) ;;;
    try_finally
      (try_catch
         (let existing :=
            Js.find (fun c => (col_userEmail c =? inviteEmail st)%string)
                    (collaborators st) in
          match existing with
          | Some _ =>
              emit (Toast "Already Added"
                          "This user is already a collaborator" true)
          | None =>
              suffix <- fresh_suffix ;;
              let collaboratorId := "collab_" ++ suffix in
              joinedAt <- now ;;
              Db.create Store.listCollaborators
                        Store.set_listCollaborators col_id
                        (invitation st collaboratorId joinedAt) ;;;
              loadCollaborators ;;;
              setState (set_inviteEmail EmptyString) ;;;
              emit (Toast "Invitation Sent"
                          ("Invited " ++ inviteEmail st ++ " as "
                           ++ role_text (inviteRole st)) false)
          end)
         (fun error =>
            emit (ConsoleError "Failed to invite collaborator:" error) ;;;
            emit (Toast "Error" "Failed to send invitation" true)))
      (setState (set_inviting false)).


End Component.

Definition with_role (newRole : InviteRole) (c : Collaborator) : Collaborator :=
  mkCollaborator (col_id c) (col_listId c) (col_userId c) (col_userEmail c)
                 (col_userDisplayName c) (role_of newRole) (col_status c)
                 (col_invitedBy c) (col_joinedAt c).

Definition removeCollaborator (collaboratorId : string) : M State unit :=
  st <- render ;;
  try_catch
    (Db.delete "listCollaborators" Store.listCollaborators
               Store.set_listCollaborators col_id collaboratorId ;;;
     setState (set_collaborators
                 (filter (fun c => negb (col_id c =? collaboratorId)%string)
                         (collaborators st))) ;;;
     emit (Toast "Removed" "Collaborator removed successfully" false))
    (fun error =>
       emit (ConsoleError "Failed to remove collaborator:" error) ;;;
       emit (Toast "Error" "Failed to remove collaborator" true)).

Definition updateCollaboratorRole (collaboratorId : string)
           (newRole : InviteRole) : M State unit :=
  st <- render ;;
  try_catch
    (Db.update "listCollaborators" Store.listCollaborators
               Store.set_listCollaborators col_id collaboratorId
               (with_role newRole) ;;;
     setState (set_collaborators
                 (map (fun c => if (col_id c =? collaboratorId)%string
                                then with_role newRole c else c)
                      (collaborators st))) ;;;
     emit (Toast "Updated" "Collaborator role updated successfully" false))
    (fun error =>
       emit (ConsoleError "Failed to update collaborator role:" error) ;;;
       emit (Toast "Error" "Failed to update collaborator role" true)).

End CollaborationPanel.

(* ================================================================== *)
(** * The dashboard *)
(* ================================================================== *)

Module Dashboard.

Record State := mkState {
  user : option User;
  lists : list (ListRecord * nat);   (* each list with its [itemCount] *)
  loading : bool;
  selectedListForCollab : option string
}.

Definition initial : State := mkState None [] true None.

Definition set_lists (x : list (ListRecord * nat)) (s : State) : State :=
  mkState (user s) x (loading s) (selectedListForCollab s).
Definition set_loading (x : bool) (s : State) : State :=
  mkState (user s) (lists s) x (selectedListForCollab s).

(** The item queries of [Promise.all] are issued in list order. *)
Definition loadLists : M State unit :=
  st <- render ;;
  match user st with
  | None => ret tt
  | Some u =>
      try_finally
        (try_catch
           (listsData <- Db.query Store.lists
                           (fun l => (list_userId l =? user_id u)%string)
                           (Some (fun a b =>
                                    String.leb (list_createdAt b)
                                               (list_createdAt a))) ;;
            listsWithCounts <-
              for_of listsData
                (fun acc l =>
                   its <- Db.query Store.listItems
                            (fun i => (item_listId i =? list_id l)%string)
                            None ;;
                   ret (acc ++ [(l, length its)])%list)
                [] ;;
            setState (set_lists listsWithCounts))
           (fun error =>
              emit (ConsoleError "Failed to load lists:" error) ;;;
              emit (Toast "Error" "Failed to load your lists" true)))
        (setState (set_loading false))
  end.

Definition deleteList (listId : string) : M State unit :=
  st <- render ;;
  try_catch
    (Db.delete "lists" Store.lists Store.set_lists list_id listId ;;;
     setState (set_lists
                 (filter (fun l => negb (list_id (fst l) =? listId)%string)
                         (lists st))) ;;;
     emit (Toast "Success" "List deleted successfully" false))
    (fun error =>
       emit (ConsoleError "Failed to delete list:" error) ;;;
       emit (Toast "Error" "Failed to delete list" true)).

(** A card, and with it the delete button, is rendered for each entry
    of [lists] and for nothing else. *)

End Dashboard.

(* ================================================================== *)
(** * The page that creates a list *)
(* ================================================================== *)

(** [await Promise.all(xs.map(start))]: every call is started, in list
    order and with its index, before any outcome is looked at; the
    whole rejects with the rejection of the earliest call that failed,
    and the calls after a failed one have run all the same. *)
Fixpoint promise_all {V A B} (start : A -> nat -> M V B) (xs : list A)
         (index : nat) : M V (list B) :=
  match xs with
  | [] => ret []
  | x :: rest =>
      fun env v w =>
        match start x index env v w with
        | (r, v', w') =>
            match promise_all start rest (S index) env v' w' with
            | (rs, v'', w'') =>
                (match r, rs with
                 | Ok b, Ok bs => Ok (b :: bs)
                 | Thrown e, _ => Thrown e
                 | Ok _, Thrown e => Thrown e
                 end, v'', w'')
            end
        end
  end.

Module CreateList.

Record Template := mkTemplate {
  tpl_id : string;
  tpl_name : string;
  tpl_icon : string;
  tpl_description : string;
  tpl_defaultItems : list string
}.

Definition templates : list Template :=
  [ mkTemplate "custom" "Custom List" "📝"
               "Create a custom list for any purpose"
               ["Item 1"; "Item 2"; "Item 3"];
    mkTemplate "shopping" "Shopping List" "🛒"
               "Perfect for grocery shopping and errands"
               ["Milk"; "Bread"; "Eggs"; "Fruits"; "Vegetables"];
    mkTemplate "tasks" "Task List" "✅"
               "Organize tasks and to-dos"
               ["Complete project"; "Review documents"; "Send emails";
                "Schedule meeting"];
    mkTemplate "events" "Event Planning" "📅"
               "Plan events and gatherings"
               ["Book venue"; "Send invitations"; "Order catering";
                "Prepare decorations"] ].

Record State := mkState {
  user : option User;
  selectedTemplate : string;
  title : string;
  description : string;
  items : list string;
  language : string;
  images : list UploadedImage;
  loading : bool
}.

Definition initial : State :=
  mkState None "custom" EmptyString EmptyString [EmptyString] "en" [] false.

Definition set_selectedTemplate (x : string) (s : State) : State :=
  mkState (user s) x (title s) (description s) (items s) (language s)
          (images s) (loading s).
Definition set_title (x : string) (s : State) : State :=
  mkState (user s) (selectedTemplate s) x (description s) (items s)
          (language s) (images s) (loading s).
Definition set_items (x : list string) (s : State) : State :=
  mkState (user s) (selectedTemplate s) (title s) (description s) x
          (language s) (images s) (loading s).
Definition set_loading (x : bool) (s : State) : State :=
  mkState (user s) (selectedTemplate s) (title s) (description s) (items s)
          (language s) (images s) x.

Definition handleTemplateSelect (templateId : string) : M State unit :=
  st <- render ;;
  setState (set_selectedTemplate templateId) ;;;
  match Js.find (fun t => (tpl_id t =? templateId)%string) templates with
  | Some template =>
      setState (set_items (tpl_defaultItems template ++ [EmptyString])) ;;;
      if negb (Js.truthy (title st))
      then setState (set_title (tpl_name template))
      else ret tt
  | None => ret tt
  end.

Definition addItem : M State unit :=
  st <- render ;;
  setState (set_items (items st ++ [EmptyString])).

(** [items.filter((_, i) => i !== index)]. *)
Fixpoint without_index {A} (xs : list A) (index i : nat) : list A :=
  match xs with
  | [] => []
  | x :: rest =>
      if (i =? index)%nat then without_index rest index (S i)
      else x :: without_index rest index (S i)
  end.

Definition removeItem (index : nat) : M State unit :=
  st <- render ;;
  if (1 <? length (items st))%nat
  then setState (set_items (without_index (items st) index 0))
  else ret tt.

Section Create.
(** [String.prototype.trim] is kept abstract. *)
Variable trim : string -> string.

(** One element of [validItems.map((item, index) => create({...}))];
    the identifier is [item_${Date.now()}_${index}_${random}]. *)
Definition createItem (listId : string) (item : string) (index : nat)
  : M State unit :=
  millis <- fresh_suffix ;;
  random <- fresh_suffix ;;
  createdAt <- now ;;
  Db.create Store.listItems Store.set_listItems item_id
            (mkItem ("item_" ++ millis ++ "_" ++ Js.show_nat index ++ "_"
                     ++ random)
                    listId (trim item) false (Z.of_nat index) createdAt).

Definition createImage (listId : string) (u : User) (image : UploadedImage)
           (index : nat) : M State unit :=
  createdAt <- now ;;
  Db.create Store.listImages Store.set_listImages
            (fun r => img_id (ir_image r))
            (mkImageRow image listId (user_id u) createdAt).

Definition validItems (st : State) : list string :=
  filter (fun item => Js.truthy (trim item)) (items st).

Definition createList : M State unit :=
  st <- render ;;
  match user st with
  | None => ret tt
  | Some u =>
      if negb (Js.truthy (trim (title st))) then
        emit (Toast "Error" "Please enter a list title" true)
      else if (length (validItems st) =? 0)%nat then
        emit (Toast "Error" "Please add at least one item" true)
      else
        setState (set_loading true) ;;;
        try_finally
          (try_catch
             (suffix <- fresh_suffix ;;
              let listId := "list_" ++ suffix in
              shareToken <- fresh_suffix ;;
              createdAt <- now ;;
              updatedAt <- now ;;
              Db.create Store.lists Store.set_lists list_id
                        (mkList listId (trim (title st))
                                (trim (description st)) (selectedTemplate st)
                                (language st) false shareToken (user_id u)
                                createdAt updatedAt) ;;;
              promise_all (createItem listId) (validItems st) 0 ;;;
              (if (0 <? length (images st))%nat
               then promise_all (createImage listId u) (images st) 0 ;;; ret tt
               else ret tt) ;;;
              emit (Toast "Success" "List created successfully!" false) ;;;
              emit (Navigate ("/edit/" ++ listId)))
             (fun error =>
                emit (ConsoleError "Failed to create list:" error) ;;;
                emit (Toast "Error" "Failed to create list. Please try again."
                            true)))
          (setState (set_loading false))
  end.

End Create.

End CreateList.


(* ================================================================== *)
(** * Notions the properties are stated with *)
(* ================================================================== *)

(** ** Outcomes of a handler run *)

Definition result_of {V A} (o : Result A * V * World) : Result A := fst (fst o).
Definition state_of {V A} (o : Result A * V * World) : V := snd (fst o).
Definition world_of {V A} (o : Result A * V * World) : World := snd o.

(** The handler rejected (its promise did not resolve). *)
Definition raised {V A} (o : Result A * V * World) : Prop :=
  match result_of o with Thrown _ => True | Ok _ => False end.

(** The handler told the user or the console something. *)
Definition notified {V A} (before : World) (o : Result A * V * World) : Prop :=
  log (world_of o) <> log before.

(** No call to the outside was made and nothing was reported. *)
Definition silently_ignored {V} (h : M V unit) (env : Env) (st : V)
           (w : World) : Prop :=
  h env st w = (Ok tt, st, w).

Definition no_faults (env : Env) : Prop := forall n, fault env n = false.

(** ** Dense ordering of the items of a list *)

Definition orderIndexes (its : list ListItem) : list Z :=
  map item_orderIndex its.

(** The order indexes are exactly 0 .. n-1, each once. *)
Definition dense (its : list ListItem) : Prop :=
  NoDup (orderIndexes its)
  /\ forall z, In z (orderIndexes its) <-> 0 <= z < Z.of_nat (length its).

(** A user action on the item rows of the shared view: the add button,
    the check button of a row, the remove button of a row. *)
Inductive ItemClick :=
| ClickAdd
| ClickCheck (row : nat)
| ClickRemove (row : nat).

Definition is_removal (c : ItemClick) : bool :=
  match c with ClickRemove _ => true | _ => false end.

Definition click (c : ItemClick) : M SharedList.State unit :=
  st <- render ;;
  match c with
  | ClickAdd => SharedList.addItem
  | ClickCheck row =>
      match nth_error (SharedList.items st) row with
      | Some item => SharedList.toggleChecked item
      | None => ret tt
      end
  | ClickRemove row =>
      match nth_error (SharedList.items st) row with
      | Some item => SharedList.removeItem (item_id item)
      | None => ret tt
      end
  end.

(** One click after the other, each on the state the previous one left. *)
Definition clicks (cs : list ItemClick) : M SharedList.State unit :=
  for_of cs (fun _ c => click c) tt.

(** ** Role resolution as the specification words it *)

(** Section 4.1: owner if the requester is the list's owner; else the
    role of the requester's collaborator record, if the requester is
    present and has one; else viewer if the list is shared; else none
    ([None]). *)
Definition RoleResolver_spec (requester : option string) (l : ListRecord)
           (collaborators : list Collaborator) : option Role :=
  match requester with
  | Some r =>
      if (r =? list_userId l)%string then Some owner
      else match List.find (fun c => (col_userId c =? r)%string)
                           collaborators with
           | Some c => Some (col_role c)
           | None => if list_isShared l then Some viewer else None
           end
  | None => if list_isShared l then Some viewer else None
  end.

(** ** The layout both message serializers follow *)

Fixpoint numbered {A} (line : A -> nat -> string) (xs : list A) (i : nat)
  : list string :=
  match xs with
  | [] => []
  | x :: r => line x (i + 1)%nat :: numbered line r (S i)
  end.

(** Every line followed by the separator. *)
Fixpoint terminated (sep : string) (lines : list string) : string :=
  match lines with
  | [] => EmptyString
  | l :: r => l ++ sep ++ terminated sep r
  end.

Definition item_line (item : ListItem) (n : nat) : string :=
  (if item_isChecked item then "✅" else "☐") ++ " " ++ Js.show_nat n ++ ". "
  ++ item_content item.

Definition image_line (image : UploadedImage) (n : nat) : string :=
  Js.show_nat n ++ ". " ++ img_url image.

(** Title in bold marks; the description, when there is one, in italic
    marks; a blank line; the numbered items; when there are images, a
    blank line, a header and the numbered locators; a blank line; the
    attribution, which ends the text. Without a list, no text. *)
Definition title_line (l : ListRecord) : string :=
  "*" ++ list_title l ++ "*".

Definition description_lines (l : ListRecord) : list string :=
  if Js.truthy (list_description l)
  then ["_" ++ list_description l ++ "_"] else [].

Definition image_section (imgs : list UploadedImage) : list string :=
  match imgs with
  | [] => []
  | _ :: _ => EmptyString :: "📸 *Images:*" :: numbered image_line imgs 0
  end.

Definition layout (sep attribution : string) (l : option ListRecord)
           (its : list ListItem) (imgs : list UploadedImage) : string :=
  match l with
  | None => EmptyString
  | Some l =>
      terminated sep
        (title_line l
           :: app (description_lines l)
                  (EmptyString
                     :: app (numbered item_line its 0)
                            (app (image_section imgs) [EmptyString])))
      ++ attribution
  end.

(** Two calls of the shared view's serializer in a row, as when the
    preview is rendered and the message is then copied. *)
Definition serialize_twice : M SharedList.State (string * string) :=
  st <- render ;;
  let first := SharedList.generateWhatsAppMessage st in
  st' <- render ;;
  let second := SharedList.generateWhatsAppMessage st' in
  ret (first, second).

(** ** Share tokens *)

(** Section 3 of the specification: a share token belongs to one list. *)
Definition unique_tokens (ls : list ListRecord) : Prop :=
  forall a b, In a ls -> In b ls ->
              list_shareToken a = list_shareToken b -> a = b.

(** The store without the lists that are not shared. *)
Definition hide_unshared (w : World) : World :=
  set_db w (Store.set_lists (db w) (filter list_isShared (Store.lists (db w)))).

(** What a run shows: its result, the component state, the
    notifications. *)
Definition shown {V A} (o : Result A * V * World)
  : Result A * V * list Event :=
  (result_of o, state_of o, log (world_of o)).

(** How [loadSharedList] ends when no list is found. *)
Definition not_found_outcome (st : SharedList.State) (w : World)
  : Result unit * SharedList.State * World :=
  (Ok tt, SharedList.set_loading false st,
   record (record (advance w) SharedList.notFoundToast) (Navigate "/")).

(** ** Attachment quota *)

(** The two limits as the specification words them. *)
Definition within_count (images : list UploadedImage) (files : list File)
           (maxImages : Z) : Prop :=
  Z.of_nat (length images) + Z.of_nat (length files) <= maxImages.

Definition total_bytes (images : list UploadedImage) (files : list File) : Z :=
  fold_right Z.add 0 (map img_size images)
  + fold_right Z.add 0 (map file_size files).

Definition within_size (images : list UploadedImage) (files : list File)
           (maxTotalSize : Z) : Prop :=
  total_bytes images files <= maxTotalSize.

(** A run that made no call to the outside and changed neither the
    component state, the document store nor the blob store. *)
Definition applied_nothing {V A} (before : V) (w : World)
           (o : Result A * V * World) : Prop :=
  state_of o = before
  /\ db (world_of o) = db w
  /\ blobs (world_of o) = blobs w
  /\ tick (world_of o) = tick w.

(** ** The permission gate of the shared view *)

(** A role and a list are set together, by [loadSharedList]. *)
Definition coherent (st : SharedList.State) : Prop :=
  SharedList.userRole st = None <-> SharedList.list_ st = None.



(** Every list on the dashboard belongs to the user. *)
Definition owned_only (u : User) (st : Dashboard.State) : Prop :=
  forall x, In x (Dashboard.lists st) -> list_userId (fst x) = user_id u.

(** ** The page and the store in step *)

(** The rows of a list in the store, in stored order. *)
Definition rows_of (l : ListRecord) (w : World) : list ListItem :=
  filter (fun r => (item_listId r =? list_id l)%string)
         (Store.listItems (db w)).

(** The items on the page are the rows of the list, in some order. *)
Definition in_step (l : ListRecord) (st : SharedList.State) (w : World)
  : Prop :=
  Permutation (SharedList.items st) (rows_of l w).

(** Ascending by [orderIndex]. *)
Definition by_orderIndex (a b : ListItem) : Prop :=
  item_orderIndex a <= item_orderIndex b.

(** The two notifications of a caught failure. *)
Definition reported (w : World) (message : string) (error : Exn)
           (toast : string) : World :=
  record (record w (ConsoleError message error)) (Toast "Error" toast true).

(** ** What a handler may not touch *)

(** The same requester with the same role, and a list on the page
    exactly when there was one. *)
Definition same_access (before after : SharedList.State) : Prop :=
  SharedList.user after = SharedList.user before
  /\ SharedList.userRole after = SharedList.userRole before
  /\ (SharedList.list_ after = None <-> SharedList.list_ before = None).

(** ** Checking every item at once *)

Definition checked_patch : ItemPatch := mkItemPatch None None (Some true) None.

(** The item is among the unchecked items of [xs], by identifier. *)
Definition to_be_checked (xs : list ListItem) (r : ListItem) : bool :=
  existsb (fun x => negb (item_isChecked x)
                    && (item_id r =? item_id x)%string) xs.

(** [items] with the items of one identifier checked. *)
Definition check_one (it : ListItem) (items : list ListItem) : list ListItem :=
  map (fun item => if (item_id item =? item_id it)%string
                   then patch_item item checked_patch else item) items.

(** ** The sharing switch *)

(** [updateList({ isShared: checked })]. *)
Definition share_patch (checked : bool) : ListPatch :=
  mkListPatch None None None None None (Some checked) None None None.

(** No two rows of the collection carry the same identifier. *)
Definition unique_ids (ls : list ListRecord) : Prop :=
  forall a b, In a ls -> In b ls -> list_id a = list_id b -> a = b.

(** ** The form that creates a list *)

(** What the user can do to the rows of the form. *)
Inductive FormAction :=
| FormAdd
| FormRemove (index : nat)
| FormTemplate (templateId : string).

Definition form_act (a : FormAction) : M CreateList.State unit :=
  match a with
  | FormAdd => CreateList.addItem
  | FormRemove index => CreateList.removeItem index
  | FormTemplate templateId => CreateList.handleTemplateSelect templateId
  end.

Definition form_acts (acts : list FormAction) : M CreateList.State unit :=
  for_of acts (fun _ a => form_act a) tt.

(** The rows the store holds for the list with the given identifier. *)
Definition rows_for (listId : string) (w : World) : list ListItem :=
  filter (fun r => (item_listId r =? listId)%string) (Store.listItems (db w)).


(** A run that left a part [keep] of the page, the database and the
    event log as they were. *)
Definition untouched {P K} (keep : P -> K) (p : P) (w : World) (p' : P)
           (w' : World) : Prop :=
  keep p' = keep p /\ db w' = db w /\ log w' = log w.

(** Bytes of a list of attachments, and of a selection of files. *)
Definition image_bytes (imgs : list UploadedImage) : Z :=
  fold_right Z.add 0 (map img_size imgs).

Definition file_bytes (files : list File) : Z :=
  fold_right Z.add 0 (map file_size files).

(** ** The dashboard *)

(** Newest first by [createdAt], as the dashboard asks for its lists. *)
Definition newest_first (a b : ListRecord) : Prop :=
  String.leb (list_createdAt b) (list_createdAt a) = true.

(** A card of the dashboard with the exact number of rows of its list. *)
Definition counted (w : World) (l : ListRecord) : ListRecord * nat :=
  (l, length (rows_of l w)).

(** ** The collaboration panel *)

(** What the owner can do to a collaborator on the panel. *)
Inductive PanelAction :=
| PanelRemove (collaboratorId : string)
| PanelSetRole (collaboratorId : string)
               (newRole : CollaborationPanel.InviteRole).

Definition panel_act (a : PanelAction) : M CollaborationPanel.State unit :=
  match a with
  | PanelRemove id => CollaborationPanel.removeCollaborator id
  | PanelSetRole id r => CollaborationPanel.updateCollaboratorRole id r
  end.

(** The panel lists the collaborator records of the list, in some
    order. *)
Definition panel_in_step (listId : string) (st : CollaborationPanel.State)
           (w : World) : Prop :=
  Permutation (CollaborationPanel.collaborators st)
              (filter (fun c => (col_listId c =? listId)%string)
                      (Store.listCollaborators (db w))).

(** ** The editor and the shared page side by side *)

(** What the user can do to the items of a list on either page. *)
Inductive ItemAction :=
| ItemAdd
| ItemUpdate (itemId : string) (updates : ItemPatch)
| ItemRemove (itemId : string).

Definition editor_act (a : ItemAction) : M ListEditor.State unit :=
  match a with
  | ItemAdd => ListEditor.addItem
  | ItemUpdate id updates => ListEditor.updateItem id updates
  | ItemRemove id => ListEditor.removeItem id
  end.

Definition shared_act (a : ItemAction) : M SharedList.State unit :=
  match a with
  | ItemAdd => SharedList.addItem
  | ItemUpdate id updates => SharedList.updateItem id updates
  | ItemRemove id => SharedList.removeItem id
  end.

(** One handler run after the other, each on the page and the world the
    one before left. *)
Fixpoint in_turn {V A} (act : A -> M V unit) (acts : list A) (env : Env)
         (v : V) (w : World) : V * World :=
  match acts with
  | [] => (v, w)
  | a :: rest =>
      in_turn act rest env (state_of (act a env v w)) (world_of (act a env v w))
  end.

(** The two pages hold the same list with the same items. *)
Definition same_list (ed : ListEditor.State) (sh : SharedList.State) : Prop :=
  ListEditor.list_ ed = SharedList.list_ sh
  /\ ListEditor.items ed = SharedList.items sh.

(** ** Removing an attachment *)

(** The store holds no image row that it did not hold before, and its
    other collections are as they were. *)
Definition no_new_image_rows (w w' : World) : Prop :=
  incl (Store.listImages (db w')) (Store.listImages (db w))
  /\ Store.lists (db w') = Store.lists (db w)
  /\ Store.listItems (db w') = Store.listItems (db w)
  /\ Store.listCollaborators (db w') = Store.listCollaborators (db w).

(** ** Sample data *)

Definition alice : User := mkUser "u1" "alice@example.org" None.
Definition bob : User := mkUser "u2" "bob@example.org" (Some "Bob").
Definition carol : User := mkUser "u3" "carol@example.org" None.

Definition groceries : ListRecord :=
  mkList "l1" "Groceries" EmptyString "shopping" "en" true "tok1" "u1"
         "2024-01-01" "2024-01-01".

(** A second list of the same owner that is not shared. *)
Definition errands : ListRecord :=
  mkList "l2" "Errands" "this week" "tasks" "en" false "tok2" "u1"
         "2024-01-02" "2024-01-02".

Definition milk : ListItem := mkItem "i1" "l1" "Milk" true 0 "2024-01-01".
Definition eggs : ListItem := mkItem "i2" "l1" "Eggs" false 1 "2024-01-01".

Definition bob_edits : Collaborator :=
  mkCollaborator "c1" "l1" "u2" "bob@example.org" (Some "bob") editor accepted
                 "u1" "2024-01-03".
Definition carol_views : Collaborator :=
  mkCollaborator "c2" "l1" "u3" "carol@example.org" (Some "carol") viewer
                 accepted "u1" "2024-01-04".

Definition sample_store : Store.t :=
  Store.mk [groceries; errands] [milk; eggs] [] [bob_edits; carol_views].

Definition calm : Env :=
  mkEnv (fun _ => false) (fun _ => "1700000000000_abc123xyz")
        (fun _ => "2024-02-02T10:00:00.000Z")
        (fun _ => "https://cdn.example.org/pic") (fun _ => [50; 100]).

Definition sample_world : World := mkWorld sample_store [] 0 [].

(** The shared view of [groceries] as a requester with the given role
    sees it once loaded. *)
Definition groceries_view (u : option User) (r : option Role)
  : SharedList.State :=
  SharedList.mkState u (Some groceries) [milk; eggs] []
                     [bob_edits; carol_views] r false false.

Definition groceries_editor_view : ListEditor.State :=
  ListEditor.mkState (Some alice) (Some groceries) [milk; eggs] [] false false
                     false.

Definition photo (n : string) : UploadedImage :=
  mkImage n (n ++ ".png") ("https://cdn.example.org/" ++ n) 1000.

(** The shared page of an editor with four images attached. *)
Definition full_page : SharedListPage.State :=
  (SharedList.mkState (Some bob) (Some groceries) [milk; eggs]
                      [photo "a"; photo "b"; photo "c"; photo "d"]
                      [bob_edits; carol_views] (Some editor) false false,
   ImageUpload.initial).

Definition one_more : File := mkFile "e.png" "image/png" 1000.

(** A stand-in for [formatFileSize] in examples. *)
Definition plain_bytes (z : Z) : string := Js.show_Z z ++ " Bytes".

(** A stand-in for [String.prototype.trim] in examples: it strips the
    white space of ASCII only. *)
Definition is_space (c : ascii) : bool :=
  let n := nat_of_ascii c in
  (n =? 32)%nat || ((9 <=? n)%nat && (n <=? 13)%nat).

Fixpoint drop_leading (s : string) : string :=
  match s with
  | String c r => if is_space c then drop_leading r else s
  | EmptyString => EmptyString
  end.

Fixpoint drop_trailing (s : string) : string :=
  match s with
  | EmptyString => EmptyString
  | String c r =>
      match drop_trailing r with
      | EmptyString => if is_space c then EmptyString else String c EmptyString
      | r' => String c r'
      end
  end.

Definition ascii_trim (s : string) : string := drop_trailing (drop_leading s).

(** The collaboration panel of [groceries] with an address typed in. *)
Definition inviting_dave : CollaborationPanel.State :=
  CollaborationPanel.mkState [bob_edits; carol_views] "dave@example.org"
                             CollaborationPanel.invite_viewer false false.

(** The text the shared view is to give for [groceries]: six lines
    separated by line feeds. *)
Definition groceries_message : string :=
  "*Groceries*" ++ Js.LF
  ++ Js.LF
  ++ "✅ 1. Milk" ++ Js.LF
  ++ "☐ 2. Eggs" ++ Js.LF
  ++ Js.LF
  ++ "_Shared via WhatsApp List Manager_".

Fixpoint contains_char (c : ascii) (s : string) : bool :=
  match s with
  | EmptyString => false
  | String d r => Ascii.eqb c d || contains_char c r
  end.

(** An environment in which every call to the outside fails. *)
Definition stormy : Env :=
  mkEnv (fun _ => true) (fresh calm) (clock calm) (locator calm)
        (progress calm).

Definition butter : ListItem := mkItem "i3" "l1" "Butter" false 2 "2024-01-01".

(** The shared page of an editor with two unchecked items, and a world
    whose store holds their rows. *)
Definition two_unchecked : SharedList.State :=
  SharedList.set_items [eggs; butter] (groceries_view (Some bob) (Some editor)).

Definition pantry_world : World :=
  mkWorld (Store.mk [groceries; errands] [milk; eggs; butter] []
                    [bob_edits; carol_views]) [] 0 [].

(** The owner's editor holding the unshared list. *)
Definition errands_editor_view : ListEditor.State :=
  ListEditor.mkState (Some alice) (Some errands) [] [] false false false.

(** The form as a signed-in user has filled it in: a title with blanks
    around it, two items and two blank rows. *)
Definition filled_form : CreateList.State :=
  CreateList.mkState (Some alice) "shopping" "  Weekend  " EmptyString
                     ["Milk"; "   "; " Bread "; EmptyString] "en" [] false.

Definition dave : User := mkUser "u4" "dave@example.org" None.

(** The panel with an invitation of dave as editor typed in. *)
Definition inviting_dave_as_editor : CollaborationPanel.State :=
  CollaborationPanel.mkState [bob_edits; carol_views] "dave@example.org"
                             CollaborationPanel.invite_editor false false.

Definition notes_file : File := mkFile "notes.txt" "text/plain" 10.

(** The shared page of an editor with one image attached. *)
Definition roomy_page : SharedListPage.State :=
  (SharedList.mkState (Some bob) (Some groceries) [milk; eggs] [photo "a"]
                      [bob_edits; carol_views] (Some editor) false false,
   ImageUpload.initial).

(** A list of bob's own, and a store that holds lists of two users. *)
Definition chores : ListRecord :=
  mkList "l3" "Chores" EmptyString "tasks" "en" false "tok3" "u2"
         "2024-01-05" "2024-01-05".

Definition two_owners_world : World :=
  mkWorld (Store.mk [groceries; chores; errands] [milk; eggs] []
                    [bob_edits; carol_views]) [] 0 [].

Definition alice_dashboard : Dashboard.State :=
  Dashboard.mkState (Some alice) [] true None.

(** The dashboard of alice once loaded from [sample_world]. *)
Definition alice_cards : Dashboard.State :=
  Dashboard.mkState (Some alice) [(errands, 0%nat); (groceries, 2%nat)] false
                    None.

(** The panel of [groceries] once loaded. *)
Definition groceries_panel : CollaborationPanel.State :=
  CollaborationPanel.mkState [bob_edits; carol_views] EmptyString
                             CollaborationPanel.invite_editor false false.

(** What a user might do in a row: add an item, name it, check the
    milk, drop the eggs. *)
Definition a_few_edits : list ItemAction :=
  [ItemAdd;
   ItemUpdate "item_1700000000000_abc123xyz"
              (mkItemPatch None (Some "Bread") None None);
   ItemUpdate "i1" (mkItemPatch None None (Some true) None);
   ItemRemove "i2"].

(** A store that holds the image rows of two photos of the groceries
    list, the page of an editor that shows them, and a proposal that
    drops the first and brings a third. *)
Definition album_world : World :=
  mkWorld (Store.mk [groceries; errands] [milk; eggs]
                    [mkImageRow (photo "a") "l1" "u2" "2024-01-06";
                     mkImageRow (photo "b") "l1" "u2" "2024-01-07"]
                    [bob_edits; carol_views]) [] 0 [].

Definition album_view : SharedList.State :=
  SharedList.set_images [photo "a"; photo "b"]
                        (groceries_view (Some bob) (Some editor)).

(* ================================================================== *)
(** * Properties *)
(* ================================================================== *)

Unset Implicit Arguments.

(** ** Strings and the handler monad *)

Lemma string_app_assoc (a b c : string) : (a ++ b) ++ c = a ++ (b ++ c).
Proof. induction a as [|ch a IH]; simpl; [reflexivity | now rewrite IH]. Qed.

Lemma string_app_nil_r (a : string) : a ++ EmptyString = a.
Proof. induction a as [|ch a IH]; simpl; [reflexivity | now rewrite IH]. Qed.

Lemma terminated_app (sep : string) (xs ys : list string) :
  terminated sep (xs ++ ys)%list = terminated sep xs ++ terminated sep ys.
Proof.
  induction xs as [|x xs IH]; simpl; [reflexivity|].
  now rewrite IH, !string_app_assoc.
Qed.

(** A [forEach] that appends one terminated line per element writes the
    numbered lines after what was there. *)
Lemma forEach_from_lines {A} (line : A -> nat -> string) (sep : string)
      (step : string -> A -> nat -> string) :
  (forall m x k, step m x k = m ++ line x (k + 1)%nat ++ sep) ->
  forall xs i acc,
    Js.forEach_from step xs i acc = acc ++ terminated sep (numbered line xs i).
Proof.
  intros Hstep xs. induction xs as [|x xs IH]; intros i acc; simpl.
  - now rewrite string_app_nil_r.
  - rewrite IH, Hstep. now rewrite !string_app_assoc.
Qed.

(** Brings both sides of an equation between concatenations to the
    same right-nested form. *)
Ltac string_norm :=
  unfold Js.LF, Js.backslash_n;
  repeat first [ rewrite !string_app_assoc
               | rewrite !terminated_app
               | progress cbn [append terminated app] ].

Lemma checkbox_glyph (b : bool) :
  (if Js.Number b >? 0 then "✅" else "☐") = (if b then "✅" else "☐").
Proof. now destruct b. Qed.

(** ** The message serializers *)

Lemma shared_serializer_layout (st : SharedList.State) :
  SharedList.generateWhatsAppMessage st
  = layout Js.LF "_Shared via WhatsApp List Manager_"
           (SharedList.list_ st) (SharedList.items st) (SharedList.images st).
Proof.
  unfold SharedList.generateWhatsAppMessage, layout, Js.forEach.
  destruct (SharedList.list_ st) as [l|]; [|reflexivity].
  rewrite (forEach_from_lines item_line Js.LF).
  2:{ intros m x k. unfold item_line. rewrite checkbox_glyph.
      now rewrite !string_app_assoc. }
  unfold description_lines, title_line, image_section.
  destruct (SharedList.images st) as [|img imgs] eqn:Himgs.
  - destruct (Js.truthy (list_description l)); cbn [length Nat.ltb Nat.leb];
      string_norm; reflexivity.
  - cbn [length Nat.ltb Nat.leb].
    rewrite (forEach_from_lines image_line Js.LF).
    2:{ intros m x k. unfold image_line. now rewrite !string_app_assoc. }
    destruct (Js.truthy (list_description l)); string_norm; reflexivity.
Qed.

Lemma editor_serializer_layout (st : ListEditor.State) :
  ListEditor.generateWhatsAppMessage st
  = layout Js.backslash_n "_Created with WhatsApp List Manager_"
           (ListEditor.list_ st) (ListEditor.items st) (ListEditor.images st).
Proof.
  unfold ListEditor.generateWhatsAppMessage, layout, Js.forEach.
  destruct (ListEditor.list_ st) as [l|]; [|reflexivity].
  rewrite (forEach_from_lines item_line Js.backslash_n).
  2:{ intros m x k. unfold item_line. rewrite checkbox_glyph.
      now rewrite !string_app_assoc. }
  unfold description_lines, title_line, image_section.
  destruct (ListEditor.images st) as [|img imgs] eqn:Himgs.
  - destruct (Js.truthy (list_description l)); cbn [length Nat.ltb Nat.leb];
      string_norm; reflexivity.
  - cbn [length Nat.ltb Nat.leb].
    rewrite (forEach_from_lines image_line Js.backslash_n).
    2:{ intros m x k. unfold image_line. now rewrite !string_app_assoc. }
    destruct (Js.truthy (list_description l)); string_norm; reflexivity.
Qed.

(** The shared view renders the sample list as the six expected lines,
    separated by line feeds, without an image section. *)
Lemma shared_message_groceries (u : option User) (r : option Role) :
  SharedList.generateWhatsAppMessage (groceries_view u r) = groceries_message.
Proof. reflexivity. Qed.

(** C7. The serializer is to give, for the list "Groceries" with the
    checked item "Milk" and the unchecked item "Eggs", six lines
    separated by real newline characters. The serializer of the list
    editor does not: it puts the two characters backslash and n where
    the lines should break, so its text holds no line feed at all, and
    it differs from the six lines under either attribution. *)
Theorem editor_message_groceries_has_no_newline :
  ListEditor.generateWhatsAppMessage groceries_editor_view
  = "*Groceries*\n\n✅ 1. Milk\n☐ 2. Eggs\n\n_Created with WhatsApp List Manager_"
  /\ contains_char (ascii_of_nat 10)
       (ListEditor.generateWhatsAppMessage groceries_editor_view) = false
  /\ ListEditor.generateWhatsAppMessage groceries_editor_view
     <> groceries_message
  /\ ListEditor.generateWhatsAppMessage groceries_editor_view
     <> layout Js.LF "_Created with WhatsApp List Manager_"
               (Some groceries) [milk; eggs] [].
Proof.
  repeat split; try reflexivity; vm_compute; discriminate.
Qed.

(** C8. The serializer is deterministic and free of side effects: two
    calls in a row give the same text and leave the component state and
    the world as they were; the text depends on the list, the items and
    the images only; and copying the message changes no state cell. *)
Theorem serializer_deterministic_and_pure :
  forall (env : Env) (st st' : SharedList.State) (w : World),
    serialize_twice env st w
    = (Ok (SharedList.generateWhatsAppMessage st,
           SharedList.generateWhatsAppMessage st), st, w)
    /\ (SharedList.list_ st' = SharedList.list_ st ->
        SharedList.items st' = SharedList.items st ->
        SharedList.images st' = SharedList.images st ->
        SharedList.generateWhatsAppMessage st'
        = SharedList.generateWhatsAppMessage st)
    /\ state_of (SharedList.copyToClipboard env st w) = st
    /\ db (world_of (SharedList.copyToClipboard env st w)) = db w.
Proof.
  intros env st st' w. repeat split.
  intros Hl Hi Hm. rewrite !shared_serializer_layout. now rewrite Hl, Hi, Hm.
Qed.

Lemma serializer_deterministic_and_pure_witness :
  serialize_twice calm (groceries_view None (Some viewer)) sample_world
  = (Ok (groceries_message, groceries_message),
     groceries_view None (Some viewer), sample_world)
  /\ SharedList.generateWhatsAppMessage (groceries_view (Some bob) (Some editor))
     = SharedList.generateWhatsAppMessage (groceries_view None (Some viewer)).
Proof.
  destruct (serializer_deterministic_and_pure calm
              (groceries_view None (Some viewer))
              (groceries_view (Some bob) (Some editor)) sample_world)
    as (Htwice & Hsame & _).
  split; [exact Htwice | apply Hsame; reflexivity].
Defined.

(** C10, as stated, fails: on the same list, items and images the two
    serializers give different texts. *)
Lemma serializers_differ_on_groceries :
  ListEditor.list_ groceries_editor_view
  = SharedList.list_ (groceries_view (Some alice) (Some owner))
  /\ ListEditor.items groceries_editor_view
     = SharedList.items (groceries_view (Some alice) (Some owner))
  /\ ListEditor.images groceries_editor_view
     = SharedList.images (groceries_view (Some alice) (Some owner))
  /\ ListEditor.generateWhatsAppMessage groceries_editor_view
     <> SharedList.generateWhatsAppMessage
          (groceries_view (Some alice) (Some owner)).
Proof.
  repeat split; vm_compute; discriminate.
Qed.

(** C10, amended. Both serializers follow one layout (bold title,
    optional italic description, blank line, numbered items with the
    same glyph rule, optional image section, blank line, attribution),
    each with a line separator of its own, and they end differently:
    the editor with "Created with", the shared view with "Shared via". *)
Theorem serializers_share_layout :
  exists sep_editor sep_shared : string,
    forall (se : ListEditor.State) (ss : SharedList.State),
      ListEditor.generateWhatsAppMessage se
      = layout sep_editor "_Created with WhatsApp List Manager_"
               (ListEditor.list_ se) (ListEditor.items se)
               (ListEditor.images se)
      /\ SharedList.generateWhatsAppMessage ss
         = layout sep_shared "_Shared via WhatsApp List Manager_"
                  (SharedList.list_ ss) (SharedList.items ss)
                  (SharedList.images ss).
Proof.
  exists Js.backslash_n, Js.LF. intros se ss.
  split; [apply editor_serializer_layout | apply shared_serializer_layout].
Qed.

(** ** Role resolution *)

Lemma determineRole_never_none (u : option User) (l : ListRecord)
      (cs : list Collaborator) :
  SharedList.determineRole u l cs <> None.
Proof.
  unfold SharedList.determineRole.
  destruct u as [u|]; [destruct (list_userId l =? user_id u)%string|];
    discriminate.
Qed.

(** ** Running handlers *)

Ltac unfold_monad :=
  unfold bind, render, ret, try_catch, try_finally, setState, emit,
    fresh_suffix, now, Db.query, Db.create, Db.update, Db.delete, await_store
    in *.

Lemma for_of_invariant {V A B} (I : V -> Prop) (body : B -> A -> M V B)
      (xs : list A) :
  (forall acc x env v w, In x xs -> I v -> I (state_of (body acc x env v w))) ->
  forall acc env v w, I v -> I (state_of (for_of xs body acc env v w)).
Proof.
  induction xs as [|x xs IH]; intros Hbody acc env v w Hv; cbn [for_of].
  - exact Hv.
  - unfold bind.
    pose proof (Hbody acc x env v w (or_introl eq_refl) Hv) as Hx.
    destruct (body acc x env v w) as [[[b|e] v'] w']; cbn in Hx.
    + apply IH; [|exact Hx]. intros; apply Hbody; [now right | assumption].
    + exact Hx.
Qed.

Lemma for_of_preserves {V A B} (I : V -> World -> Prop)
      (body : B -> A -> M V B) (xs : list A) :
  (forall acc x env v w,
      In x xs -> I v w ->
      I (state_of (body acc x env v w)) (world_of (body acc x env v w))) ->
  forall acc env v w,
    I v w ->
    I (state_of (for_of xs body acc env v w))
      (world_of (for_of xs body acc env v w)).
Proof.
  induction xs as [|x xs IH]; intros Hbody acc env v w Hv; cbn [for_of].
  - exact Hv.
  - unfold bind.
    pose proof (Hbody acc x env v w (or_introl eq_refl) Hv) as Hx.
    destruct (body acc x env v w) as [[[b|e] v'] w']; cbn in Hx.
    + apply IH; [|exact Hx]. intros; apply Hbody; [now right | assumption].
    + exact Hx.
Qed.

Ltac split_fault :=
  match goal with
  | |- context [fault ?e ?n] => destruct (fault e n) eqn:?
  end.

(** *** What each item handler leaves in [items] *)

Lemma addItem_items (env : Env) (st : SharedList.State) (w : World) :
  let st' := state_of (SharedList.addItem env st w) in
  SharedList.items st' = SharedList.items st
  \/ exists id createdAt listId,
      SharedList.items st'
      = (SharedList.items st
           ++ [mkItem id listId EmptyString false
                      (Z.of_nat (length (SharedList.items st))) createdAt])%list.
Proof.
  unfold SharedList.addItem, SharedList.addItem_try. unfold_monad.
  destruct (SharedList.list_ st) as [l|]; [|now left].
  destruct (SharedList.canEdit st); cbn; [|now left].
  destruct (fault env (S (S (tick w)))); cbn; [now left|].
  right. now eexists _, _, _.
Qed.

Lemma updateItem_items (env : Env) (st : SharedList.State) (w : World)
      (itemId : string) (updates : ItemPatch) :
  let st' := state_of (SharedList.updateItem itemId updates env st w) in
  SharedList.items st' = SharedList.items st
  \/ SharedList.items st'
     = map (fun item => if (item_id item =? itemId)%string
                        then patch_item item updates else item)
           (SharedList.items st).
Proof.
  unfold SharedList.updateItem, SharedList.updateItem_try. unfold_monad.
  destruct (SharedList.canEdit st); cbn; [|now left].
  destruct (fault env (tick w)); cbn; [now left|].
  destruct (Store.update _ _ _ _); cbn; [now right | now left].
Qed.

Lemma removeItem_items (env : Env) (st : SharedList.State) (w : World)
      (itemId : string) :
  let st' := state_of (SharedList.removeItem itemId env st w) in
  SharedList.items st' = SharedList.items st
  \/ SharedList.items st'
     = filter (fun item => negb (item_id item =? itemId)%string)
              (SharedList.items st).
Proof.
  unfold SharedList.removeItem, SharedList.removeItem_try. unfold_monad.
  destruct (SharedList.canEdit st); cbn; [|now left].
  destruct (fault env (tick w)); cbn; [now left|].
  destruct (Store.delete _ _ _); cbn; [now right | now left].
Qed.

(** A removal that is allowed and that the store accepts. *)
Lemma removeItem_success (env : Env) (st : SharedList.State) (w : World)
      (itemId : string) :
  SharedList.canEdit st = true ->
  fault env (tick w) = false ->
  Store.has_id item_id itemId (Store.listItems (db w)) = true ->
  SharedList.removeItem itemId env st w
  = (Ok tt,
     SharedList.set_items
       (filter (fun item => negb (item_id item =? itemId)%string)
               (SharedList.items st)) st,
     set_db (advance w)
       (Store.set_listItems (db w)
          (filter (fun r => negb (item_id r =? itemId)%string)
                  (Store.listItems (db w))))).
Proof.
  intros Hedit Hfault Hid.
  unfold SharedList.removeItem, SharedList.removeItem_try. unfold_monad.
  rewrite Hedit. cbn. rewrite Hfault. unfold Store.delete. now rewrite Hid.
Qed.

(** ** Dense ordering *)

Lemma dense_append (its : list ListItem) (new : ListItem) :
  item_orderIndex new = Z.of_nat (length its) ->
  dense its -> dense (its ++ [new]).
Proof.
  intros Hnew [Hnodup Hrange]. unfold dense, orderIndexes in *.
  rewrite map_app, length_app. cbn [map length].
  split.
  - apply NoDup_app; [exact Hnodup | repeat constructor; intros [] |].
    intros z Hz [Heq|[]]. apply Hrange in Hz. lia.
  - intros z. rewrite in_app_iff, Hrange. cbn [In]. lia.
Qed.

Lemma orderIndexes_patch_without_index (its : list ListItem) (itemId : string)
      (updates : ItemPatch) :
  ip_orderIndex updates = None ->
  orderIndexes (map (fun item => if (item_id item =? itemId)%string
                                 then patch_item item updates else item) its)
  = orderIndexes its.
Proof.
  intros Hnone. unfold orderIndexes. rewrite map_map. apply map_ext.
  intros item. destruct (item_id item =? itemId)%string; [|reflexivity].
  unfold patch_item. cbn. now rewrite Hnone.
Qed.

Lemma dense_patch_without_index (its : list ListItem) (itemId : string)
      (updates : ItemPatch) :
  ip_orderIndex updates = None ->
  dense its ->
  dense (map (fun item => if (item_id item =? itemId)%string
                          then patch_item item updates else item) its).
Proof.
  intros Hnone Hdense. unfold dense.
  now rewrite orderIndexes_patch_without_index, length_map.
Qed.

Lemma click_keeps_dense (c : ItemClick) (env : Env) (st : SharedList.State)
      (w : World) :
  is_removal c = false ->
  dense (SharedList.items st) ->
  dense (SharedList.items (state_of (click c env st w))).
Proof.
  intros Hc Hdense. unfold click, bind, render.
  destruct c as [|row|row]; [| |discriminate].
  - destruct (addItem_items env st w) as [Heq|(id & t & lid & Heq)];
      cbn zeta in Heq; rewrite Heq; [exact Hdense|].
    now apply dense_append.
  - destruct (nth_error (SharedList.items st) row) as [item|]; [|exact Hdense].
    unfold SharedList.toggleChecked.
    destruct (updateItem_items env st w (item_id item)
                (mkItemPatch None None
                   (Some (Js.not_number (Js.Number (item_isChecked item))))
                   None)) as [Heq|Heq];
      cbn zeta in Heq; rewrite Heq; [exact Hdense|].
    now apply dense_patch_without_index.
Qed.

(** C1, as stated, fails: removing the first of two items, with the
    right to edit and an obliging store, leaves one item whose order
    index is 1; nothing is renumbered. *)
Lemma removeItem_leaves_a_gap :
  dense (SharedList.items (groceries_view (Some bob) (Some editor)))
  /\ SharedList.removeItem "i1" calm (groceries_view (Some bob) (Some editor))
                           sample_world
     = (Ok tt,
        SharedList.set_items [eggs] (groceries_view (Some bob) (Some editor)),
        mkWorld (Store.mk [groceries; errands] [eggs] []
                          [bob_edits; carol_views]) [] 1 [])
  /\ orderIndexes [eggs] = [1]
  /\ ~ dense [eggs].
Proof.
  split; [|split; [reflexivity | split; [reflexivity|]]].
  - split.
    + cbn. repeat constructor; cbn; intuition discriminate.
    + intros z. cbn. lia.
  - intros [_ Hrange]. specialize (Hrange 1). cbn in Hrange.
    assert (0 <= 1 < 1) by (apply Hrange; now left). lia.
Qed.

(** C1, amended. From a dense list, every sequence of appends and
    check toggles keeps the order indexes exactly 0 .. n-1: [addItem]
    gives the new item the current count and a toggle changes no order
    index. [removeItem] does not renumber: it drops the items with the
    given id and every item that stays keeps its order index. *)
Theorem append_and_toggle_keep_order_dense :
  forall (env : Env) (st : SharedList.State) (w : World)
         (cs : list ItemClick) (itemId : string),
    dense (SharedList.items st) ->
    Forall (fun c => is_removal c = false) cs ->
    dense (SharedList.items (state_of (clicks cs env st w)))
    /\ (let st' := state_of (SharedList.removeItem itemId env st w) in
        SharedList.items st' = SharedList.items st
        \/ SharedList.items st'
           = filter (fun item => negb (item_id item =? itemId)%string)
                    (SharedList.items st))
    /\ (SharedList.canEdit st = true ->
        fault env (tick w) = false ->
        Store.has_id item_id itemId (Store.listItems (db w)) = true ->
        SharedList.items (state_of (SharedList.removeItem itemId env st w))
        = filter (fun item => negb (item_id item =? itemId)%string)
                 (SharedList.items st)).
Proof.
  intros env st w cs itemId Hdense Hcs. split; [|split].
  - unfold clicks.
    apply (for_of_invariant (fun s => dense (SharedList.items s))); [|exact Hdense].
    intros acc c env' v w' Hin Hv. apply click_keeps_dense; [|exact Hv].
    rewrite Forall_forall in Hcs. now apply Hcs.
  - apply removeItem_items.
  - intros Hedit Hfault Hid. now rewrite removeItem_success.
Qed.

Lemma append_and_toggle_keep_order_dense_witness :
  dense (SharedList.items (groceries_view (Some bob) (Some editor)))
  /\ Forall (fun c => is_removal c = false) [ClickAdd; ClickCheck 1; ClickAdd]
  /\ dense (SharedList.items
              (state_of (clicks [ClickAdd; ClickCheck 1; ClickAdd] calm
                                (groceries_view (Some bob) (Some editor))
                                sample_world)))
  /\ orderIndexes
       (SharedList.items
          (state_of (clicks [ClickAdd; ClickCheck 1; ClickAdd] calm
                            (groceries_view (Some bob) (Some editor))
                            sample_world)))
     = [0; 1; 2; 3].
Proof.
  assert (Hd : dense (SharedList.items (groceries_view (Some bob) (Some editor)))).
  { split.
    - cbn. repeat constructor; cbn; intuition discriminate.
    - intros z. cbn. lia. }
  assert (Hf : Forall (fun c => is_removal c = false)
                      [ClickAdd; ClickCheck 1; ClickAdd])
    by (repeat constructor).
  split; [exact Hd | split; [exact Hf | split; [|reflexivity]]].
  exact (proj1 (append_and_toggle_keep_order_dense calm
                  (groceries_view (Some bob) (Some editor)) sample_world
                  [ClickAdd; ClickCheck 1; ClickAdd] "i1" Hd Hf)).
Defined.

(** ** Denied actions *)

Lemma addItem_denied (env : Env) (st : SharedList.State) (w : World) :
  SharedList.canEdit st = false ->
  silently_ignored SharedList.addItem env st w.
Proof.
  intros H. unfold silently_ignored, SharedList.addItem, bind, render, ret.
  rewrite H. now destruct (SharedList.list_ st).
Qed.

Lemma updateItem_denied (env : Env) (st : SharedList.State) (w : World)
      (itemId : string) (updates : ItemPatch) :
  SharedList.canEdit st = false ->
  silently_ignored (SharedList.updateItem itemId updates) env st w.
Proof.
  intros H. unfold silently_ignored, SharedList.updateItem, bind, render, ret.
  now rewrite H.
Qed.

Lemma removeItem_denied (env : Env) (st : SharedList.State) (w : World)
      (itemId : string) :
  SharedList.canEdit st = false ->
  silently_ignored (SharedList.removeItem itemId) env st w.
Proof.
  intros H. unfold silently_ignored, SharedList.removeItem, bind, render, ret.
  now rewrite H.
Qed.

Lemma handleImagesChange_denied (env : Env) (st : SharedList.State) (w : World)
      (newImages : list UploadedImage) :
  SharedList.canEdit st = false ->
  silently_ignored (SharedList.handleImagesChange newImages) env st w.
Proof.
  intros H.
  unfold silently_ignored, SharedList.handleImagesChange, bind, render, ret.
  rewrite H. now destruct (SharedList.list_ st), (SharedList.user st).
Qed.

Lemma updateList_denied (env : Env) (st : SharedList.State) (w : World)
      (updates : ListPatch) :
  SharedList.canManageSettings st = false ->
  silently_ignored (SharedList.updateList updates) env st w.
Proof.
  intros H. unfold silently_ignored, SharedList.updateList, bind, render, ret.
  rewrite H. now destruct (SharedList.list_ st).
Qed.

(** C2, as stated, fails: a viewer's [removeItem] and an editor's
    [updateList] resolve normally and tell nobody anything; no error,
    of whatever kind, is raised or shown. *)
Lemma denied_calls_raise_nothing :
  SharedList.canEdit (groceries_view (Some carol) (Some viewer)) = false
  /\ ~ raised (SharedList.removeItem "i1" calm
                 (groceries_view (Some carol) (Some viewer)) sample_world)
  /\ ~ notified sample_world
       (SharedList.removeItem "i1" calm
          (groceries_view (Some carol) (Some viewer)) sample_world)
  /\ SharedList.canManageSettings (groceries_view (Some bob) (Some editor))
     = false
  /\ ~ raised (SharedList.updateList no_list_patch calm
                 (groceries_view (Some bob) (Some editor)) sample_world)
  /\ ~ notified sample_world
       (SharedList.updateList no_list_patch calm
          (groceries_view (Some bob) (Some editor)) sample_world).
Proof.
  unfold raised, notified. cbn.
  repeat split; try (intros H; exact H); intros H; now apply H.
Qed.

(** C2, amended. When the requester's role denies an action, the
    handler returns at its guard: it resolves normally, makes no store
    call, reports nothing, and leaves the items, the list and every
    other state cell as they were. *)
Theorem denied_action_is_silently_ignored :
  forall (env : Env) (st : SharedList.State) (w : World),
    (SharedList.canEdit st = false ->
     silently_ignored SharedList.addItem env st w
     /\ (forall itemId updates,
            silently_ignored (SharedList.updateItem itemId updates) env st w)
     /\ (forall itemId,
            silently_ignored (SharedList.removeItem itemId) env st w)
     /\ (forall newImages,
            silently_ignored (SharedList.handleImagesChange newImages)
                             env st w))
    /\ (SharedList.canManageSettings st = false ->
        forall updates,
          silently_ignored (SharedList.updateList updates) env st w).
Proof.
  intros env st w. split.
  - intros H. repeat split; intros.
    + now apply addItem_denied.
    + now apply updateItem_denied.
    + now apply removeItem_denied.
    + now apply handleImagesChange_denied.
  - intros H updates. now apply updateList_denied.
Qed.

Lemma denied_action_is_silently_ignored_witness :
  SharedList.canEdit (groceries_view (Some carol) (Some viewer)) = false
  /\ SharedList.canManageSettings (groceries_view (Some carol) (Some viewer))
     = false
  /\ SharedList.removeItem "i1" calm
       (groceries_view (Some carol) (Some viewer)) sample_world
     = (Ok tt, groceries_view (Some carol) (Some viewer), sample_world)
  /\ SharedList.updateList no_list_patch calm
       (groceries_view (Some carol) (Some viewer)) sample_world
     = (Ok tt, groceries_view (Some carol) (Some viewer), sample_world).
Proof.
  destruct (denied_action_is_silently_ignored calm
              (groceries_view (Some carol) (Some viewer)) sample_world)
    as [Hedit Hsettings].
  split; [reflexivity | split; [reflexivity | split]].
  - exact (proj1 (proj2 (proj2 (Hedit eq_refl))) "i1").
  - exact (Hsettings eq_refl no_list_patch).
Defined.

(** ** Resolving a share token *)

Lemma filter_nothing {A} (p : A -> bool) (xs : list A) :
  (forall x, In x xs -> p x = false) -> filter p xs = [].
Proof.
  induction xs as [|x xs IH]; intros H; cbn; [reflexivity|].
  rewrite (H x (or_introl eq_refl)). apply IH. intros y Hy. apply H. now right.
Qed.

Lemma filter_shared_twice (tok : string) (ls : list ListRecord) :
  filter (fun l => (list_shareToken l =? tok)%string
                   && Bool.eqb (list_isShared l) true)
         (filter list_isShared ls)
  = filter (fun l => (list_shareToken l =? tok)%string
                     && Bool.eqb (list_isShared l) true) ls.
Proof.
  induction ls as [|l ls IH]; cbn; [reflexivity|].
  destruct (list_isShared l) eqn:Hs; cbn; rewrite ?Hs, IH; [reflexivity|].
  now rewrite andb_false_r.
Qed.

Lemma loadSharedList_not_found (env : Env) (st : SharedList.State) (w : World)
      (tok : string) :
  tok <> EmptyString ->
  fault env (tick w) = false ->
  (forall l, In l (Store.lists (db w)) ->
             (list_shareToken l =? tok)%string
             && Bool.eqb (list_isShared l) true = false) ->
  SharedList.loadSharedList (Some tok) env st w = not_found_outcome st w.
Proof.
  intros Htok Hfault Hnone.
  unfold SharedList.loadSharedList, not_found_outcome. unfold_monad.
  destruct tok as [|c tok]; [congruence|]. cbn [or_else Js.truthy negb].
  rewrite Hfault. unfold Store.select. rewrite (filter_nothing _ _ Hnone).
  reflexivity.
Qed.

Lemma loadSharedList_sets_shared_list (env : Env) (st : SharedList.State)
      (w : World) (tok : option string) (l : ListRecord) :
  SharedList.list_ (state_of (SharedList.loadSharedList tok env st w)) = Some l ->
  SharedList.list_ st = Some l
  \/ (list_isShared l = true /\ tok = Some (list_shareToken l)
      /\ In l (Store.lists (db w))).
Proof.
  unfold SharedList.loadSharedList. unfold_monad.
  destruct tok as [[|c tok]|]; cbn [or_else Js.truthy negb];
    try (cbn; now left).
  destruct (fault env (tick w)); [cbn; now left|].
  unfold Store.select.
  destruct (filter _ (Store.lists (db w))) as [|first rest] eqn:Hsel;
    [cbn; now left|].
  assert (Hin : In first (filter
                  (fun l0 => (list_shareToken l0 =? String c tok)%string
                             && Bool.eqb (list_isShared l0) true)
                  (Store.lists (db w)))) by (rewrite Hsel; now left).
  apply filter_In in Hin. destruct Hin as [Hin Hp].
  apply andb_true_iff in Hp. destruct Hp as [Htok Hshared].
  apply String.eqb_eq in Htok. apply Bool.eqb_prop in Hshared.
  cbn [advance tick set_db db].
  repeat match goal with
         | |- context [fault env ?n] => destruct (fault env n)
         end; cbn; intros H; try (now left);
    injection H as <-; right; now rewrite Htok.
Qed.

Lemma loadSharedList_ignores_unshared (env : Env) (st : SharedList.State)
      (w : World) (tok : option string) :
  shown (SharedList.loadSharedList tok env st (hide_unshared w))
  = shown (SharedList.loadSharedList tok env st w).
Proof.
  unfold SharedList.loadSharedList, shown, hide_unshared. unfold_monad.
  destruct tok as [[|c tok]|]; cbn [or_else Js.truthy negb];
    try reflexivity.
  cbn [set_db tick db advance Store.set_lists Store.lists].
  destruct (fault env (tick w)); [reflexivity|].
  unfold Store.select. rewrite filter_shared_twice.
  destruct (filter _ (Store.lists (db w))) as [|first rest]; [reflexivity|].
  cbn [set_db tick db advance Store.set_lists Store.lists Store.listItems
       Store.listImages Store.listCollaborators].
  repeat (cbn [set_db tick db advance Store.set_lists Store.lists
               Store.listItems Store.listImages Store.listCollaborators
               blobs log record];
          match goal with
          | |- context [fault env ?n] => destruct (fault env n)
          end);
    reflexivity.
Qed.

(** C4. A list that is not shared cannot be resolved by its token:
    with a reachable store the outcome is the not-found notice and the
    way home; it is the very outcome of a token that no list carries;
    whatever list a run does put on the page is shared and carries the
    token asked for; and what a run shows does not depend on the lists
    that are not shared. *)
Theorem unshared_list_resolves_as_not_found :
  forall (env : Env) (st : SharedList.State) (w : World) (l : ListRecord)
         (tok : string),
    In l (Store.lists (db w)) ->
    list_isShared l = false ->
    list_shareToken l = tok ->
    tok <> EmptyString ->
    unique_tokens (Store.lists (db w)) ->
    (fault env (tick w) = false ->
     SharedList.loadSharedList (Some tok) env st w = not_found_outcome st w)
    /\ (forall tok',
           tok' <> EmptyString ->
           (forall l', In l' (Store.lists (db w)) -> list_shareToken l' <> tok') ->
           SharedList.loadSharedList (Some tok') env st w
           = SharedList.loadSharedList (Some tok) env st w)
    /\ (forall t l',
           SharedList.list_ (state_of (SharedList.loadSharedList t env st w))
           = Some l' ->
           SharedList.list_ st = Some l'
           \/ (list_isShared l' = true /\ t = Some (list_shareToken l')
               /\ In l' (Store.lists (db w))))
    /\ (forall t,
           shown (SharedList.loadSharedList t env st (hide_unshared w))
           = shown (SharedList.loadSharedList t env st w)).
Proof.
  intros env st w l tok Hin Hunshared Htok Hne Huniq.
  assert (Hnone : forall l', In l' (Store.lists (db w)) ->
                    (list_shareToken l' =? tok)%string
                    && Bool.eqb (list_isShared l') true = false).
  { intros l' Hl'. destruct (list_shareToken l' =? tok)%string eqn:He;
      [|reflexivity].
    apply String.eqb_eq in He.
    assert (l' = l) by (apply Huniq; congruence). subst l'.
    now rewrite Hunshared. }
  split; [|split; [|split]].
  - intros Hfault. now apply loadSharedList_not_found.
  - intros tok' Hne' Habsent.
    destruct (fault env (tick w)) eqn:Hfault.
    + unfold SharedList.loadSharedList. unfold_monad.
      destruct tok as [|c tok]; [congruence|].
      destruct tok' as [|c' tok']; [congruence|].
      cbn [or_else Js.truthy negb]. now rewrite Hfault.
    + rewrite !loadSharedList_not_found; try assumption; [reflexivity|].
      intros l' Hl'. destruct (list_shareToken l' =? tok')%string eqn:He;
        [|reflexivity].
      apply String.eqb_eq in He. now apply Habsent in Hl'.
  - intros t l'. apply loadSharedList_sets_shared_list.
  - intros t. apply loadSharedList_ignores_unshared.
Qed.

Lemma unshared_list_resolves_as_not_found_witness :
  In errands (Store.lists (db sample_world))
  /\ list_isShared errands = false
  /\ unique_tokens (Store.lists (db sample_world))
  /\ SharedList.loadSharedList (Some "tok2") calm SharedList.initial sample_world
     = not_found_outcome SharedList.initial sample_world
  /\ SharedList.loadSharedList (Some "no-such-token") calm SharedList.initial
                               sample_world
     = SharedList.loadSharedList (Some "tok2") calm SharedList.initial
                                 sample_world.
Proof.
  assert (Hin : In errands (Store.lists (db sample_world)))
    by (right; left; reflexivity).
  assert (Huniq : unique_tokens (Store.lists (db sample_world))).
  { intros a b [<-|[<-|[]]] [<-|[<-|[]]] H;
      first [reflexivity | discriminate H]. }
  assert (Hne : "tok2" <> EmptyString) by discriminate.
  destruct (unshared_list_resolves_as_not_found calm SharedList.initial
              sample_world errands "tok2" Hin eq_refl eq_refl Hne Huniq)
    as (Hnotfound & Hsame & _).
  split; [exact Hin | split; [reflexivity | split; [exact Huniq | split]]].
  - exact (Hnotfound eq_refl).
  - apply Hsame; [discriminate|].
    intros l' [<-|[<-|[]]]; discriminate.
Defined.

(** ** Role resolution on the shared route *)

Lemma loadSharedList_role (env : Env) (st : SharedList.State) (w : World)
      (tok : string) (l : ListRecord) (rest : list ListRecord) :
  tok <> EmptyString ->
  no_faults env ->
  Store.select (fun x => (list_shareToken x =? tok)%string
                         && Bool.eqb (list_isShared x) true)
               None (Store.lists (db w)) = l :: rest ->
  let st' := state_of (SharedList.loadSharedList (Some tok) env st w) in
  SharedList.list_ st' = Some l
  /\ SharedList.userRole st'
     = SharedList.determineRole
         (SharedList.user st) l
         (filter (fun c => (col_listId c =? list_id l)%string)
                 (Store.listCollaborators (db w))).
Proof.
  intros Htok Hcalm Hsel. unfold SharedList.loadSharedList. unfold_monad.
  destruct tok as [|c tok]; [congruence|]. cbn [or_else Js.truthy negb].
  rewrite Hcalm, Hsel. cbn [set_db tick db advance]. rewrite !Hcalm.
  cbn. split; reflexivity.
Qed.

(** C3, as stated, fails. Opening the share link of a list that is not
    shared resolves no role, for its owner as for anyone, where the
    algorithm of the specification says owner; and the role block on
    its own, which does not look at [isShared], says viewer for a
    stranger where the algorithm says none. *)
Lemma unshared_list_resolves_no_owner :
  list_isShared errands = false
  /\ In errands (Store.lists (db sample_world))
  /\ SharedList.userRole
       (state_of (SharedList.loadSharedList
                    (Some (list_shareToken errands)) calm
                    (SharedList.mkState (Some alice) None [] [] [] None true
                                        false)
                    sample_world)) = None
  /\ RoleResolver_spec (Some (user_id alice)) errands [] = Some owner
  /\ SharedList.determineRole None errands [] = Some viewer
  /\ RoleResolver_spec None errands [] = None.
Proof.
  split; [reflexivity | split; [right; now left | repeat split]].
Qed.

Lemma loadSharedList_writes_role (env : Env) (st : SharedList.State)
      (w : World) (link : option string) :
  let st' := state_of (SharedList.loadSharedList link env st w) in
  (SharedList.userRole st' = SharedList.userRole st
   /\ SharedList.list_ st' = SharedList.list_ st)
  \/ exists tok found others,
      link = Some tok
      /\ Store.select (fun x => (list_shareToken x =? tok)%string
                                && Bool.eqb (list_isShared x) true)
                      None (Store.lists (db w)) = found :: others
      /\ SharedList.list_ st' = Some found
      /\ SharedList.userRole st'
         = SharedList.determineRole
             (SharedList.user st) found
             (filter (fun c => (col_listId c =? list_id found)%string)
                     (Store.listCollaborators (db w))).
Proof.
  cbv zeta. unfold SharedList.loadSharedList. unfold_monad.
  destruct link as [[|c tok]|]; cbn [or_else Js.truthy negb];
    try (cbn; now left).
  destruct (fault env (tick w)); [cbn; now left|].
  destruct (Store.select _ None (Store.lists (db w))) as [|first rest] eqn:Hsel;
    [cbn; now left|].
  cbn [advance tick set_db db].
  repeat match goal with
         | |- context [fault env ?n] => destruct (fault env n)
         end; cbn; try (now left).
  right. exists (String c tok), first, rest.
  split; [reflexivity | split; [exact Hsel | split; reflexivity]].
Qed.

Lemma selected_is_shared (tok : string) (ls : list ListRecord)
      (found : ListRecord) (others : list ListRecord) :
  Store.select (fun x => (list_shareToken x =? tok)%string
                         && Bool.eqb (list_isShared x) true)
               None ls = found :: others ->
  In found ls /\ list_shareToken found = tok /\ list_isShared found = true.
Proof.
  unfold Store.select. intros Hsel.
  assert (Hin : In found (filter
                  (fun x => (list_shareToken x =? tok)%string
                            && Bool.eqb (list_isShared x) true) ls))
    by (rewrite Hsel; now left).
  apply filter_In in Hin. destruct Hin as [Hin Hp].
  apply andb_true_iff in Hp. destruct Hp as [Htok Hshared].
  apply String.eqb_eq in Htok. apply Bool.eqb_prop in Hshared.
  now repeat split.
Qed.

(** C3, amended. The role on the page is written only by a load that
    finds, by the token and with [isShared] true, a list in the store:
    after any load, role and list on the page are what they were
    before, or they are those of such a list. For every list with
    [isShared] true the role block follows the algorithm: owner for the
    list's owner, else the role of the requester's collaborator record,
    else viewer, anonymous requesters included; it never yields none;
    and with a reachable store the role the page ends up with is that
    role, computed over the collaborator records of the list. A list
    with [isShared] false is not resolved: share tokens being unique,
    whatever the store does and whoever asks, loading its link leaves
    role and list on the page as they were, so a freshly opened page
    has no role; a role the page already holds is not cleared. *)
Theorem determineRole_follows_resolver_on_shared_lists :
  forall (u : option User) (l : ListRecord) (cs : list Collaborator)
         (env : Env) (st : SharedList.State) (w : World) (tok : string)
         (rest : list ListRecord),
    (list_isShared l = true ->
     SharedList.determineRole u l cs
     = RoleResolver_spec (option_map user_id u) l cs
     /\ SharedList.determineRole u l cs <> None
     /\ (tok <> EmptyString ->
         no_faults env ->
         Store.select (fun x => (list_shareToken x =? tok)%string
                                && Bool.eqb (list_isShared x) true)
                      None (Store.lists (db w)) = l :: rest ->
         SharedList.userRole
           (state_of (SharedList.loadSharedList (Some tok) env st w))
         = RoleResolver_spec
             (option_map user_id (SharedList.user st)) l
             (filter (fun c => (col_listId c =? list_id l)%string)
                     (Store.listCollaborators (db w)))))
    /\ (forall link,
           let st' := state_of (SharedList.loadSharedList link env st w) in
           (SharedList.userRole st' = SharedList.userRole st
            /\ SharedList.list_ st' = SharedList.list_ st)
           \/ exists found,
               In found (Store.lists (db w))
               /\ list_isShared found = true
               /\ link = Some (list_shareToken found)
               /\ SharedList.list_ st' = Some found
               /\ SharedList.userRole st'
                  = SharedList.determineRole
                      (SharedList.user st) found
                      (filter (fun c => (col_listId c =? list_id found)%string)
                              (Store.listCollaborators (db w))))
    /\ (list_isShared l = false ->
        In l (Store.lists (db w)) ->
        unique_tokens (Store.lists (db w)) ->
        (let st' := state_of (SharedList.loadSharedList
                                (Some (list_shareToken l)) env st w) in
         SharedList.userRole st' = SharedList.userRole st
         /\ SharedList.list_ st' = SharedList.list_ st)
        /\ forall requester,
            let fresh_page :=
              SharedList.mkState requester None [] [] [] None true false in
            let st' := state_of (SharedList.loadSharedList
                                   (Some (list_shareToken l)) env fresh_page
                                   w) in
            SharedList.userRole st' = None /\ SharedList.list_ st' = None).
Proof.
  intros u l cs env st w tok rest.
  assert (Hblock : list_isShared l = true ->
                   forall u' cs',
                     SharedList.determineRole u' l cs'
                     = RoleResolver_spec (option_map user_id u') l cs').
  { intros Hshared u' cs'.
    unfold SharedList.determineRole, RoleResolver_spec, Js.find.
    rewrite Hshared. destruct u' as [u'|]; cbn [option_map]; [|reflexivity].
    rewrite (String.eqb_sym (user_id u') (list_userId l)).
    destruct (list_userId l =? user_id u')%string; [reflexivity|].
    now destruct (find _ cs'). }
  assert (Hunshared : list_isShared l = false ->
                      In l (Store.lists (db w)) ->
                      unique_tokens (Store.lists (db w)) ->
                      forall page,
                        SharedList.userRole
                          (state_of (SharedList.loadSharedList
                                       (Some (list_shareToken l)) env page w))
                        = SharedList.userRole page
                        /\ SharedList.list_
                             (state_of (SharedList.loadSharedList
                                          (Some (list_shareToken l)) env page
                                          w))
                           = SharedList.list_ page).
  { intros Hno Hin Huniq page.
    destruct (loadSharedList_writes_role env page w
                (Some (list_shareToken l)))
      as [Hsame | (tok' & found & others & Hlink & Hsel & _)];
      [exact Hsame|].
    exfalso. injection Hlink as <-.
    apply selected_is_shared in Hsel.
    destruct Hsel as (Hfound & Htok & Hshared).
    assert (found = l) by now apply Huniq.
    subst found. congruence. }
  split; [|split].
  - intros Hshared.
    split; [now apply Hblock | split; [apply determineRole_never_none|]].
    intros Htok Hcalm Hsel.
    destruct (loadSharedList_role env st w tok l rest Htok Hcalm Hsel)
      as [_ Hrole].
    rewrite Hrole. now apply Hblock.
  - intros link. cbv zeta.
    destruct (loadSharedList_writes_role env st w link)
      as [Hsame | (tok' & found & others & Hlink & Hsel & Hlist & Hrole)];
      [now left|].
    right. exists found.
    destruct (selected_is_shared tok' _ found others Hsel)
      as (Hin & Htok & Hshared).
    split; [exact Hin | split; [exact Hshared | split]].
    + now rewrite Htok.
    + split; assumption.
  - intros Hno Hin Huniq. split.
    + apply (Hunshared Hno Hin Huniq st).
    + intros requester. cbv zeta.
      apply (Hunshared Hno Hin Huniq
               (SharedList.mkState requester None [] [] [] None true false)).
Qed.

Lemma determineRole_follows_resolver_on_shared_lists_witness :
  list_isShared groceries = true
  /\ SharedList.determineRole (Some bob) groceries [bob_edits; carol_views]
     = Some editor
  /\ RoleResolver_spec (Some "u2") groceries [bob_edits; carol_views]
     = Some editor
  /\ SharedList.userRole
       (state_of (SharedList.loadSharedList
                    (Some "tok1") calm
                    (SharedList.mkState (Some bob) None [] [] [] None true false)
                    sample_world))
     = RoleResolver_spec (Some "u2") groceries [bob_edits; carol_views]
  /\ list_isShared errands = false
  /\ In errands (Store.lists (db sample_world))
  /\ unique_tokens (Store.lists (db sample_world))
  /\ SharedList.userRole
       (state_of (SharedList.loadSharedList
                    (Some "tok2") calm
                    (groceries_view (Some bob) (Some editor)) sample_world))
     = Some editor
  /\ SharedList.userRole
       (state_of (SharedList.loadSharedList
                    (Some "tok2") calm
                    (SharedList.mkState (Some alice) None [] [] [] None true
                                        false)
                    sample_world))
     = None.
Proof.
  assert (Hin : In errands (Store.lists (db sample_world)))
    by (right; left; reflexivity).
  assert (Huniq : unique_tokens (Store.lists (db sample_world))).
  { intros a b [<-|[<-|[]]] [<-|[<-|[]]] H;
      first [reflexivity | discriminate H]. }
  split; [reflexivity | split; [reflexivity | split; [reflexivity|]]].
  split.
  { refine (proj2 (proj2 (proj1
              (determineRole_follows_resolver_on_shared_lists
                 (Some bob) groceries [bob_edits; carol_views] calm
                 (SharedList.mkState (Some bob) None [] [] [] None true false)
                 sample_world "tok1" []) eq_refl)) _ _ eq_refl).
    - discriminate.
    - intros n. reflexivity. }
  split; [reflexivity | split; [exact Hin | split; [exact Huniq|]]].
  split.
  - exact (proj1 (proj1 (proj2 (proj2
             (determineRole_follows_resolver_on_shared_lists
                None errands [] calm
                (groceries_view (Some bob) (Some editor))
                sample_world EmptyString [])) eq_refl Hin Huniq))).
  - exact (proj1 (proj2 (proj2 (proj2
             (determineRole_follows_resolver_on_shared_lists
                None errands [] calm
                (groceries_view (Some bob) (Some editor))
                sample_world EmptyString [])) eq_refl Hin Huniq)
             (Some alice))).
Defined.

(** ** The attachment quota *)

Lemma reduce_sum_fold_right {A} (size : A -> Z) (xs : list A) :
  Js.reduce_sum size xs = fold_right Z.add 0 (map size xs).
Proof.
  unfold Js.reduce_sum.
  assert (H : forall acc, fold_left (fun total x => total + size x) xs acc
                          = acc + fold_right Z.add 0 (map size xs)).
  { induction xs as [|x xs IH]; intros acc; cbn; [lia|]. rewrite IH. lia. }
  rewrite H. lia.
Qed.

Section QuotaGate.
Variable P : Type.
Variable own : P -> ImageUpload.State.
Variable set_own : ImageUpload.State -> P -> P.
Variable onImagesChange : list UploadedImage -> M P unit.
Variable formatFileSize : Z -> string.

(** How the handler goes, by the two limits. *)
Lemma handleFileSelect_cases (images : list UploadedImage)
      (maxImages maxTotalSize : Z) (files : list File) (env : Env) (p : P)
      (w : World) :
  let run := ImageUpload.handleFileSelect own set_own images onImagesChange
               maxImages maxTotalSize formatFileSize files env p w in
  (files = [] /\ run = (Ok tt, p, w))
  \/ (files <> [] /\ ~ within_count images files maxImages
      /\ run = (Ok tt, p, record w (ImageUpload.countAlert maxImages)))
  \/ (files <> [] /\ within_count images files maxImages
      /\ ~ within_size images files maxTotalSize
      /\ run = (Ok tt, p,
                record w (ImageUpload.sizeAlert maxTotalSize formatFileSize)))
  \/ (files <> [] /\ within_count images files maxImages
      /\ within_size images files maxTotalSize
      /\ run = ImageUpload.uploadAll own set_own images onImagesChange files
                                     env p w).
Proof.
  unfold ImageUpload.handleFileSelect, within_count, within_size, total_bytes,
    ImageUpload.getTotalSize.
  rewrite !reduce_sum_fold_right.
  destruct files as [|f files]; [left; now split|right].
  cbn [length Nat.eqb].
  match goal with
  | |- context [?a >? maxImages] =>
      destruct (Z.gtb_spec a maxImages) as [Hcount|Hcount]
  end.
  - left. split; [discriminate | split; [cbn [length]; lia | reflexivity]].
  - right.
    match goal with
    | |- context [?a >? maxTotalSize] =>
        destruct (Z.gtb_spec a maxTotalSize) as [Hsize|Hsize]
    end.
    + left. split; [discriminate|].
      split; [cbn [length]; lia | split; [lia | reflexivity]].
    + right. split; [discriminate|].
      split; [cbn [length]; lia | split; [lia | reflexivity]].
Qed.

(** C5. A batch is taken up only when the count and the total size
    stay within the limits; both are checked before anything is
    uploaded or stored; a batch over a limit is turned down whole, with
    nothing applied, and with an alert that names the limit. *)
Theorem quota_checked_before_any_upload :
  forall (images : list UploadedImage) (maxImages maxTotalSize : Z)
         (files : list File) (env : Env) (p : P) (w : World),
    let run := ImageUpload.handleFileSelect own set_own images onImagesChange
                 maxImages maxTotalSize formatFileSize files env p w in
    (~ within_count images files maxImages
     \/ ~ within_size images files maxTotalSize ->
     result_of run = Ok tt /\ applied_nothing p w run)
    /\ (files <> [] -> ~ within_count images files maxImages ->
        run = (Ok tt, p, record w (ImageUpload.countAlert maxImages)))
    /\ (files <> [] -> within_count images files maxImages ->
        ~ within_size images files maxTotalSize ->
        run = (Ok tt, p,
               record w (ImageUpload.sizeAlert maxTotalSize formatFileSize)))
    /\ (~ applied_nothing p w run ->
        within_count images files maxImages
        /\ within_size images files maxTotalSize).
Proof.
  intros images maxImages maxTotalSize files env p w run.
  destruct (handleFileSelect_cases images maxImages maxTotalSize files env p w)
    as [(Hnil & Hrun) | [(Hne & Hc & Hrun) | [(Hne & Hc & Hs & Hrun)
                                             | (Hne & Hc & Hs & Hrun)]]];
    fold run in Hrun;
    try assert (Hno : result_of run = Ok tt /\ applied_nothing p w run)
      by (rewrite Hrun; unfold applied_nothing; cbn; repeat split; reflexivity).
  - split; [intros _; exact Hno|].
    split; [intros H; congruence|].
    split; [intros H; congruence|].
    intros H. exfalso. apply H, Hno.
  - split; [intros _; exact Hno|].
    split; [intros _ _; exact Hrun|].
    split; [intros _ H; contradiction|].
    intros H. exfalso. apply H, Hno.
  - split; [intros _; exact Hno|].
    split; [intros _ H; contradiction|].
    split; [intros _ _ _; exact Hrun|].
    intros H. exfalso. apply H, Hno.
  - split; [intros [H|H]; contradiction|].
    split; [intros _ H; contradiction|].
    split; [intros _ _ H; contradiction|].
    intros _. split; assumption.
Qed.

End QuotaGate.

(** The scenario of the specification: four images attached, an editor
    offers a fifth; the count alert is raised and nothing changes. *)
Lemma quota_checked_before_any_upload_witness :
  [one_more] <> []
  /\ ~ within_count (SharedList.images (fst full_page)) [one_more] 4
  /\ SharedListPage.handleFileSelect plain_bytes [one_more] calm full_page
                                     sample_world
     = (Ok tt, full_page,
        record sample_world (Alert "Maximum 4 images allowed")).
Proof.
  assert (Hne : [one_more] <> []) by discriminate.
  assert (Hover : ~ within_count (SharedList.images (fst full_page))
                                 [one_more] 4)
    by (unfold within_count; cbn; lia).
  split; [exact Hne | split; [exact Hover|]].
  destruct (quota_checked_before_any_upload
              SharedListPage.State SharedListPage.own SharedListPage.set_own
              (SharedListPage.onImagesChange (fst full_page)) plain_bytes
              (SharedList.images (fst full_page)) 4 (1024 * 1024 * 1024)
              [one_more] calm full_page sample_world) as (_ & Hcount & _).
  exact (Hcount Hne Hover).
Defined.

(** A batch within both limits is taken up: the file is uploaded, its
    row is stored and the page shows it. *)
Lemma accepted_batch_is_applied :
  let page := (groceries_view (Some bob) (Some editor), ImageUpload.initial) in
  let run := SharedListPage.handleFileSelect plain_bytes [one_more] calm page
                                             sample_world in
  result_of run = Ok tt
  /\ map img_filename (SharedList.images (fst (state_of run))) = ["e.png"]
  /\ map fst (blobs (world_of run))
     = ["list-images/img_1700000000000_abc123xyz_e.png"]
  /\ map (fun r => img_filename (ir_image r))
         (Store.listImages (db (world_of run))) = ["e.png"]
  /\ log (world_of run) = [ResetFileInput].
Proof. vm_compute. repeat split. Qed.

(** ** Invitations *)

Lemma find_hits {A} (p : A -> bool) (xs : list A) (x : A) :
  In x xs -> p x = true -> exists y, find p xs = Some y /\ p y = true.
Proof.
  intros Hin Hp. destruct (find p xs) as [y|] eqn:Hfind.
  - exists y. split; [reflexivity|]. now apply find_some in Hfind.
  - now rewrite (find_none _ _ Hfind x Hin) in Hp.
Qed.

(** C9. An invitation that goes through stores a record with status
    pending whose [userId] is the id of the inviting user, not of the
    person invited; looking the list's collaborators up by the
    inviter's id therefore finds a record. *)
Theorem invitation_is_pending_under_inviter_id :
  forall (listId : string) (currentUser : User) (trim : string -> string)
         (env : Env) (st : CollaborationPanel.State) (w : World),
    Js.truthy (trim (CollaborationPanel.inviteEmail st)) = true ->
    Js.find (fun c => (col_userEmail c =? CollaborationPanel.inviteEmail st)%string)
            (CollaborationPanel.collaborators st) = None ->
    fault env (S (S (tick w))) = false ->
    Store.has_id col_id ("collab_" ++ fresh env (tick w))
                 (Store.listCollaborators (db w)) = false ->
    let r := CollaborationPanel.invitation listId currentUser st
               ("collab_" ++ fresh env (tick w)) (clock env (S (tick w))) in
    let w' := world_of (CollaborationPanel.inviteCollaborator
                          listId currentUser trim env st w) in
    Store.listCollaborators (db w')
    = (Store.listCollaborators (db w) ++ [r])%list
    /\ col_status r = pending
    /\ col_userId r = user_id currentUser
    /\ col_invitedBy r = user_id currentUser
    /\ col_userEmail r = CollaborationPanel.inviteEmail st
    /\ col_listId r = listId
    /\ col_role r = CollaborationPanel.role_of (CollaborationPanel.inviteRole st)
    /\ exists c,
        Js.find (fun c => (col_userId c =? user_id currentUser)%string)
                (filter (fun c => (col_listId c =? listId)%string)
                        (Store.listCollaborators (db w'))) = Some c
        /\ col_userId c = user_id currentUser.
Proof.
  intros listId currentUser trim env st w Hemail Hnew Hfault Hfresh r w'.
  assert (Hdb : Store.listCollaborators (db w')
                = (Store.listCollaborators (db w) ++ [r])%list).
  { subst w' r. unfold CollaborationPanel.inviteCollaborator,
      CollaborationPanel.loadCollaborators. unfold_monad.
    rewrite Hemail. cbn [negb]. rewrite Hnew.
    cbn [advance tick db set_db]. rewrite Hfault.
    unfold Store.create. cbn [col_id CollaborationPanel.invitation].
    rewrite Hfresh.
    cbn [advance tick db set_db Store.set_listCollaborators
         Store.listCollaborators].
    destruct (fault env (S (S (S (tick w))))); reflexivity. }
  split; [exact Hdb|]. repeat (split; [reflexivity|]).
  rewrite Hdb. unfold Js.find.
  destruct (find_hits (fun c => (col_userId c =? user_id currentUser)%string)
              (filter (fun c => (col_listId c =? listId)%string)
                      (Store.listCollaborators (db w) ++ [r])) r)
    as (c & Hfind & Hc).
  - apply filter_In. split; [apply in_or_app; right; now left|].
    subst r. cbn. apply String.eqb_refl.
  - subst r. cbn. apply String.eqb_refl.
  - exists c. split; [exact Hfind | now apply String.eqb_eq].
Qed.

Lemma invitation_is_pending_under_inviter_id_witness :
  let w' := world_of (CollaborationPanel.inviteCollaborator
                        "l1" alice ascii_trim calm inviting_dave sample_world) in
  Js.truthy (ascii_trim (CollaborationPanel.inviteEmail inviting_dave)) = true
  /\ map (fun c => (col_userEmail c, col_userId c, col_status c))
         (Store.listCollaborators (db w'))
     = [("bob@example.org", "u2", accepted);
        ("carol@example.org", "u3", accepted);
        ("dave@example.org", "u1", pending)]
  /\ Store.listCollaborators (db w')
     = (Store.listCollaborators (db sample_world)
          ++ [CollaborationPanel.invitation "l1" alice inviting_dave
                ("collab_" ++ fresh calm (tick sample_world))
                (clock calm (S (tick sample_world)))])%list.
Proof.
  split; [reflexivity | split; [reflexivity|]].
  exact (proj1 (invitation_is_pending_under_inviter_id
                  "l1" alice ascii_trim calm inviting_dave sample_world
                  eq_refl eq_refl eq_refl eq_refl)).
Defined.

(** ** The permission gate *)






Lemma initial_coherent : coherent SharedList.initial.
Proof. unfold coherent. cbn. tauto. Qed.

Lemma loadSharedList_coherent (tok : option string) (env : Env)
      (st : SharedList.State) (w : World) :
  coherent st ->
  coherent (state_of (SharedList.loadSharedList tok env st w)).
Proof.
  intros Hst. unfold SharedList.loadSharedList. unfold_monad.
  destruct (negb (Js.truthy (or_else tok EmptyString))); [exact Hst|].
  destruct (fault env (tick w)); [exact Hst|].
  destruct (Store.select _ None (Store.lists (db w))) as [|first rest];
    [exact Hst|].
  repeat (cbn [set_db tick db advance];
          match goal with
          | |- context [fault env ?n] => destruct (fault env n)
          end); try exact Hst.
  unfold coherent. cbn. split; [|discriminate].
  intros H. now apply determineRole_never_none in H.
Qed.




Lemma handleImagesChange_passes (env : Env) (st : SharedList.State) (w : World)
      (newImages : list UploadedImage) (l : ListRecord) (u : User) :
  SharedList.list_ st = Some l ->
  SharedList.user st = Some u ->
  SharedList.canEdit st = true ->
  SharedList.handleImagesChange newImages env st w
  = SharedList.handleImagesChange_try st l u newImages env st w.
Proof.
  intros Hl Hu Hedit. unfold SharedList.handleImagesChange, bind, render.
  now rewrite Hl, Hu, Hedit.
Qed.


(** The editor only ever loads a list of the signed-in user. *)
Lemma loadList_loads_own_list (listId : option string) (env : Env)
      (st : ListEditor.State) (w : World) (l : ListRecord) :
  ListEditor.list_ (state_of (ListEditor.loadList listId env st w)) = Some l ->
  ListEditor.list_ st = Some l
  \/ exists u, ListEditor.user st = Some u /\ ListEditor.isOwner l u = true.
Proof.
  unfold ListEditor.loadList. unfold_monad.
  destruct (ListEditor.user st) as [u|] eqn:Hu; [|cbn; now left].
  destruct (negb (Js.truthy (or_else listId EmptyString))); [cbn; now left|].
  destruct (fault env (tick w)); [cbn; now left|].
  unfold Store.select.
  destruct (filter _ (Store.lists (db w))) as [|first rest] eqn:Hsel;
    [cbn; now left|].
  assert (Hin : In first (first :: rest)) by now left.
  rewrite <- Hsel in Hin. apply filter_In in Hin. destruct Hin as [_ Hp].
  apply andb_true_iff in Hp. destruct Hp as [_ Howner].
  repeat (cbn [set_db tick db advance];
          match goal with
          | |- context [fault env ?n] => destruct (fault env n)
          end); cbn; intros H; try (now left).
  injection H as <-. right. now exists u.
Qed.














(** The scenario of the specification: an editor toggles an item; the
    call succeeds, the check state flips and the order indexes stay. *)
Lemma editor_toggles_item :
  let run := SharedList.toggleChecked eggs calm
               (groceries_view (Some bob) (Some editor)) sample_world in
  result_of run = Ok tt
  /\ map item_isChecked (SharedList.items (state_of run)) = [true; true]
  /\ orderIndexes (SharedList.items (state_of run)) = [0; 1]
  /\ map item_isChecked (Store.listItems (db (world_of run))) = [true; true]
  /\ log (world_of run) = [].
Proof. vm_compute. repeat split. Qed.

(** ** Further facts about the gates *)

(** While the upload control is offered, an empty selection is within
    both limits. *)
Lemma empty_selection_within_limits (images : list UploadedImage)
      (maxImages maxTotalSize : Z) (readOnly : bool) :
  ImageUpload.canAddMore images maxImages maxTotalSize readOnly = true ->
  within_count images [] maxImages /\ within_size images [] maxTotalSize.
Proof.
  unfold ImageUpload.canAddMore, within_count, within_size, total_bytes,
    ImageUpload.getTotalSize.
  rewrite reduce_sum_fold_right. intros H.
  apply andb_true_iff in H. destruct H as [H Hsize].
  apply andb_true_iff in H. destruct H as [_ Hcount].
  apply Z.ltb_lt in Hsize, Hcount. cbn. lia.
Qed.

(** Deleting from the dashboard keeps it to the user's own lists. *)
Lemma deleteList_owned_only (u : User) (listId : string) (env : Env)
      (st : Dashboard.State) (w : World) :
  owned_only u st ->
  owned_only u (state_of (Dashboard.deleteList listId env st w)).
Proof.
  intros Howned. unfold Dashboard.deleteList. unfold_monad.
  destruct (fault env (tick w)); [exact Howned|].
  destruct (Store.delete _ _ _); [|exact Howned].
  cbn. intros x Hx. apply filter_In in Hx. now apply Howned.
Qed.

(* ================================================================== *)
(** * Further properties of the views *)
(* ================================================================== *)

(** ** Failures of the store in the item handlers *)

(** X1. When the store call of an item handler rejects, the handler
    catches it: it resolves, the page state is as before, the store is
    untouched, and the console and the user are told which action
    failed. *)
Theorem rejected_item_call_is_reported :
  forall (env : Env) (st : SharedList.State) (w : World),
    SharedList.canEdit st = true ->
    (forall itemId,
        fault env (tick w) = true ->
        SharedList.removeItem itemId env st w
        = (Ok tt, st,
           reported (advance w) "Failed to remove item:" StoreUnavailable
                    "Failed to remove item"))
    /\ (forall itemId updates,
           fault env (tick w) = true ->
           SharedList.updateItem itemId updates env st w
           = (Ok tt, st,
              reported (advance w) "Failed to update item:" StoreUnavailable
                       "Failed to update item"))
    /\ (SharedList.list_ st <> None ->
        fault env (S (S (tick w))) = true ->
        SharedList.addItem env st w
        = (Ok tt, st,
           reported (advance (advance (advance w))) "Failed to add item:"
                    StoreUnavailable "Failed to add item"))
    /\ (forall itemId,
           fault env (tick w) = false ->
           Store.has_id item_id itemId (Store.listItems (db w)) = false ->
           SharedList.removeItem itemId env st w
           = (Ok tt, st,
              reported (advance w) "Failed to remove item:"
                       (StoreRejected "listItems" itemId)
                       "Failed to remove item")).
Proof.
  intros env st w Hedit. repeat split.
  - intros itemId Hfault.
    unfold SharedList.removeItem, SharedList.removeItem_try. unfold_monad.
    rewrite Hedit. cbn. now rewrite Hfault.
  - intros itemId updates Hfault.
    unfold SharedList.updateItem, SharedList.updateItem_try. unfold_monad.
    rewrite Hedit. cbn. now rewrite Hfault.
  - intros Hlist Hfault.
    unfold SharedList.addItem, SharedList.addItem_try. unfold_monad.
    destruct (SharedList.list_ st) as [l|]; [|congruence].
    rewrite Hedit. cbn. now rewrite Hfault.
  - intros itemId Hfault Hid.
    unfold SharedList.removeItem, SharedList.removeItem_try. unfold_monad.
    rewrite Hedit. cbn. rewrite Hfault. unfold Store.delete. now rewrite Hid.
Qed.

Lemma rejected_item_call_is_reported_witness :
  SharedList.canEdit (groceries_view (Some bob) (Some editor)) = true
  /\ SharedList.removeItem "i1" stormy (groceries_view (Some bob) (Some editor))
                           sample_world
     = (Ok tt, groceries_view (Some bob) (Some editor),
        mkWorld sample_store [] 1
                [ConsoleError "Failed to remove item:" StoreUnavailable;
                 Toast "Error" "Failed to remove item" true])
  /\ SharedList.removeItem "no-such-item" calm
                           (groceries_view (Some bob) (Some editor))
                           sample_world
     = (Ok tt, groceries_view (Some bob) (Some editor),
        mkWorld sample_store [] 1
                [ConsoleError "Failed to remove item:"
                              (StoreRejected "listItems" "no-such-item");
                 Toast "Error" "Failed to remove item" true]).
Proof.
  destruct (rejected_item_call_is_reported stormy
              (groceries_view (Some bob) (Some editor)) sample_world eq_refl)
    as (Hremove & _).
  destruct (rejected_item_call_is_reported calm
              (groceries_view (Some bob) (Some editor)) sample_world eq_refl)
    as (_ & _ & _ & Hunknown).
  split; [reflexivity | split].
  - exact (Hremove "i1" eq_refl).
  - exact (Hunknown "no-such-item" eq_refl eq_refl).
Defined.

(** ** The page and the store in step *)

Lemma permutation_filter {A} (p : A -> bool) (xs ys : list A) :
  Permutation xs ys -> Permutation (filter p xs) (filter p ys).
Proof.
  induction 1 as [|x xs ys _ IH|x y xs|xs ys zs _ IH1 _ IH2]; cbn.
  - constructor.
  - destruct (p x); [now constructor | exact IH].
  - destruct (p x), (p y); try reflexivity. apply perm_swap.
  - now transitivity (filter p ys).
Qed.

Lemma filter_map_commute {A} (p : A -> bool) (f : A -> A) (xs : list A) :
  (forall x, p (f x) = p x) ->
  filter p (map f xs) = map f (filter p xs).
Proof.
  intros Hp. induction xs as [|x xs IH]; cbn; [reflexivity|].
  rewrite Hp. destruct (p x); cbn; now rewrite IH.
Qed.

Lemma filter_filter_commute {A} (p q : A -> bool) (xs : list A) :
  filter p (filter q xs) = filter q (filter p xs).
Proof.
  induction xs as [|x xs IH]; cbn; [reflexivity|].
  destruct (p x) eqn:Hp, (q x) eqn:Hq; cbn; rewrite ?Hp, ?Hq, IH; reflexivity.
Qed.

Lemma updateItem_in_step (env : Env) (st : SharedList.State) (w : World)
      (l : ListRecord) (itemId : string) (updates : ItemPatch) :
  in_step l st w ->
  in_step l (state_of (SharedList.updateItem itemId updates env st w))
            (world_of (SharedList.updateItem itemId updates env st w)).
Proof.
  intros Hstep.
  unfold SharedList.updateItem, SharedList.updateItem_try. unfold_monad.
  destruct (SharedList.canEdit st); cbn; [|exact Hstep].
  destruct (fault env (tick w)); cbn; [exact Hstep|].
  unfold Store.update.
  destruct (Store.has_id item_id itemId (Store.listItems (db w))); cbn;
    [|exact Hstep].
  unfold in_step, rows_of in *. cbn.
  rewrite filter_map_commute.
  - now apply Permutation_map.
  - intros x. now destruct (item_id x =? itemId)%string.
Qed.

Lemma removeItem_in_step (env : Env) (st : SharedList.State) (w : World)
      (l : ListRecord) (itemId : string) :
  in_step l st w ->
  in_step l (state_of (SharedList.removeItem itemId env st w))
            (world_of (SharedList.removeItem itemId env st w)).
Proof.
  intros Hstep.
  unfold SharedList.removeItem, SharedList.removeItem_try. unfold_monad.
  destruct (SharedList.canEdit st); cbn; [|exact Hstep].
  destruct (fault env (tick w)); cbn; [exact Hstep|].
  unfold Store.delete.
  destruct (Store.has_id item_id itemId (Store.listItems (db w))); cbn;
    [|exact Hstep].
  unfold in_step, rows_of in *. cbn.
  rewrite filter_filter_commute. now apply permutation_filter.
Qed.

Lemma addItem_in_step (env : Env) (st : SharedList.State) (w : World)
      (l : ListRecord) :
  SharedList.list_ st = Some l ->
  Store.has_id item_id ("item_" ++ fresh env (tick w))
               (Store.listItems (db w)) = false ->
  in_step l st w ->
  in_step l (state_of (SharedList.addItem env st w))
            (world_of (SharedList.addItem env st w)).
Proof.
  intros Hl Hnew Hstep.
  unfold SharedList.addItem, SharedList.addItem_try. unfold_monad.
  rewrite Hl.
  destruct (SharedList.canEdit st); cbn; [|exact Hstep].
  destruct (fault env (S (S (tick w)))); cbn; [exact Hstep|].
  cbn [append] in Hnew. unfold Store.create. cbn [item_id]. rewrite Hnew.
  unfold in_step, rows_of in *. cbn.
  rewrite filter_app. cbn. rewrite String.eqb_refl.
  now apply Permutation_app_tail.
Qed.

(** X2. Once the items on the page are the rows of the list, every item
    handler keeps them so, whether the call is allowed or not and
    whether the store accepts it or not: an update or a removal is
    applied to the page exactly when it was applied to the store, and
    so is an append, given that the new identifier is not in use. *)
Theorem item_handlers_keep_page_and_store_in_step :
  forall (env : Env) (st : SharedList.State) (w : World) (l : ListRecord),
    SharedList.list_ st = Some l ->
    in_step l st w ->
    (forall itemId updates,
        in_step l (state_of (SharedList.updateItem itemId updates env st w))
                  (world_of (SharedList.updateItem itemId updates env st w)))
    /\ (forall item,
           in_step l (state_of (SharedList.toggleChecked item env st w))
                     (world_of (SharedList.toggleChecked item env st w)))
    /\ (forall itemId,
           in_step l (state_of (SharedList.removeItem itemId env st w))
                     (world_of (SharedList.removeItem itemId env st w)))
    /\ (Store.has_id item_id ("item_" ++ fresh env (tick w))
                     (Store.listItems (db w)) = false ->
        in_step l (state_of (SharedList.addItem env st w))
                  (world_of (SharedList.addItem env st w))).
Proof.
  intros env st w l Hl Hstep. repeat split; intros.
  - now apply updateItem_in_step.
  - now apply updateItem_in_step.
  - now apply removeItem_in_step.
  - now apply addItem_in_step.
Qed.

Lemma item_handlers_keep_page_and_store_in_step_witness :
  in_step groceries (groceries_view (Some bob) (Some editor)) sample_world
  /\ in_step groceries
       (state_of (SharedList.addItem calm
                    (groceries_view (Some bob) (Some editor)) sample_world))
       (world_of (SharedList.addItem calm
                    (groceries_view (Some bob) (Some editor)) sample_world))
  /\ length (SharedList.items
               (state_of (SharedList.addItem calm
                            (groceries_view (Some bob) (Some editor))
                            sample_world))) = 3%nat.
Proof.
  assert (Hstep : in_step groceries (groceries_view (Some bob) (Some editor))
                          sample_world) by apply Permutation_refl.
  split; [exact Hstep | split; [|reflexivity]].
  exact (proj2 (proj2 (proj2
           (item_handlers_keep_page_and_store_in_step calm
              (groceries_view (Some bob) (Some editor)) sample_world groceries
              eq_refl Hstep))) eq_refl).
Defined.

(** ** What a successful load puts on the page *)

Lemma insert_by_permutation {R} (le : R -> R -> bool) (r : R) (xs : list R) :
  Permutation (Store.insert_by le r xs) (r :: xs).
Proof.
  induction xs as [|x xs IH]; cbn; [reflexivity|].
  destruct (le r x); [reflexivity|].
  rewrite IH. apply perm_swap.
Qed.

Lemma sort_by_permutation {R} (le : R -> R -> bool) (xs : list R) :
  Permutation (Store.sort_by le xs) xs.
Proof.
  unfold Store.sort_by. induction xs as [|x xs IH]; cbn; [constructor|].
  rewrite insert_by_permutation. now constructor.
Qed.

Lemma insert_by_sorted (r : ListItem) (xs : list ListItem) :
  StronglySorted by_orderIndex xs ->
  StronglySorted by_orderIndex
    (Store.insert_by (fun a b => item_orderIndex a <=? item_orderIndex b) r xs).
Proof.
  induction 1 as [|x xs Hsorted IH Hall]; cbn.
  - repeat constructor.
  - destruct (Z.leb_spec (item_orderIndex r) (item_orderIndex x)) as [Hle|Hgt].
    + constructor; [now constructor|].
      constructor; [exact Hle|].
      rewrite Forall_forall in *. intros y Hy. specialize (Hall y Hy).
      unfold by_orderIndex in *. lia.
    + constructor; [exact IH|].
      rewrite Forall_forall in *. intros y Hy.
      apply (Permutation_in _ (insert_by_permutation _ r xs)) in Hy.
      destruct Hy as [<-|Hy]; [unfold by_orderIndex; lia | now apply Hall].
Qed.

Lemma sort_by_sorted (xs : list ListItem) :
  StronglySorted by_orderIndex
    (Store.sort_by (fun a b => item_orderIndex a <=? item_orderIndex b) xs).
Proof.
  unfold Store.sort_by. induction xs as [|x xs IH]; cbn; [constructor|].
  now apply insert_by_sorted.
Qed.

(** X3. A load that finds a shared list and meets no failure puts on
    the page exactly the rows of that list, each once, in ascending
    order of [orderIndex], with the collaborator records of that list,
    and ends the loading state. *)
Theorem loaded_items_are_the_rows_in_order :
  forall (env : Env) (st : SharedList.State) (w : World) (tok : string)
         (l : ListRecord) (rest : list ListRecord),
    tok <> EmptyString ->
    no_faults env ->
    Store.select (fun x => (list_shareToken x =? tok)%string
                           && Bool.eqb (list_isShared x) true)
                 None (Store.lists (db w)) = l :: rest ->
    let st' := state_of (SharedList.loadSharedList (Some tok) env st w) in
    let w' := world_of (SharedList.loadSharedList (Some tok) env st w) in
    SharedList.list_ st' = Some l
    /\ in_step l st' w'
    /\ StronglySorted by_orderIndex (SharedList.items st')
    /\ SharedList.collaborators st'
       = filter (fun c => (col_listId c =? list_id l)%string)
                (Store.listCollaborators (db w))
    /\ SharedList.loading st' = false
    /\ db w' = db w
    /\ log w' = log w.
Proof.
  intros env st w tok l rest Htok Hcalm Hsel. cbv zeta.
  unfold SharedList.loadSharedList. unfold_monad.
  destruct tok as [|c tok]; [congruence|]. cbn [or_else Js.truthy negb].
  rewrite Hcalm, Hsel. cbn [set_db tick db advance]. rewrite !Hcalm.
  unfold in_step, rows_of. cbn.
  split; [reflexivity|]. split; [apply sort_by_permutation|].
  split; [apply sort_by_sorted|]. repeat split.
Qed.

Lemma loaded_items_are_the_rows_in_order_witness :
  let st := SharedList.mkState (Some bob) None [] [] [] None true false in
  let st' := state_of (SharedList.loadSharedList (Some "tok1") calm st
                                                 sample_world) in
  no_faults calm
  /\ SharedList.items st' = [milk; eggs]
  /\ in_step groceries st'
       (world_of (SharedList.loadSharedList (Some "tok1") calm st sample_world))
  /\ StronglySorted by_orderIndex (SharedList.items st').
Proof.
  assert (Hcalm : no_faults calm) by (intros n; reflexivity).
  assert (Htok : "tok1" <> EmptyString) by discriminate.
  destruct (loaded_items_are_the_rows_in_order calm
              (SharedList.mkState (Some bob) None [] [] [] None true false)
              sample_world "tok1" groceries [] Htok Hcalm eq_refl)
    as (_ & Hstep & Hsorted & _).
  split; [exact Hcalm | split; [reflexivity | split; assumption]].
Defined.

(** ** A load that finds nothing to load *)

(** X4. Without a token in the address, or with an empty one, the load
    makes no store call: it shows "Invalid share link", goes home and
    leaves the loading state on. When the first store call fails, it
    reports the failure, goes home, ends the loading state and puts
    nothing on the page. *)
Theorem load_without_token_or_store :
  forall (env : Env) (st : SharedList.State) (w : World)
         (shareToken : option string),
    (shareToken = None \/ shareToken = Some EmptyString ->
     SharedList.loadSharedList shareToken env st w
     = (Ok tt, st,
        record (record w (Toast "Error" "Invalid share link" true))
               (Navigate "/")))
    /\ (shareToken <> None -> shareToken <> Some EmptyString ->
        fault env (tick w) = true ->
        SharedList.loadSharedList shareToken env st w
        = (Ok tt, SharedList.set_loading false st,
           record (reported (advance w) "Failed to load shared list:"
                            StoreUnavailable "Failed to load shared list")
                  (Navigate "/"))).
Proof.
  intros env st w shareToken. split.
  - intros [-> | ->]; reflexivity.
  - intros Hsome Hne Hfault.
    destruct shareToken as [[|c tok]|]; try congruence.
    unfold SharedList.loadSharedList. unfold_monad.
    cbn [or_else Js.truthy negb]. now rewrite Hfault.
Qed.

Lemma load_without_token_or_store_witness :
  SharedList.loadSharedList None calm SharedList.initial sample_world
  = (Ok tt, SharedList.initial,
     mkWorld sample_store [] 0
             [Toast "Error" "Invalid share link" true; Navigate "/"])
  /\ SharedList.loading
       (state_of (SharedList.loadSharedList (Some "tok1") stormy
                    SharedList.initial sample_world)) = false
  /\ SharedList.list_
       (state_of (SharedList.loadSharedList (Some "tok1") stormy
                    SharedList.initial sample_world)) = None.
Proof.
  destruct (load_without_token_or_store calm SharedList.initial sample_world
              None) as [Hnone _].
  destruct (load_without_token_or_store stormy SharedList.initial sample_world
              (Some "tok1")) as [_ Hfail].
  split; [exact (Hnone (or_introl eq_refl))|].
  assert (H1 : Some "tok1" <> None) by discriminate.
  assert (H2 : Some "tok1" <> Some EmptyString) by discriminate.
  rewrite (Hfail H1 H2 eq_refl). split; reflexivity.
Defined.

(** ** What the handlers of the shared view leave alone *)

Lemma same_access_refl (st : SharedList.State) : same_access st st.
Proof. unfold same_access. tauto. Qed.

Lemma updateItem_of_same_access (st0 st : SharedList.State) (env : Env)
      (w : World) (captured : SharedList.State) (itemId : string)
      (updates : ItemPatch) :
  same_access st0 st ->
  same_access st0
    (state_of (SharedList.updateItem_of captured itemId updates env st w)).
Proof.
  intros H. unfold SharedList.updateItem_of, SharedList.updateItem_try.
  unfold_monad. destruct (SharedList.canEdit captured); cbn; [|exact H].
  destruct (fault env (tick w)); cbn; [exact H|].
  destruct (Store.update _ _ _ _); cbn; exact H.
Qed.

Lemma handleImagesChange_try_state (st : SharedList.State) (l : ListRecord)
      (u : User) (newImages : list UploadedImage) (env : Env) (w : World) :
  let o := SharedList.handleImagesChange_try st l u newImages env st w in
  result_of o = Ok tt
  /\ ((state_of o = SharedList.set_images newImages st
       /\ log (world_of o) = log w)
      \/ (state_of o = st
          /\ exists error,
              log (world_of o)
              = (log w ++ [ConsoleError "Failed to update images:" error;
                           Toast "Error" "Failed to update images" true])%list)).
Proof.
  cbv zeta. unfold SharedList.handleImagesChange_try. unfold_monad.
  match goal with
  | |- context [for_of ?xs ?b tt env st w] =>
      assert (Hadds : state_of (for_of xs b tt env st w) = st
                      /\ log (world_of (for_of xs b tt env st w)) = log w);
      [ apply (for_of_preserves (fun v w' => v = st /\ log w' = log w));
        [|now split];
        intros acc x env' v w' _ [-> Hlog]; cbn;
        split_fault; cbn; now split
      | destruct (for_of xs b tt env st w) as [[[[]|e] v1] w1];
        cbn in Hadds; destruct Hadds as [-> Hlog1] ]
  end.
  - match goal with
    | |- context [for_of ?xs ?b tt env st w1] =>
        assert (Hrem : state_of (for_of xs b tt env st w1) = st
                       /\ log (world_of (for_of xs b tt env st w1)) = log w);
        [ apply (for_of_preserves (fun v w' => v = st /\ log w' = log w));
          [|now split];
          intros acc x env' v w' _ [-> Hlog]; cbn;
          split_fault; cbn; [now split|];
          destruct (Store.delete _ _ _); cbn; now split
        | destruct (for_of xs b tt env st w1) as [[[[]|e] v2] w2];
          cbn in Hrem; destruct Hrem as [-> Hlog2] ]
    end.
    + cbn. split; [reflexivity|]. left. now split.
    + cbn. split; [reflexivity|]. right.
      split; [reflexivity|]. exists e. now rewrite Hlog2, <- app_assoc.
  - cbn. split; [reflexivity|]. right.
    split; [reflexivity|]. exists e. now rewrite Hlog1, <- app_assoc.
Qed.

(** X5. A change of the images is all or nothing on the page: the
    handler always resolves, and either the page holds exactly the
    proposed images and nothing is reported, or the page is as before;
    then either the call was turned away at the guard or a store call
    failed and the failure is reported. *)
Theorem image_change_is_all_or_nothing_on_the_page :
  forall (env : Env) (st : SharedList.State) (w : World)
         (newImages : list UploadedImage),
    let o := SharedList.handleImagesChange newImages env st w in
    result_of o = Ok tt
    /\ ((state_of o = SharedList.set_images newImages st
         /\ log (world_of o) = log w)
        \/ (state_of o = st /\ world_of o = w)
        \/ (state_of o = st
            /\ exists error,
                log (world_of o)
                = (log w ++ [ConsoleError "Failed to update images:" error;
                             Toast "Error" "Failed to update images" true])%list)).
Proof.
  intros env st w newImages. cbv zeta.
  unfold SharedList.handleImagesChange, bind, render, ret.
  destruct (SharedList.list_ st) as [l|]; [|split; [reflexivity|right; left; now split]].
  destruct (SharedList.user st) as [u|]; [|split; [reflexivity|right; left; now split]].
  destruct (SharedList.canEdit st); cbn [negb];
    [|split; [reflexivity|right; left; now split]].
  destruct (handleImagesChange_try_state st l u newImages env w)
    as [Hres [Hok|Hfail]].
  - split; [exact Hres | left; exact Hok].
  - split; [exact Hres | right; right; exact Hfail].
Qed.

(** ** The difference between the shown and the proposed images *)

Lemma has_image_iff (id : string) (imgs : list UploadedImage) :
  SharedList.has_image id imgs = true
  <-> exists img, In img imgs /\ img_id img = id.
Proof.
  unfold SharedList.has_image, Js.find.
  destruct (find _ imgs) as [img|] eqn:Hfind.
  - apply find_some in Hfind. destruct Hfind as [Hin Hid].
    apply String.eqb_eq in Hid. split; [intros _; now exists img | reflexivity].
  - split; [discriminate|]. intros (img & Hin & Hid).
    pose proof (find_none _ _ Hfind img Hin) as Hno. cbn in Hno.
    rewrite Hid, String.eqb_refl in Hno. discriminate.
Qed.

Lemma has_image_false_iff (id : string) (imgs : list UploadedImage) :
  SharedList.has_image id imgs = false
  <-> forall img, In img imgs -> img_id img <> id.
Proof.
  rewrite <- Bool.not_true_iff_false, has_image_iff. split.
  - intros H img Hin Hid. apply H. now exists img.
  - intros H (img & Hin & Hid). now apply (H img).
Qed.

Lemma has_image_cons (id : string) (x : UploadedImage)
      (xs : list UploadedImage) :
  SharedList.has_image id (x :: xs)
  = (img_id x =? id)%string || SharedList.has_image id xs.
Proof.
  unfold SharedList.has_image, Js.find. cbn.
  now destruct (img_id x =? id)%string.
Qed.

Lemma has_id_create {R} (key : R -> string) (id : string) (r : R)
      (rows : list R) :
  Store.has_id key id (Store.create key r rows)
  = Store.has_id key id rows || (key r =? id)%string.
Proof.
  unfold Store.create.
  destruct (Store.has_id key (key r) rows) eqn:Hheld.
  - destruct (String.eqb_spec (key r) id) as [<-|_];
      [now rewrite Hheld | now rewrite orb_false_r].
  - unfold Store.has_id. rewrite existsb_app. cbn. now rewrite orb_false_r.
Qed.

Lemma has_id_delete {R} (key : R -> string) (id x : string) (rows : list R) :
  Store.has_id key id
    (filter (fun r => negb (key r =? x)%string) rows)
  = Store.has_id key id rows && negb (x =? id)%string.
Proof.
  unfold Store.has_id. induction rows as [|r rows IH]; cbn; [reflexivity|].
  destruct (String.eqb_spec (key r) x) as [Hx|Hx]; cbn.
  - rewrite IH, Hx.
    destruct (x =? id)%string; cbn; [now rewrite andb_false_r | reflexivity].
  - rewrite IH.
    destruct (String.eqb_spec (key r) id) as [Hid|_]; cbn; [|reflexivity].
    destruct (String.eqb_spec x id) as [Hxid|_]; [congruence | reflexivity].
Qed.

(** The two loops of [handleImagesChange] when no call fails. *)
Lemma create_loop_calm (l : ListRecord) (u : User) (xs : list UploadedImage) :
  forall (env : Env) (st : SharedList.State) (w : World),
    no_faults env ->
    let o := for_of xs
               (fun _ image =>
                  createdAt <- now ;;
                  Db.create Store.listImages Store.set_listImages
                            (fun r => img_id (ir_image r))
                            (mkImageRow image (list_id l) (user_id u)
                                        createdAt))
               tt env st w in
    result_of o = Ok tt
    /\ state_of o = st
    /\ log (world_of o) = log w
    /\ forall id,
        Store.has_id (fun r => img_id (ir_image r)) id
                     (Store.listImages (db (world_of o)))
        = Store.has_id (fun r => img_id (ir_image r)) id
                       (Store.listImages (db w))
          || SharedList.has_image id xs.
Proof.
  induction xs as [|x xs IH]; intros env st w Hcalm; cbn [for_of].
  - cbn. repeat split. intros id.
    unfold SharedList.has_image, Js.find. cbn. now rewrite orb_false_r.
  - cbv zeta. unfold bind at 1. unfold_monad. rewrite Hcalm.
    match goal with
    | |- context [for_of xs ?b tt env st ?w'] =>
        destruct (IH env st w' Hcalm) as (Hres & Hst & Hlog & Hids)
    end.
    cbv zeta in Hres, Hst, Hlog, Hids. unfold_monad.
    split; [exact Hres | split; [exact Hst | split; [exact Hlog|]]].
    intros id. rewrite Hids.
    cbn [db set_db advance Store.listImages Store.set_listImages].
    rewrite has_id_create, has_image_cons. cbn. now rewrite orb_assoc.
Qed.

Lemma delete_loop_calm (xs : list UploadedImage) :
  forall (env : Env) (st : SharedList.State) (w : World),
    no_faults env ->
    NoDup (map img_id xs) ->
    (forall img, In img xs ->
                 Store.has_id (fun r => img_id (ir_image r)) (img_id img)
                              (Store.listImages (db w)) = true) ->
    let o := for_of xs
               (fun _ image =>
                  Db.delete "listImages" Store.listImages Store.set_listImages
                            (fun r => img_id (ir_image r)) (img_id image))
               tt env st w in
    result_of o = Ok tt
    /\ state_of o = st
    /\ log (world_of o) = log w
    /\ forall id,
        Store.has_id (fun r => img_id (ir_image r)) id
                     (Store.listImages (db (world_of o)))
        = Store.has_id (fun r => img_id (ir_image r)) id
                       (Store.listImages (db w))
          && negb (SharedList.has_image id xs).
Proof.
  induction xs as [|x xs IH]; intros env st w Hcalm Hnodup Hheld;
    cbn [for_of].
  - cbn. repeat split. intros id.
    unfold SharedList.has_image, Js.find. cbn. now rewrite andb_true_r.
  - cbv zeta. unfold bind at 1. unfold_monad. rewrite Hcalm.
    unfold Store.delete. rewrite (Hheld x (or_introl eq_refl)).
    inversion Hnodup as [|? ? Hfresh Hrest]; subst.
    match goal with
    | |- context [for_of xs ?b tt env st ?w'] =>
        destruct (IH env st w' Hcalm Hrest) as (Hres & Hst & Hlog & Hids)
    end.
    { intros img Himg.
      cbn [db set_db advance Store.listImages Store.set_listImages].
      rewrite has_id_delete.
      rewrite (Hheld img (or_intror Himg)). cbn.
      destruct (String.eqb_spec (img_id x) (img_id img)) as [Heq|_];
        [|reflexivity].
      exfalso. apply Hfresh. rewrite Heq. now apply in_map. }
    cbv zeta in Hres, Hst, Hlog, Hids. unfold_monad.
    split; [exact Hres | split; [exact Hst | split; [exact Hlog|]]].
    intros id. rewrite Hids.
    cbn [db set_db advance Store.listImages Store.set_listImages].
    rewrite has_id_delete, has_image_cons, negb_orb. now rewrite andb_assoc.
Qed.

Lemma nodup_map_filter {A B} (f : A -> B) (p : A -> bool) (xs : list A) :
  NoDup (map f xs) -> NoDup (map f (filter p xs)).
Proof.
  induction xs as [|x xs IH]; cbn; [trivial|].
  intros Hnodup. inversion Hnodup as [|? ? Hfresh Hrest]; subst.
  destruct (p x); cbn; [|now apply IH].
  constructor; [|now apply IH].
  intros Hin. apply Hfresh. apply in_map_iff in Hin.
  destruct Hin as (y & Hy & Hin). apply filter_In in Hin.
  rewrite <- Hy. now apply in_map.
Qed.

Lemma handleImagesChange_try_calm (st : SharedList.State) (l : ListRecord)
      (u : User) (newImages : list UploadedImage) (env : Env) (w : World) :
  no_faults env ->
  NoDup (map img_id (SharedList.images st)) ->
  (forall img,
      In img (SharedList.imagesToRemove (SharedList.images st) newImages) ->
      Store.has_id (fun r => img_id (ir_image r)) (img_id img)
                   (Store.listImages (db w)) = true) ->
  exists w2,
    SharedList.handleImagesChange_try st l u newImages env st w
    = (Ok tt, SharedList.set_images newImages st, w2)
    /\ log w2 = log w
    /\ forall id,
        Store.has_id (fun r => img_id (ir_image r)) id
                     (Store.listImages (db w2))
        = (Store.has_id (fun r => img_id (ir_image r)) id
                        (Store.listImages (db w))
           || SharedList.has_image
                id (SharedList.imagesToAdd (SharedList.images st) newImages))
          && negb (SharedList.has_image
                     id (SharedList.imagesToRemove (SharedList.images st)
                                                   newImages)).
Proof.
  intros Hcalm Hnodup Hheld.
  unfold SharedList.handleImagesChange_try, try_catch. cbv zeta.
  unfold bind at 1.
  destruct (create_loop_calm
              l u (SharedList.imagesToAdd (SharedList.images st) newImages)
              env st w Hcalm) as (Hres1 & Hst1 & Hlog1 & Hids1).
  cbv zeta in Hres1, Hst1, Hlog1, Hids1.
  unfold SharedList.imagesToAdd in Hres1, Hst1, Hlog1, Hids1 at 1.
  destruct (for_of (filter _ newImages) _ tt env st w) as [[r1 st1] w1].
  cbn in Hres1, Hst1, Hlog1, Hids1. subst r1 st1.
  unfold bind at 1.
  destruct (delete_loop_calm
              (SharedList.imagesToRemove (SharedList.images st) newImages)
              env st w1 Hcalm) as (Hres2 & Hst2 & Hlog2 & Hids2).
  { now apply nodup_map_filter. }
  { intros img Himg. rewrite Hids1, (Hheld img Himg). reflexivity. }
  cbv zeta in Hres2, Hst2, Hlog2, Hids2.
  unfold SharedList.imagesToRemove in Hres2, Hst2, Hlog2, Hids2 at 1.
  destruct (for_of (filter _ (SharedList.images st)) _ tt env st w1)
    as [[r2 st2] w2].
  cbn in Hres2, Hst2, Hlog2, Hids2. subst r2 st2.
  unfold setState. cbn. exists w2.
  split; [reflexivity | split; [congruence|]].
  intros id. now rewrite Hids2, Hids1.
Qed.

(** The rows the handler adds and removes, whatever the store does. *)
Lemma handleImagesChange_try_rows (st : SharedList.State) (l : ListRecord)
      (u : User) (newImages : list UploadedImage) (env : Env) (w : World) :
  let o := SharedList.handleImagesChange_try st l u newImages env st w in
  (forall r,
      In r (Store.listImages (db (world_of o))) ->
      In r (Store.listImages (db w))
      \/ (In (ir_image r)
             (SharedList.imagesToAdd (SharedList.images st) newImages)
          /\ ir_listId r = list_id l /\ ir_userId r = user_id u))
  /\ (forall r,
         In r (Store.listImages (db w)) ->
         In r (Store.listImages (db (world_of o)))
         \/ SharedList.has_image
              (img_id (ir_image r))
              (SharedList.imagesToRemove (SharedList.images st) newImages)
            = true).
Proof.
  cbv zeta.
  set (kept := fun w' : World =>
         (forall r,
             In r (Store.listImages (db w')) ->
             In r (Store.listImages (db w))
             \/ (In (ir_image r)
                    (SharedList.imagesToAdd (SharedList.images st) newImages)
                 /\ ir_listId r = list_id l /\ ir_userId r = user_id u))
         /\ (forall r,
                In r (Store.listImages (db w)) ->
                In r (Store.listImages (db w'))
                \/ SharedList.has_image
                     (img_id (ir_image r))
                     (SharedList.imagesToRemove (SharedList.images st)
                                                newImages) = true)).
  change (kept (world_of (SharedList.handleImagesChange_try
                            st l u newImages env st w))).
  assert (Hstart : kept w) by (split; intros r Hr; now left).
  unfold SharedList.handleImagesChange_try. unfold_monad.
  match goal with
  | |- context [for_of ?xs ?b tt env st w] =>
      assert (Hadds : kept (world_of (for_of xs b tt env st w)));
      [ apply (for_of_preserves (fun _ w' => kept w'));
        [|exact Hstart];
        intros acc x env' v w' Hx [Hnew Hold]; cbn;
        split_fault; cbn; [now split|];
        split;
        [ intros r Hr; unfold Store.create in Hr;
          destruct (Store.has_id _ _ _); [now apply Hnew|];
          apply in_app_or in Hr; destruct Hr as [Hr|[<-|[]]];
          [now apply Hnew | right; cbn; now repeat split]
        | intros r Hr; destruct (Hold r Hr) as [Hin|Hgone]; [|now right];
          left; unfold Store.create;
          destruct (Store.has_id _ _ _); [exact Hin|];
          apply in_or_app; now left ]
      | destruct (for_of xs b tt env st w) as [[[[]|e] v1] w1];
        cbn in Hadds ]
  end.
  - match goal with
    | |- context [for_of ?xs ?b tt env v1 w1] =>
        assert (Hrem : kept (world_of (for_of xs b tt env v1 w1)));
        [ apply (for_of_preserves (fun _ w' => kept w'));
          [|exact Hadds];
          intros acc x env' v w' Hx [Hnew Hold]; cbn;
          split_fault; cbn; [now split|];
          unfold Store.delete;
          destruct (Store.has_id _ _ _); cbn; [|now split];
          split;
          [ intros r Hr; apply filter_In in Hr; now apply Hnew
          | intros r Hr; destruct (Hold r Hr) as [Hin|Hgone]; [|now right];
            destruct (String.eqb_spec (img_id (ir_image r)) (img_id x))
              as [Hid|Hid];
            [ right; apply has_image_iff; now exists x
            | left; apply filter_In; split; [exact Hin|];
              apply negb_true_iff; now apply String.eqb_neq ] ]
        | destruct (for_of xs b tt env v1 w1) as [[[[]|e] v2] w2];
          cbn in Hrem ]
    end; cbn; exact Hrem.
  - cbn. exact Hadds.
Qed.

(** X6. The image rows [handleImagesChange] creates and deletes are the
    difference by identifier between the proposed and the shown
    images. Whatever the store does, every row it adds carries a
    proposed image whose identifier is not shown, with the identifier
    of the list and of the user, and every row it takes away carries
    the identifier of a shown image that is not proposed. When no call
    fails, the shown identifiers being distinct and the rows to remove
    being in the store, the page shows the proposed images and the
    store holds an identifier exactly when it held it before or it was
    added, and it was not removed. An identifier is proposed exactly
    when it is added or is shown and not removed; nothing shown is
    added again; and when the proposed images carry the identifiers
    already shown, the handler makes no store call at all and only
    takes over the proposed array. *)
Theorem image_difference_is_by_identifier :
  forall (images newImages : list UploadedImage),
    (forall id,
        SharedList.has_image id newImages = true
        <-> SharedList.has_image id (SharedList.imagesToAdd images newImages)
            = true
            \/ (SharedList.has_image id images = true
                /\ SharedList.has_image
                     id (SharedList.imagesToRemove images newImages) = false))
    /\ (forall img,
           In img (SharedList.imagesToAdd images newImages) ->
           SharedList.has_image (img_id img) images = false)
    /\ ((forall id, SharedList.has_image id newImages
                    = SharedList.has_image id images) ->
        forall env st w l u,
          SharedList.images st = images ->
          SharedList.handleImagesChange_try st l u newImages env st w
          = (Ok tt, SharedList.set_images newImages st, w))
    /\ (forall env st w l u,
           SharedList.images st = images ->
           SharedList.list_ st = Some l ->
           SharedList.user st = Some u ->
           SharedList.canEdit st = true ->
           let o := SharedList.handleImagesChange newImages env st w in
           let held := fun (w' : World) (id : string) =>
                         Store.has_id (fun r => img_id (ir_image r)) id
                                      (Store.listImages (db w')) in
           (forall r,
               In r (Store.listImages (db (world_of o))) ->
               In r (Store.listImages (db w))
               \/ (In (ir_image r) (SharedList.imagesToAdd images newImages)
                   /\ ir_listId r = list_id l /\ ir_userId r = user_id u))
           /\ (forall r,
                  In r (Store.listImages (db w)) ->
                  In r (Store.listImages (db (world_of o)))
                  \/ SharedList.has_image
                       (img_id (ir_image r))
                       (SharedList.imagesToRemove images newImages) = true)
           /\ (no_faults env ->
               NoDup (map img_id images) ->
               (forall img,
                   In img (SharedList.imagesToRemove images newImages) ->
                   held w (img_id img) = true) ->
               state_of o = SharedList.set_images newImages st
               /\ log (world_of o) = log w
               /\ forall id,
                   held (world_of o) id
                   = (held w id
                      || SharedList.has_image
                           id (SharedList.imagesToAdd images newImages))
                     && negb (SharedList.has_image
                                id (SharedList.imagesToRemove images
                                                              newImages)))).
Proof.
  intros images newImages. split; [|split; [|split]].
  - intros id. unfold SharedList.imagesToAdd, SharedList.imagesToRemove.
    rewrite !has_image_iff, has_image_false_iff. split.
    + intros (img & Hin & Hid).
      destruct (SharedList.has_image id images) eqn:Hshown.
      * right. split; [now apply has_image_iff|].
        intros old Hold Hsame. apply filter_In in Hold.
        destruct Hold as [_ Hgone]. apply negb_true_iff in Hgone.
        rewrite Hsame in Hgone.
        assert (SharedList.has_image id newImages = true)
          by (apply has_image_iff; now exists img).
        congruence.
      * left. exists img. split; [|exact Hid].
        apply filter_In. split; [exact Hin|]. now rewrite Hid, Hshown.
    + intros [(img & Hin & Hid) | ((old & Hold & Hid) & Hkept)].
      * apply filter_In in Hin. exists img. now split.
      * destruct (SharedList.has_image id newImages) eqn:Hnew;
          [now apply has_image_iff|].
        exfalso. apply (Hkept old); [|exact Hid].
        apply filter_In. split; [exact Hold|]. now rewrite Hid, Hnew.
  - intros img Hin. apply filter_In in Hin. now apply negb_true_iff.
  - intros Hsame env st w l u Himages.
    unfold SharedList.handleImagesChange_try.
    assert (Hadd : filter (fun newImg =>
                     negb (SharedList.has_image (img_id newImg)
                                                (SharedList.images st)))
                          newImages = []).
    { apply filter_nothing. intros x Hx. rewrite Himages, <- Hsame.
      apply negb_false_iff, has_image_iff. now exists x. }
    assert (Hrem : filter (fun existingImg =>
                     negb (SharedList.has_image (img_id existingImg) newImages))
                          (SharedList.images st) = []).
    { apply filter_nothing. intros x Hx. rewrite Hsame.
      apply negb_false_iff, has_image_iff. exists x. now rewrite <- Himages. }
    cbv zeta. rewrite Hadd, Hrem. reflexivity.
  - intros env st w l u Himages Hlist Huser Hedit. cbv zeta.
    rewrite (handleImagesChange_passes env st w newImages l u Hlist Huser
                                       Hedit).
    subst images.
    destruct (handleImagesChange_try_rows st l u newImages env w)
      as [Hadded Hremoved].
    split; [exact Hadded | split; [exact Hremoved|]].
    intros Hcalm Hnodup Hheld.
    destruct (handleImagesChange_try_calm st l u newImages env w Hcalm Hnodup
                                          Hheld) as (w2 & -> & Hlog & Hids).
    now repeat split.
Qed.

Lemma image_difference_is_by_identifier_witness :
  (forall id, SharedList.has_image id [photo "b"; photo "a"]
              = SharedList.has_image id [photo "a"; photo "b"])
  /\ SharedList.handleImagesChange [photo "b"; photo "a"] calm
       (SharedList.set_images [photo "a"; photo "b"]
                              (groceries_view (Some bob) (Some editor)))
       sample_world
     = (Ok tt,
        SharedList.set_images [photo "b"; photo "a"]
                              (groceries_view (Some bob) (Some editor)),
        sample_world)
  /\ map (fun r => (img_id (ir_image r), ir_listId r, ir_userId r))
         (Store.listImages
            (db (world_of (SharedList.handleImagesChange
                             [photo "b"; photo "c"] calm album_view
                             album_world))))
     = [("b", "l1", "u2"); ("c", "l1", "u2")]
  /\ state_of (SharedList.handleImagesChange [photo "b"; photo "c"] calm
                                             album_view album_world)
     = SharedList.set_images [photo "b"; photo "c"] album_view.
Proof.
  assert (Hsame : forall id, SharedList.has_image id [photo "b"; photo "a"]
                             = SharedList.has_image id [photo "a"; photo "b"]).
  { intros id. unfold SharedList.has_image, Js.find. cbn -[String.eqb].
    destruct (String.eqb "b" id), (String.eqb "a" id); reflexivity. }
  split; [exact Hsame|].
  split.
  { exact (proj1 (proj2 (proj2 (image_difference_is_by_identifier
                                  [photo "a"; photo "b"]
                                  [photo "b"; photo "a"])))
                 Hsame calm
                 (SharedList.set_images [photo "a"; photo "b"]
                    (groceries_view (Some bob) (Some editor)))
                 sample_world groceries bob eq_refl). }
  split; [reflexivity|].
  refine (proj1 (proj2 (proj2
            (proj2 (proj2 (proj2 (image_difference_is_by_identifier
                                    [photo "a"; photo "b"]
                                    [photo "b"; photo "c"])))
                   calm album_view album_world groceries bob
                   eq_refl eq_refl eq_refl eq_refl)) _ _ _)).
  - intros n. reflexivity.
  - repeat constructor; cbn; intuition discriminate.
  - intros img [<-|[]]. reflexivity.
Defined.

(** ** Roles are fixed by the load *)

Lemma handleImagesChange_state (env : Env) (st : SharedList.State) (w : World)
      (newImages : list UploadedImage) :
  state_of (SharedList.handleImagesChange newImages env st w) = st
  \/ state_of (SharedList.handleImagesChange newImages env st w)
     = SharedList.set_images newImages st.
Proof.
  unfold SharedList.handleImagesChange, bind, render, ret.
  destruct (SharedList.list_ st) as [l|]; [|now left].
  destruct (SharedList.user st) as [u|]; [|now left].
  destruct (SharedList.canEdit st); cbn [negb]; [|now left].
  destruct (handleImagesChange_try_state st l u newImages env w)
    as [_ [[Hok _]|[Hfail _]]]; [now right | now left].
Qed.

Lemma check_loop_same_access (st : SharedList.State)
      (body : unit -> ListItem -> M SharedList.State unit)
      (xs : list ListItem) (env : Env) (w : World) :
  (forall acc x, exists updates,
        body acc x = SharedList.updateItem_of st (item_id x) updates
        \/ body acc x = ret tt) ->
  same_access st (state_of (for_of xs body tt env st w)).
Proof.
  intros Hbody.
  apply (for_of_invariant (fun s => same_access st s));
    [|apply same_access_refl].
  intros acc x env' v w' _ Hv.
  destruct (Hbody acc x) as (updates & [-> | ->]).
  - now apply updateItem_of_same_access.
  - exact Hv.
Qed.

(** X7. Of what writes the state of the shared view, only the load
    writes the role or makes a list appear, and only the callback of
    the authentication writes the user. [updateList], [addItem],
    [updateItem], [removeItem], [handleImagesChange], the two buttons
    that check and uncheck every item and [copyToClipboard] leave the
    user, the role and the presence of a list as they are, so whoever
    may not edit before one of them may not edit after it. The load
    leaves the user as it is. The callback of the authentication
    replaces the user and the flag [authLoading] and nothing else: the
    role on the page, and with it [canEdit] and [canManageSettings],
    stay those resolved for the requester before, until a load writes
    them again. *)
Theorem handlers_never_change_access :
  forall (env : Env) (st : SharedList.State) (w : World),
    (forall updates,
        same_access st (state_of (SharedList.updateList updates env st w)))
    /\ same_access st (state_of (SharedList.addItem env st w))
    /\ (forall itemId updates,
           same_access st
             (state_of (SharedList.updateItem itemId updates env st w)))
    /\ (forall itemId,
           same_access st (state_of (SharedList.removeItem itemId env st w)))
    /\ (forall newImages,
           same_access st
             (state_of (SharedList.handleImagesChange newImages env st w)))
    /\ same_access st (state_of (SharedList.checkAll env st w))
    /\ same_access st (state_of (SharedList.uncheckAll env st w))
    /\ (forall st', same_access st st' ->
                    (coherent st -> coherent st')
                    /\ SharedList.canEdit st' = SharedList.canEdit st
                    /\ SharedList.canManageSettings st'
                       = SharedList.canManageSettings st)
    /\ same_access st (state_of (SharedList.copyToClipboard env st w))
    /\ (forall link,
           SharedList.user (state_of (SharedList.loadSharedList link env st w))
           = SharedList.user st)
    /\ (forall stateUser isLoading,
           let o := SharedList.onAuthStateChanged stateUser isLoading env st w in
           SharedList.user (state_of o) = stateUser
           /\ SharedList.authLoading (state_of o) = isLoading
           /\ SharedList.userRole (state_of o) = SharedList.userRole st
           /\ SharedList.list_ (state_of o) = SharedList.list_ st
           /\ SharedList.items (state_of o) = SharedList.items st
           /\ SharedList.canEdit (state_of o) = SharedList.canEdit st
           /\ SharedList.canManageSettings (state_of o)
              = SharedList.canManageSettings st
           /\ world_of o = w).
Proof.
  intros env st w.
  split; [|split; [|split; [|split; [|split; [|split; [|split; [|split;
    [|split; [|split]]]]]]]]].
  - intros updates.
    unfold SharedList.updateList, SharedList.updateList_try. unfold_monad.
    destruct (SharedList.list_ st) as [l|] eqn:Hl; [|apply same_access_refl].
    destruct (SharedList.canManageSettings st); cbn;
      [|apply same_access_refl].
    split_fault; cbn; [apply same_access_refl|].
    destruct (Store.update _ _ _ _); cbn; [|apply same_access_refl].
    unfold same_access. cbn. rewrite Hl. repeat split; discriminate.
  - unfold SharedList.addItem, SharedList.addItem_try. unfold_monad.
    destruct (SharedList.list_ st) as [l|] eqn:Hl; [|apply same_access_refl].
    destruct (SharedList.canEdit st); cbn; [|apply same_access_refl].
    split_fault; cbn; [apply same_access_refl|].
    unfold same_access. cbn. tauto.
  - intros itemId updates.
    change (SharedList.updateItem itemId updates env st w)
      with (SharedList.updateItem_of st itemId updates env st w).
    apply updateItem_of_same_access, same_access_refl.
  - intros itemId.
    unfold SharedList.removeItem, SharedList.removeItem_try. unfold_monad.
    destruct (SharedList.canEdit st); cbn; [|apply same_access_refl].
    split_fault; cbn; [apply same_access_refl|].
    destruct (Store.delete _ _ _); cbn; [|apply same_access_refl].
    unfold same_access. cbn. tauto.
  - intros newImages.
    destruct (handleImagesChange_state env st w newImages) as [-> | ->];
      [apply same_access_refl|]. unfold same_access. cbn. tauto.
  - unfold SharedList.checkAll, bind at 1, render at 1.
    apply check_loop_same_access. intros acc x.
    exists (mkItemPatch None None (Some true) None).
    destruct (Js.Number (item_isChecked x) =? 0); [now left | now right].
  - unfold SharedList.uncheckAll, bind at 1, render at 1.
    apply check_loop_same_access. intros acc x.
    exists (mkItemPatch None None (Some false) None).
    destruct (Js.Number (item_isChecked x) >? 0); [now left | now right].
  - intros st' (Huser & Hrole & Hlist). split; [|split].
    + unfold coherent. rewrite Hrole, Hlist. tauto.
    + unfold SharedList.canEdit. now rewrite Hrole.
    + unfold SharedList.canManageSettings. now rewrite Hrole.
  - unfold SharedList.copyToClipboard. unfold_monad. cbn.
    apply same_access_refl.
  - intros link. unfold SharedList.loadSharedList. unfold_monad.
    destruct link as [[|c tok]|]; cbn [or_else Js.truthy negb];
      try reflexivity.
    destruct (fault env (tick w)); [reflexivity|].
    destruct (Store.select _ None (Store.lists (db w))) as [|first rest];
      [reflexivity|].
    cbn [advance tick set_db db].
    repeat match goal with
           | |- context [fault env ?n] => destruct (fault env n)
           end; reflexivity.
  - intros stateUser isLoading. cbv zeta.
    unfold SharedList.onAuthStateChanged. unfold_monad. cbn.
    repeat split.
Qed.

Lemma handlers_never_change_access_witness :
  same_access (groceries_view (Some carol) (Some viewer))
              (state_of (SharedList.checkAll calm
                           (groceries_view (Some carol) (Some viewer))
                           sample_world))
  /\ SharedList.canEdit
       (state_of (SharedList.checkAll calm
                    (groceries_view (Some carol) (Some viewer)) sample_world))
     = false
  /\ SharedList.user
       (state_of (SharedList.onAuthStateChanged
                    None false calm (groceries_view (Some carol) (Some viewer))
                    sample_world))
     = None
  /\ SharedList.userRole
       (state_of (SharedList.onAuthStateChanged
                    None false calm (groceries_view (Some carol) (Some viewer))
                    sample_world))
     = Some viewer.
Proof.
  destruct (handlers_never_change_access calm
              (groceries_view (Some carol) (Some viewer)) sample_world)
    as (_ & _ & _ & _ & _ & Hcheck & _ & Hkeep & _ & _ & Hauth).
  split; [exact Hcheck|].
  split; [exact (proj1 (proj2 (Hkeep _ Hcheck)))|].
  destruct (Hauth None false) as (Huser & _ & Hrole & _).
  split; [exact Huser | exact Hrole].
Defined.

(** ** Checking every item at once *)

Lemma updateItem_of_items (captured st : SharedList.State) (env : Env)
      (w : World) (itemId : string) (updates : ItemPatch) :
  SharedList.items
    (state_of (SharedList.updateItem_of captured itemId updates env st w))
  = SharedList.items st
  \/ SharedList.items
       (state_of (SharedList.updateItem_of captured itemId updates env st w))
     = map (fun item => if (item_id item =? itemId)%string
                        then patch_item item updates else item)
           (SharedList.items captured).
Proof.
  unfold SharedList.updateItem_of, SharedList.updateItem_try. unfold_monad.
  destruct (SharedList.canEdit captured); cbn; [|now left].
  split_fault; cbn; [now left|].
  destruct (Store.update _ _ _ _); cbn; [now right | now left].
Qed.

Lemma number_is_zero (b : bool) : (Js.Number b =? 0) = negb b.
Proof. now destruct b. Qed.

Lemma checkAll_page (env : Env) (st : SharedList.State) (w : World) :
  SharedList.items (state_of (SharedList.checkAll env st w))
  = SharedList.items st
  \/ exists it,
      In it (SharedList.items st) /\ item_isChecked it = false
      /\ SharedList.items (state_of (SharedList.checkAll env st w))
         = check_one it (SharedList.items st).
Proof.
  unfold SharedList.checkAll, bind at 1, render at 1.
  apply (for_of_invariant
           (fun s => SharedList.items s = SharedList.items st
                     \/ exists it,
                         In it (SharedList.items st)
                         /\ item_isChecked it = false
                         /\ SharedList.items s
                            = check_one it (SharedList.items st)));
    [|now left].
  intros acc x env' v w' Hin Hv. rewrite number_is_zero.
  destruct (item_isChecked x) eqn:Hx; cbn [negb]; [exact Hv|].
  destruct (updateItem_of_items st v env' w' (item_id x) checked_patch)
    as [Hsame|Hnew].
  - unfold checked_patch in Hsame. now rewrite Hsame.
  - right. exists x. unfold checked_patch in Hnew. now rewrite Hnew.
Qed.

Lemma patch_checked_twice (r : ListItem) :
  patch_item (patch_item r checked_patch) checked_patch
  = patch_item r checked_patch.
Proof. reflexivity. Qed.

Lemma has_id_map_same_ids (f : ListItem -> ListItem) (id : string)
      (rows : list ListItem) :
  (forall r, item_id (f r) = item_id r) ->
  Store.has_id item_id id (map f rows) = Store.has_id item_id id rows.
Proof.
  intros Hf. unfold Store.has_id. induction rows as [|r rows IH]; cbn;
    [reflexivity|]. now rewrite Hf, IH.
Qed.

Lemma check_loop_store (st : SharedList.State) (env : Env) :
  no_faults env ->
  SharedList.canEdit st = true ->
  forall (xs : list ListItem) (v : SharedList.State) (w : World),
    (forall x, In x xs ->
               Store.has_id item_id (item_id x) (Store.listItems (db w)) = true) ->
    Store.listItems
      (db (world_of
             (for_of xs
                (fun _ item =>
                   if Js.Number (item_isChecked item) =? 0
                   then SharedList.updateItem_of st (item_id item)
                          (mkItemPatch None None (Some true) None)
                   else ret tt)
                tt env v w)))
    = map (fun r => if to_be_checked xs r
                    then patch_item r checked_patch else r)
          (Store.listItems (db w)).
Proof.
  intros Hcalm Hedit xs.
  remember (fun (_ : unit) (item : ListItem) =>
              if Js.Number (item_isChecked item) =? 0
              then SharedList.updateItem_of st (item_id item)
                     (mkItemPatch None None (Some true) None)
              else ret tt) as body eqn:Hbody.
  induction xs as [|x xs IH]; intros v w Hids; cbn [for_of].
  - unfold ret. cbn. now rewrite map_id.
  - unfold bind.
    assert (Hstep : body tt x
                    = if negb (item_isChecked x)
                      then SharedList.updateItem_of st (item_id x)
                             (mkItemPatch None None (Some true) None)
                      else ret tt)
      by (rewrite Hbody, number_is_zero; reflexivity).
    rewrite Hstep.
    assert (Hx : Store.has_id item_id (item_id x) (Store.listItems (db w))
                 = true) by (apply Hids; now left).
    destruct (item_isChecked x) eqn:Hchecked; cbn [negb].
    + unfold ret at 1. rewrite IH by (intros; apply Hids; now right).
      apply map_ext. intros r. unfold to_be_checked. cbn [existsb].
      now rewrite Hchecked.
    + unfold SharedList.updateItem_of, SharedList.updateItem_try.
      unfold_monad. rewrite Hedit. cbn [negb]. rewrite Hcalm.
      unfold Store.update. rewrite Hx.
      rewrite IH.
      * cbn [db set_db Store.set_listItems Store.listItems].
        rewrite map_map. apply map_ext. intros r.
        unfold to_be_checked. cbn [existsb]. rewrite Hchecked. cbn [negb andb].
        destruct (item_id r =? item_id x)%string eqn:Hid; cbn [orb].
        -- change (item_id (patch_item r (mkItemPatch None None (Some true) None)))
             with (item_id r).
           now destruct (existsb _ xs).
        -- reflexivity.
      * intros y Hy. cbn [db set_db Store.set_listItems Store.listItems].
        rewrite has_id_map_same_ids; [apply Hids; now right|].
        intros r. now destruct (item_id r =? item_id x)%string.
Qed.

(** X8. "Check All Items" checks in the store every row that carries
    the identifier of an unchecked item of the page, but every one of
    its calls writes the page from the items of the same render: the
    page ends as it was or with the items of one single identifier
    checked. With two unchecked items of different identifiers, an
    unchecked item is still shown afterwards. *)
Theorem check_all_checks_one_identifier_on_the_page :
  forall (env : Env) (st : SharedList.State) (w : World),
    let st' := state_of (SharedList.checkAll env st w) in
    let w' := world_of (SharedList.checkAll env st w) in
    (SharedList.items st' = SharedList.items st
     \/ exists it,
         In it (SharedList.items st) /\ item_isChecked it = false
         /\ SharedList.items st' = check_one it (SharedList.items st))
    /\ (forall a b,
           In a (SharedList.items st) -> In b (SharedList.items st) ->
           item_id a <> item_id b ->
           item_isChecked a = false -> item_isChecked b = false ->
           exists x, In x (SharedList.items st') /\ item_isChecked x = false)
    /\ (no_faults env ->
        SharedList.canEdit st = true ->
        (forall x, In x (SharedList.items st) ->
                   Store.has_id item_id (item_id x) (Store.listItems (db w))
                   = true) ->
        Store.listItems (db w')
        = map (fun r => if to_be_checked (SharedList.items st) r
                        then patch_item r checked_patch else r)
              (Store.listItems (db w))).
Proof.
  intros env st w. cbv zeta.
  pose proof (checkAll_page env st w) as Hpage.
  split; [exact Hpage | split].
  - intros a b Ha Hb Hdiff Hua Hub.
    destruct Hpage as [Hsame | (it & Hit & Hu & Hone)].
    + exists a. now rewrite Hsame.
    + rewrite Hone. unfold check_one.
      destruct (item_id a =? item_id it)%string eqn:Hai.
      * exists b. split; [|exact Hub].
        apply in_map_iff. exists b. split; [|exact Hb].
        apply String.eqb_eq in Hai.
        destruct (item_id b =? item_id it)%string eqn:Hbi; [|reflexivity].
        apply String.eqb_eq in Hbi. congruence.
      * exists a. split; [|exact Hua].
        apply in_map_iff. exists a. split; [|exact Ha]. now rewrite Hai.
  - intros Hcalm Hedit Hids.
    unfold SharedList.checkAll, bind at 1, render at 1.
    now apply check_loop_store.
Qed.

Lemma check_all_checks_one_identifier_on_the_page_witness :
  let st' := state_of (SharedList.checkAll calm two_unchecked pantry_world) in
  let w' := world_of (SharedList.checkAll calm two_unchecked pantry_world) in
  map item_isChecked (SharedList.items st') = [false; true]
  /\ map item_isChecked (Store.listItems (db w')) = [true; true; true]
  /\ (exists x, In x (SharedList.items st') /\ item_isChecked x = false)
  /\ Store.listItems (db w')
     = map (fun r => if to_be_checked (SharedList.items two_unchecked) r
                     then patch_item r checked_patch else r)
           (Store.listItems (db pantry_world)).
Proof.
  destruct (check_all_checks_one_identifier_on_the_page calm two_unchecked
              pantry_world) as (_ & Hleft & Hstore).
  split; [reflexivity | split; [reflexivity | split]].
  - apply (Hleft eggs butter); try reflexivity.
    + now left.
    + right; now left.
    + discriminate.
  - apply Hstore; [intros n; reflexivity | reflexivity |].
    intros x [<-|[<-|[]]]; reflexivity.
Defined.

(** ** The sharing switch of the editor *)

Lemma editor_updateList_store (env : Env) (st : ListEditor.State) (w : World)
      (l : ListRecord) (updates : ListPatch) :
  ListEditor.list_ st = Some l ->
  no_faults env ->
  Store.has_id list_id (list_id l) (Store.lists (db w)) = true ->
  ListEditor.updateList updates env st w
  = (Ok tt,
     ListEditor.set_saving false
       (ListEditor.set_list (Some (patch_list l updates))
          (ListEditor.set_saving true st)),
     record
       (set_db (advance (advance w))
          (Store.set_lists (db w)
             (map (fun row => if (list_id row =? list_id l)%string
                              then patch_list row
                                     (stamp updates (clock env (tick w)))
                              else row)
                  (Store.lists (db w)))))
       (Toast "Success" "List updated successfully" false)).
Proof.
  intros Hl Hcalm Hid. unfold ListEditor.updateList. unfold_monad.
  rewrite Hl. cbn [advance tick db]. rewrite Hcalm.
  unfold Store.update. now rewrite Hid.
Qed.

Lemma unique_tokens_after_share (ls : list ListRecord) (id : string)
      (checked : bool) (t : string) :
  unique_tokens ls ->
  unique_tokens
    (map (fun row => if (list_id row =? id)%string
                     then patch_list row (stamp (share_patch checked) t)
                     else row) ls).
Proof.
  intros Huniq a b Ha Hb Htok.
  apply in_map_iff in Ha. destruct Ha as (a0 & <- & Ha0).
  apply in_map_iff in Hb. destruct Hb as (b0 & <- & Hb0).
  assert (a0 = b0).
  { apply Huniq; try assumption.
    destruct (list_id a0 =? id)%string, (list_id b0 =? id)%string;
      exact Htok. }
  now subst.
Qed.

(** X9. The sharing switch works through the share link: once the
    editor has stored [isShared] true for its list, the token of the
    list's row resolves on the shared route to a shared list with that
    token (to that very list when tokens are unique); once it has
    stored [isShared] false, the token resolves to nothing. *)
Theorem sharing_switch_opens_and_closes_the_link :
  forall (env : Env) (st : ListEditor.State) (w : World) (l row : ListRecord)
         (visitor : SharedList.State) (checked : bool),
    ListEditor.list_ st = Some l ->
    no_faults env ->
    In row (Store.lists (db w)) ->
    list_id row = list_id l ->
    list_shareToken row <> EmptyString ->
    unique_tokens (Store.lists (db w)) ->
    let w' := world_of (ListEditor.updateList (share_patch checked) env st w) in
    let page := state_of (SharedList.loadSharedList
                            (Some (list_shareToken row)) env visitor w') in
    ListEditor.list_ (state_of (ListEditor.updateList (share_patch checked)
                                                      env st w))
    = Some (patch_list l (share_patch checked))
    /\ (checked = true ->
        exists found,
          SharedList.list_ page = Some found
          /\ list_id found = list_id l
          /\ list_isShared found = true
          /\ list_shareToken found = list_shareToken row)
    /\ (checked = false ->
        SharedList.loadSharedList (Some (list_shareToken row)) env visitor w'
        = not_found_outcome visitor w').
Proof.
  intros env st w l row visitor checked Hl Hcalm Hin Hid Htok Huniq.
  assert (Hhas : Store.has_id list_id (list_id l) (Store.lists (db w)) = true).
  { unfold Store.has_id. apply existsb_exists. exists row.
    split; [exact Hin | now apply String.eqb_eq]. }
  cbv zeta.
  rewrite (editor_updateList_store env st w l (share_patch checked)
             Hl Hcalm Hhas).
  unfold state_of, world_of. cbn [fst snd].
  set (rows' := map _ (Store.lists (db w))).
  set (w' := record _ _).
  assert (Hdb : Store.lists (db w') = rows') by reflexivity.
  set (row' := patch_list row (stamp (share_patch checked) (clock env (tick w)))).
  assert (Hrow' : In row' rows').
  { subst rows' row'. apply in_map_iff. exists row.
    split; [|exact Hin]. rewrite Hid. now rewrite String.eqb_refl. }
  assert (Huniq' : unique_tokens rows')
    by (subst rows'; now apply unique_tokens_after_share).
  split; [reflexivity | split].
  - intros ->.
    destruct (Store.select
                (fun x => (list_shareToken x =? list_shareToken row)%string
                          && Bool.eqb (list_isShared x) true)
                None (Store.lists (db w'))) as [|found rest] eqn:Hsel.
    + exfalso.
      assert (Hmember : In row' (Store.select
                (fun x => (list_shareToken x =? list_shareToken row)%string
                          && Bool.eqb (list_isShared x) true)
                None (Store.lists (db w')))).
      { unfold Store.select. apply filter_In. split; [rewrite Hdb; exact Hrow'|].
        subst row'. cbn. now rewrite String.eqb_refl. }
      rewrite Hsel in Hmember. exact Hmember.
    + destruct (loadSharedList_role env visitor w' (list_shareToken row)
                  found rest Htok Hcalm Hsel) as [Hfound _].
      exists found. split; [exact Hfound|].
      assert (Hmember : In found (found :: rest)) by now left.
      rewrite <- Hsel in Hmember. unfold Store.select in Hmember.
      apply filter_In in Hmember. destruct Hmember as [Hfin Hp].
      apply andb_true_iff in Hp. destruct Hp as [Hft Hfs].
      apply String.eqb_eq in Hft. apply Bool.eqb_prop in Hfs.
      rewrite Hdb in Hfin.
      assert (found = row') by (apply Huniq'; [assumption..|]; now rewrite Hft).
      subst found. repeat split; assumption.
  - intros ->.
    apply loadSharedList_not_found; [exact Htok | apply Hcalm |].
    intros x Hx. rewrite Hdb in Hx.
    destruct (list_shareToken x =? list_shareToken row)%string eqn:Hxt;
      [|reflexivity].
    apply String.eqb_eq in Hxt.
    assert (x = row') by (apply Huniq'; [assumption..|]; now rewrite Hxt).
    subst x. reflexivity.
Qed.

Lemma sharing_switch_opens_and_closes_the_link_witness :
  let w' := world_of (ListEditor.updateList (share_patch true) calm
                                            errands_editor_view sample_world) in
  unique_tokens (Store.lists (db sample_world))
  /\ SharedList.loadSharedList (Some "tok2") calm SharedList.initial
                               sample_world
     = not_found_outcome SharedList.initial sample_world
  /\ exists found,
      SharedList.list_ (state_of (SharedList.loadSharedList
                                    (Some "tok2") calm SharedList.initial w'))
      = Some found
      /\ list_id found = "l2" /\ list_isShared found = true.
Proof.
  assert (Huniq : unique_tokens (Store.lists (db sample_world))).
  { intros a b [<-|[<-|[]]] [<-|[<-|[]]] H;
      first [reflexivity | discriminate H]. }
  assert (Hin : In errands (Store.lists (db sample_world)))
    by (right; now left).
  assert (Htok : list_shareToken errands <> EmptyString) by discriminate.
  assert (Hcalm : no_faults calm) by (intros n; reflexivity).
  destruct (sharing_switch_opens_and_closes_the_link calm errands_editor_view
              sample_world errands errands SharedList.initial true
              eq_refl Hcalm Hin eq_refl Htok Huniq) as (_ & Hopen & _).
  split; [exact Huniq | split; [reflexivity|]].
  destruct (Hopen eq_refl) as (found & Hfound & Hid & Hshared & _).
  exists found. repeat split; assumption.
Defined.

(** ** The editor and lists of other users *)

(** X10. The editor loads a list only for its owner: whatever list a
    load puts on the page belongs to the signed-in user, and an
    identifier that no list of the user carries ends in "List not
    found" and the way home, with nothing loaded. *)
Theorem editor_loads_own_lists_only :
  forall (env : Env) (st : ListEditor.State) (w : World) (u : User)
         (listId : string),
    ListEditor.user st = Some u ->
    listId <> EmptyString ->
    (forall l,
        ListEditor.list_ (state_of (ListEditor.loadList (Some listId) env st w))
        = Some l ->
        ListEditor.list_ st = Some l \/ ListEditor.isOwner l u = true)
    /\ (fault env (tick w) = false ->
        (forall row, In row (Store.lists (db w)) -> list_id row = listId ->
                     list_userId row <> user_id u) ->
        ListEditor.loadList (Some listId) env st w
        = (Ok tt, ListEditor.set_loading false st,
           record (record (advance w) (Toast "Error" "List not found" true))
                  (Navigate "/"))).
Proof.
  intros env st w u listId Hu Hne. split.
  - intros l Hl. apply loadList_loads_own_list in Hl.
    destruct Hl as [Hold | (u' & Hu' & Hown)]; [now left|].
    right. congruence.
  - intros Hfault Hforeign. unfold ListEditor.loadList. unfold_monad.
    rewrite Hu. destruct listId as [|c listId]; [congruence|].
    cbn [or_else Js.truthy negb]. rewrite Hfault.
    unfold Store.select. rewrite filter_nothing; [reflexivity|].
    intros row Hrow.
    destruct (list_id row =? String c listId)%string eqn:Hid; [|reflexivity].
    apply String.eqb_eq in Hid. cbn.
    apply String.eqb_neq. now apply Hforeign.
Qed.

Lemma editor_loads_own_lists_only_witness :
  ListEditor.loadList (Some "l1") calm
    (ListEditor.mkState (Some bob) None [] [] true false false) sample_world
  = (Ok tt, ListEditor.mkState (Some bob) None [] [] false false false,
     mkWorld sample_store [] 1
             [Toast "Error" "List not found" true; Navigate "/"]).
Proof.
  assert (Hne : "l1" <> EmptyString) by discriminate.
  destruct (editor_loads_own_lists_only calm
              (ListEditor.mkState (Some bob) None [] [] true false false)
              sample_world bob "l1" eq_refl Hne) as [_ Hforeign].
  apply Hforeign; [reflexivity|].
  intros row [<-|[<-|[]]]; discriminate.
Defined.

(** ** The form that creates a list *)

Lemma without_index_past {A} (xs : list A) (index i : nat) :
  (index < i)%nat -> CreateList.without_index xs index i = xs.
Proof.
  revert i. induction xs as [|x xs IH]; intros i Hi; cbn; [reflexivity|].
  destruct (Nat.eqb_spec i index); [lia|]. rewrite IH by lia. reflexivity.
Qed.

Lemma without_index_split {A} (xs : list A) (index i : nat) :
  (i <= index)%nat ->
  CreateList.without_index xs index i
  = (firstn (index - i) xs ++ skipn (S (index - i)) xs)%list.
Proof.
  revert i. induction xs as [|x xs IH]; intros i Hi; cbn [CreateList.without_index].
  - now rewrite firstn_nil, skipn_nil.
  - destruct (Nat.eqb_spec i index) as [->|Hne].
    + rewrite Nat.sub_diag. cbn. apply without_index_past. lia.
    + rewrite IH by lia.
      replace (index - i)%nat with (S (index - S i)) by lia. reflexivity.
Qed.

Lemma form_act_keeps_a_row (a : FormAction) (env : Env)
      (st : CreateList.State) (w : World) :
  CreateList.items st <> [] ->
  CreateList.items (state_of (form_act a env st w)) <> [].
Proof.
  intros Hrows. destruct a as [|index|templateId]; cbn [form_act].
  - unfold CreateList.addItem. unfold_monad. cbn.
    destruct (CreateList.items st); discriminate.
  - unfold CreateList.removeItem. unfold_monad.
    destruct (Nat.ltb_spec 1 (length (CreateList.items st))) as [Hmany|Hone];
      cbn; [|exact Hrows].
    rewrite without_index_split by lia. rewrite Nat.sub_0_r.
    intros Hnil. apply (f_equal (@length string)) in Hnil.
    rewrite length_app, length_firstn, length_skipn in Hnil. cbn in Hnil. lia.
  - unfold CreateList.handleTemplateSelect. unfold_monad.
    destruct (Js.find _ CreateList.templates) as [template|]; cbn;
      [|exact Hrows].
    destruct (negb (Js.truthy (CreateList.title st))); cbn;
      destruct (CreateList.tpl_defaultItems template); discriminate.
Qed.

(** X11. The form never runs out of rows: starting with a row, no
    sequence of adding rows, removing rows and choosing templates
    leaves the form without one. Removing a row of a form with two or
    more takes out exactly the row at that index; with a single row
    left the remove handler does nothing. *)
Theorem form_never_runs_out_of_rows :
  forall (env : Env) (st : CreateList.State) (w : World)
         (acts : list FormAction) (index : nat),
    CreateList.items st <> [] ->
    CreateList.items (state_of (form_acts acts env st w)) <> []
    /\ ((1 < length (CreateList.items st))%nat ->
        CreateList.items (state_of (CreateList.removeItem index env st w))
        = (firstn index (CreateList.items st)
             ++ skipn (S index) (CreateList.items st))%list)
    /\ (length (CreateList.items st) = 1%nat ->
        CreateList.removeItem index env st w = (Ok tt, st, w)).
Proof.
  intros env st w acts index Hrows. split; [|split].
  - unfold form_acts.
    apply (for_of_invariant (fun s => CreateList.items s <> []));
      [|exact Hrows].
    intros acc a env' v w' _ Hv. now apply form_act_keeps_a_row.
  - intros Hmany. unfold CreateList.removeItem. unfold_monad.
    apply Nat.ltb_lt in Hmany. rewrite Hmany. cbn.
    rewrite without_index_split by lia. now rewrite Nat.sub_0_r.
  - intros Hone. unfold CreateList.removeItem. unfold_monad.
    now rewrite Hone.
Qed.

Lemma form_never_runs_out_of_rows_witness :
  CreateList.items CreateList.initial <> []
  /\ CreateList.items
       (state_of (form_acts [FormRemove 0; FormTemplate "tasks"; FormRemove 1;
                             FormRemove 0; FormRemove 0; FormRemove 0;
                             FormRemove 0; FormRemove 0]
                            calm CreateList.initial sample_world))
     <> []
  /\ CreateList.items
       (state_of (form_acts [FormRemove 0; FormTemplate "tasks"; FormRemove 1;
                             FormRemove 0; FormRemove 0; FormRemove 0;
                             FormRemove 0; FormRemove 0]
                            calm CreateList.initial sample_world))
     = [EmptyString].
Proof.
  assert (Hrows : CreateList.items CreateList.initial <> []) by discriminate.
  pose proof (proj1 (form_never_runs_out_of_rows calm CreateList.initial
                       sample_world
                       [FormRemove 0; FormTemplate "tasks"; FormRemove 1;
                        FormRemove 0; FormRemove 0; FormRemove 0;
                        FormRemove 0; FormRemove 0] 0 Hrows)) as Hkept.
  split; [exact Hrows | split; [exact Hkept | reflexivity]].
Defined.

(** ** Creating a list *)

(** X12. A list is created only by a signed-in user, with a title that
    is not blank and at least one item that is not blank; otherwise
    nothing is stored and no page is opened: without a user nothing
    happens at all, and each of the two other refusals is one toast
    that says what is missing. *)
Theorem createList_validates_before_storing :
  forall (trim : string -> string) (env : Env) (st : CreateList.State)
         (w : World),
    (CreateList.user st = None ->
     CreateList.createList trim env st w = (Ok tt, st, w))
    /\ (CreateList.user st <> None ->
        Js.truthy (trim (CreateList.title st)) = false ->
        CreateList.createList trim env st w
        = (Ok tt, st, record w (Toast "Error" "Please enter a list title" true)))
    /\ (CreateList.user st <> None ->
        Js.truthy (trim (CreateList.title st)) = true ->
        (forall item, In item (CreateList.items st) ->
                      Js.truthy (trim item) = false) ->
        CreateList.createList trim env st w
        = (Ok tt, st,
           record w (Toast "Error" "Please add at least one item" true))).
Proof.
  intros trim env st w. unfold CreateList.createList. unfold_monad.
  split; [|split].
  - now intros ->.
  - intros Hu Htitle. destruct (CreateList.user st); [|congruence].
    now rewrite Htitle.
  - intros Hu Htitle Hblank. destruct (CreateList.user st); [|congruence].
    rewrite Htitle. cbn [negb]. unfold CreateList.validItems.
    now rewrite (filter_nothing _ _ Hblank).
Qed.

Lemma createList_validates_before_storing_witness :
  CreateList.createList ascii_trim calm
    (CreateList.set_title "   " filled_form) sample_world
  = (Ok tt, CreateList.set_title "   " filled_form,
     mkWorld sample_store [] 0 [Toast "Error" "Please enter a list title" true])
  /\ CreateList.createList ascii_trim calm
       (CreateList.set_items ["  "; EmptyString] filled_form) sample_world
     = (Ok tt, CreateList.set_items ["  "; EmptyString] filled_form,
        mkWorld sample_store [] 0
                [Toast "Error" "Please add at least one item" true]).
Proof.
  assert (Hu : forall s, CreateList.user (CreateList.set_title s filled_form)
                         <> None) by discriminate.
  assert (Hu' : forall xs, CreateList.user (CreateList.set_items xs filled_form)
                           <> None) by discriminate.
  destruct (createList_validates_before_storing ascii_trim calm
              (CreateList.set_title "   " filled_form) sample_world)
    as (_ & Htitle & _).
  destruct (createList_validates_before_storing ascii_trim calm
              (CreateList.set_items ["  "; EmptyString] filled_form)
              sample_world) as (_ & _ & Hitems).
  split.
  - exact (Htitle (Hu _) eq_refl).
  - apply Hitems; [apply Hu' | reflexivity |].
    intros item [<-|[<-|[]]]; reflexivity.
Defined.







(** ** Invitations *)

(** X14. An address that the panel already shows is not invited again:
    the handler makes no store call, says "Already Added", keeps the
    address in the field and ends with the inviting state off. A blank
    address is ignored without a word. *)
Theorem known_address_is_not_invited_again :
  forall (listId : string) (currentUser : User) (trim : string -> string)
         (env : Env) (st : CollaborationPanel.State) (w : World),
    (Js.truthy (trim (CollaborationPanel.inviteEmail st)) = false ->
     CollaborationPanel.inviteCollaborator listId currentUser trim env st w
     = (Ok tt, st, w))
    /\ (Js.truthy (trim (CollaborationPanel.inviteEmail st)) = true ->
        (exists c, In c (CollaborationPanel.collaborators st)
                   /\ col_userEmail c = CollaborationPanel.inviteEmail st) ->
        CollaborationPanel.inviteCollaborator listId currentUser trim env st w
        = (Ok tt, CollaborationPanel.set_inviting false st,
           record w (Toast "Already Added"
                           "This user is already a collaborator" true))).
Proof.
  intros listId currentUser trim env st w.
  unfold CollaborationPanel.inviteCollaborator. unfold_monad. split.
  - now intros ->.
  - intros -> (c & Hin & Hemail). cbn [negb].
    destruct (find_hits
                (fun c => (col_userEmail c =? CollaborationPanel.inviteEmail st)%string)
                (CollaborationPanel.collaborators st) c Hin)
      as (c' & Hfind & _); [now apply String.eqb_eq|].
    unfold Js.find. cbn [CollaborationPanel.collaborators
                           CollaborationPanel.set_inviting]. 
    destruct st as [cs email role loading inviting]. cbn in *.
    now rewrite Hfind.
Qed.

Lemma known_address_is_not_invited_again_witness :
  CollaborationPanel.inviteCollaborator "l1" alice ascii_trim calm
    (CollaborationPanel.set_inviteEmail "bob@example.org" inviting_dave)
    sample_world
  = (Ok tt, CollaborationPanel.set_inviteEmail "bob@example.org" inviting_dave,
     mkWorld sample_store [] 0
             [Toast "Already Added" "This user is already a collaborator" true]).
Proof.
  refine (proj2 (known_address_is_not_invited_again "l1" alice ascii_trim calm
            (CollaborationPanel.set_inviteEmail "bob@example.org" inviting_dave)
            sample_world) eq_refl _).
  exists bob_edits. split; [now left | reflexivity].
Defined.

Lemma invite_store (listId : string) (currentUser : User)
      (trim : string -> string) (env : Env) (st : CollaborationPanel.State)
      (w : World) :
  let w' := world_of (CollaborationPanel.inviteCollaborator
                        listId currentUser trim env st w) in
  Store.lists (db w') = Store.lists (db w)
  /\ (Store.listCollaborators (db w') = Store.listCollaborators (db w)
      \/ exists id joinedAt,
          Store.listCollaborators (db w')
          = (Store.listCollaborators (db w)
               ++ [CollaborationPanel.invitation listId currentUser st id
                                                 joinedAt])%list).
Proof.
  cbv zeta. unfold CollaborationPanel.inviteCollaborator,
    CollaborationPanel.loadCollaborators. unfold_monad.
  destruct (Js.truthy (trim (CollaborationPanel.inviteEmail st)));
    cbn [negb]; [|cbn; split; [reflexivity | now left]].
  destruct (Js.find _ (CollaborationPanel.collaborators st));
    [cbn; split; [reflexivity | now left]|].
  cbn [advance tick db set_db].
  split_fault; [cbn; split; [reflexivity | now left]|].
  unfold Store.create.
  destruct (Store.has_id col_id _ (Store.listCollaborators (db w))).
  - cbn [advance tick db set_db]. split_fault; cbn;
      (split; [reflexivity | now left]).
  - cbn [advance tick db set_db]. split_fault; cbn;
      (split; [reflexivity | right; now eexists _, _]).
Qed.

Lemma find_app_miss {A} (p : A -> bool) (xs : list A) (x : A) :
  p x = false -> find p (xs ++ [x]) = find p xs.
Proof.
  intros Hx. induction xs as [|y ys IH]; cbn; [now rewrite Hx|].
  now destruct (p y).
Qed.

(** X15. An invitation changes nobody's access but possibly the
    inviter's own: the record is filed under the inviter's identifier,
    so for every other requester, the invited person included, and for
    anonymous visitors, the shared route resolves the same role after
    the invitation as before it. *)
Theorem invitation_grants_nothing_to_others :
  forall (listId : string) (currentUser : User) (trim : string -> string)
         (env : Env) (st : CollaborationPanel.State) (w : World)
         (env' : Env) (visitor : SharedList.State) (tok : string)
         (l : ListRecord) (rest : list ListRecord),
    option_map user_id (SharedList.user visitor) <> Some (user_id currentUser) ->
    tok <> EmptyString ->
    no_faults env' ->
    Store.select (fun x => (list_shareToken x =? tok)%string
                           && Bool.eqb (list_isShared x) true)
                 None (Store.lists (db w)) = l :: rest ->
    let w' := world_of (CollaborationPanel.inviteCollaborator
                          listId currentUser trim env st w) in
    SharedList.userRole
      (state_of (SharedList.loadSharedList (Some tok) env' visitor w'))
    = SharedList.userRole
        (state_of (SharedList.loadSharedList (Some tok) env' visitor w)).
Proof.
  intros listId currentUser trim env st w env' visitor tok l rest
         Hother Htok Hcalm Hsel. cbv zeta.
  destruct (invite_store listId currentUser trim env st w) as [Hlists Hcols].
  cbv zeta in Hlists, Hcols.
  set (w' := world_of _) in *.
  assert (Hsel' : Store.select
                    (fun x => (list_shareToken x =? tok)%string
                              && Bool.eqb (list_isShared x) true)
                    None (Store.lists (db w')) = l :: rest)
    by now rewrite Hlists.
  destruct (loadSharedList_role env' visitor w' tok l rest Htok Hcalm Hsel')
    as [_ ->].
  destruct (loadSharedList_role env' visitor w tok l rest Htok Hcalm Hsel)
    as [_ ->].
  destruct Hcols as [-> | (id & joinedAt & ->)]; [reflexivity|].
  rewrite filter_app. cbn [filter].
  destruct (col_listId _ =? list_id l)%string; [|now rewrite app_nil_r].
  unfold SharedList.determineRole, Js.find.
  destruct (SharedList.user visitor) as [u|]; [|reflexivity].
  destruct (list_userId l =? user_id u)%string; [reflexivity|].
  rewrite find_app_miss; [reflexivity|].
  cbn. apply String.eqb_neq. intros Heq. apply Hother. cbn. now rewrite Heq.
Qed.

Lemma invitation_grants_nothing_to_others_witness :
  let w' := world_of (CollaborationPanel.inviteCollaborator
                        "l1" alice ascii_trim calm inviting_dave_as_editor
                        sample_world) in
  let visitor := SharedList.mkState (Some dave) None [] [] [] None true false in
  map (fun c => (col_userEmail c, col_role c))
      (Store.listCollaborators (db w'))
  = [("bob@example.org", editor); ("carol@example.org", viewer);
     ("dave@example.org", editor)]
  /\ SharedList.userRole
       (state_of (SharedList.loadSharedList (Some "tok1") calm visitor
                                            sample_world)) = Some viewer
  /\ SharedList.userRole
       (state_of (SharedList.loadSharedList (Some "tok1") calm visitor w'))
     = SharedList.userRole
         (state_of (SharedList.loadSharedList (Some "tok1") calm visitor
                                              sample_world)).
Proof.
  split; [reflexivity | split; [reflexivity|]].
  apply (invitation_grants_nothing_to_others "l1" alice ascii_trim calm
           inviting_dave_as_editor sample_world calm
           (SharedList.mkState (Some dave) None [] [] [] None true false)
           "tok1" groceries []).
  - discriminate.
  - discriminate.
  - intros n. reflexivity.
  - reflexivity.
Defined.

(** ** Uploading images *)

Section UploadLoop.
Variable P : Type.
Variable own : P -> ImageUpload.State.
Variable set_own : ImageUpload.State -> P -> P.
(** What of the page the component's own cells are not part of. *)
Variable K : Type.
Variable keep : P -> K.
Hypothesis keep_set_own : forall c p, keep (set_own c p) = keep p.

Lemma upsert_entries (path : string) (f : File) (bs : list (string * File))
      (entry : string * File) :
  In entry (Storage.upsert path f bs) -> In entry bs \/ snd entry = f.
Proof.
  induction bs as [|[p g] bs IH]; cbn.
  - intros [<-|[]]. now right.
  - destruct (p =? path)%string; cbn.
    + intros [<-|H]; [now right | left; now right].
    + intros [<-|H]; [left; now left|].
      destruct (IH H) as [Hin|Hf]; [left; now right | now right].
Qed.

Lemma upload_step (file : File) (path fileId : string) (env : Env) (p : P)
      (w : World) :
  let o := Storage.upload file path
             (fun percent =>
                ImageUpload.setUploadProgress own set_own
                  (ImageUpload.with_key fileId percent)) env p w in
  untouched keep p w (state_of o) (world_of o)
  /\ (blobs (world_of o) = blobs w
      \/ blobs (world_of o) = Storage.upsert path file (blobs w)).
Proof.
  cbv zeta. unfold Storage.upload.
  match goal with
  | |- context [for_of ?xs ?b tt env p (advance w)] =>
      assert (Hloop : untouched keep p w (state_of (for_of xs b tt env p (advance w)))
                                    (world_of (for_of xs b tt env p (advance w)))
                      /\ blobs (world_of (for_of xs b tt env p (advance w)))
                         = blobs w);
      [ apply (for_of_preserves
                 (fun v w' => untouched keep p w v w' /\ blobs w' = blobs w));
        [|repeat split];
        intros acc x env' v w' _ [(Hk & Hdb & Hlog) Hblobs];
        unfold ImageUpload.setUploadProgress, setState; cbn;
        unfold untouched; rewrite keep_set_own; repeat split; assumption
      | destruct (for_of xs b tt env p (advance w)) as [[[[]|e] v'] w'];
        cbn in Hloop; destruct Hloop as ((Hk & Hdb & Hlog) & Hblobs) ]
  end.
  - destruct (fault env (tick w)); cbn;
      (split; [now repeat split|]); [left | right]; now rewrite ?Hblobs.
  - cbn. split; [now repeat split | now left].
Qed.

Lemma uploadOne_step (acc : list UploadedImage) (file : File) (env : Env)
      (p : P) (w : World) :
  let o := ImageUpload.uploadOne own set_own acc file env p w in
  keep (state_of o) = keep p
  /\ db (world_of o) = db w
  /\ (forall out, result_of o = Ok out ->
                  out = acc
                  \/ exists id url,
                      out = (acc ++ [mkImage id (file_name file) url
                                             (file_size file)])%list)
  /\ (forall entry, In entry (blobs (world_of o)) ->
                    In entry (blobs w)
                    \/ (snd entry = file
                        /\ Js.startsWith (file_type file) "image/" = true)).
Proof.
  cbv zeta. unfold ImageUpload.uploadOne.
  destruct (Js.startsWith (file_type file) "image/") eqn:Himage; cbn [negb].
  - unfold bind, fresh_suffix.
    match goal with
    | |- context [Storage.upload file ?path ?cb env p ?w0] =>
        destruct (upload_step file path ("img_" ++ fresh env (tick w)) env p w0)
          as [(Hk & Hdb & Hlog) Hblobs];
        cbv zeta in Hk, Hdb, Hlog, Hblobs;
        destruct (Storage.upload file path cb env p w0) as [[[url|e] p1] w1]
    end; cbn in Hk, Hdb, Hlog, Hblobs.
    + unfold ImageUpload.setUploadProgress. unfold_monad. cbn.
      rewrite keep_set_own.
      split; [exact Hk | split; [exact Hdb | split]].
      * intros out [= <-]. right. now eexists _, _.
      * intros entry Hentry. destruct Hblobs as [Hb|Hb]; rewrite Hb in Hentry;
          [now left|].
        apply upsert_entries in Hentry. destruct Hentry; [now left | now right].
    + cbn. split; [exact Hk | split; [exact Hdb | split]].
      * intros out [=].
      * intros entry Hentry. destruct Hblobs as [Hb|Hb]; rewrite Hb in Hentry;
          [now left|].
        apply upsert_entries in Hentry. destruct Hentry; [now left | now right].
  - unfold_monad. cbn. repeat split; try reflexivity.
    + intros out [= <-]. now left.
    + intros entry Hentry. now left.
Qed.

Lemma image_bytes_app (xs ys : list UploadedImage) :
  image_bytes (xs ++ ys) = image_bytes xs + image_bytes ys.
Proof.
  unfold image_bytes. induction xs as [|x xs IH]; cbn; [reflexivity|].
  rewrite IH. lia.
Qed.

Lemma upload_loop (files : list File) (acc : list UploadedImage) (env : Env)
      (p : P) (w : World) :
  let o := for_of files (ImageUpload.uploadOne own set_own) acc env p w in
  keep (state_of o) = keep p
  /\ db (world_of o) = db w
  /\ (forall out, result_of o = Ok out ->
                  (length out <= length acc + length files)%nat
                  /\ ((forall f, In f files -> 0 <= file_size f) ->
                      image_bytes out <= image_bytes acc + file_bytes files))
  /\ (forall entry, In entry (blobs (world_of o)) ->
                    In entry (blobs w)
                    \/ (In (snd entry) files
                        /\ Js.startsWith (file_type (snd entry)) "image/"
                           = true)).
Proof.
  revert acc env p w.
  induction files as [|f files IH]; intros acc env p w; cbn [for_of].
  - cbn. repeat split; try reflexivity.
    + injection H as <-. lia.
    + injection H as <-. unfold file_bytes. cbn. lia.
    + intros entry Hentry. now left.
  - cbv zeta. unfold bind.
    destruct (uploadOne_step acc f env p w) as (Hk & Hdb & Hout & Hblobs).
    cbv zeta in Hk, Hdb, Hout, Hblobs.
    destruct (ImageUpload.uploadOne own set_own acc f env p w)
      as [[[acc'|e] p1] w1]; cbn in Hk, Hdb, Hout, Hblobs.
    + destruct (IH acc' env p1 w1) as (Hk' & Hdb' & Hout' & Hblobs').
      cbv zeta in Hk', Hdb', Hout', Hblobs'.
      split; [congruence | split; [congruence | split]].
      * intros out Hres. destruct (Hout' out Hres) as [Hlen Hbytes].
        cbn [length].
        destruct (Hout acc' eq_refl) as [-> | (id & url & ->)].
        -- split; [lia|]. intros Hsizes.
           assert (Hf : 0 <= file_size f) by (apply Hsizes; now left).
           assert (Hrest : image_bytes out <= image_bytes acc + file_bytes files)
             by (apply Hbytes; intros g Hg; apply Hsizes; now right).
           unfold file_bytes in *. cbn [map fold_right]. lia.
        -- rewrite length_app in Hlen. cbn [length] in Hlen.
           split; [lia|]. intros Hsizes.
           assert (Hrest : image_bytes out
                           <= image_bytes (acc ++ [mkImage id (file_name f) url
                                                           (file_size f)])
                              + file_bytes files)
             by (apply Hbytes; intros g Hg; apply Hsizes; now right).
           rewrite image_bytes_app in Hrest.
           assert (Hone : image_bytes [mkImage id (file_name f) url
                                               (file_size f)] = file_size f)
             by (unfold image_bytes; cbn; lia).
           rewrite Hone in Hrest.
           unfold file_bytes in *. cbn [map fold_right]. lia.
      * intros entry Hentry. destruct (Hblobs' entry Hentry) as [Hin|[Hin Himg]].
        -- destruct (Hblobs entry Hin) as [Hold|[Hf Himg]]; [now left|].
           right. split; [left; now rewrite Hf | now rewrite Hf].
        -- right. split; [now right | exact Himg].
    + cbn. split; [exact Hk | split; [exact Hdb | split]].
      * intros out [=].
      * intros entry Hentry. destruct (Hblobs entry Hentry) as [Hold|[Hf Himg]];
          [now left|]. right. split; [left; now rewrite Hf | now rewrite Hf].
Qed.

End UploadLoop.

Lemma handleImagesChange_blobs (env : Env) (st : SharedList.State) (w : World)
      (newImages : list UploadedImage) :
  blobs (world_of (SharedList.handleImagesChange newImages env st w)) = blobs w.
Proof.
  unfold SharedList.handleImagesChange, bind, render, ret.
  destruct (SharedList.list_ st) as [l|]; [|reflexivity].
  destruct (SharedList.user st) as [u|]; [|reflexivity].
  destruct (SharedList.canEdit st); cbn [negb]; [|reflexivity].
  unfold SharedList.handleImagesChange_try. unfold_monad.
  match goal with
  | |- context [for_of ?xs ?b tt env st w] =>
      assert (Hadds : blobs (world_of (for_of xs b tt env st w)) = blobs w);
      [ apply (for_of_preserves (fun _ w' => blobs w' = blobs w));
        [|reflexivity];
        intros acc x env' v w' _ Hb; cbn; split_fault; cbn; exact Hb
      | destruct (for_of xs b tt env st w) as [[[[]|e] v1] w1];
        cbn in Hadds ]
  end.
  - match goal with
    | |- context [for_of ?xs ?b tt env v1 w1] =>
        assert (Hrem : blobs (world_of (for_of xs b tt env v1 w1)) = blobs w);
        [ apply (for_of_preserves (fun _ w' => blobs w' = blobs w));
          [|exact Hadds];
          intros acc x env' v w' _ Hb; cbn; split_fault; cbn; [exact Hb|];
          destruct (Store.delete _ _ _); cbn; exact Hb
        | destruct (for_of xs b tt env v1 w1) as [[[[]|e] v2] w2];
          cbn in Hrem ]
    end; cbn; exact Hrem.
  - cbn. exact Hadds.
Qed.

Lemma page_callback (st : SharedList.State) (newImages : list UploadedImage)
      (env : Env) (p : SharedListPage.State) (w : World) :
  let o := SharedListPage.onImagesChange st newImages env p w in
  (fst (state_of o) = fst p
   \/ fst (state_of o) = SharedList.set_images newImages (fst p))
  /\ blobs (world_of o) = blobs w.
Proof.
  cbv zeta. unfold SharedListPage.onImagesChange.
  destruct (SharedList.canEdit st).
  - unfold zoom.
    pose proof (handleImagesChange_state env (fst p) w newImages) as Hst.
    pose proof (handleImagesChange_blobs env (fst p) w newImages) as Hb.
    destruct (SharedList.handleImagesChange newImages env (fst p) w)
      as [[r c] w'].
    cbn in Hst, Hb |- *. split; assumption.
  - unfold ret. cbn. split; [now left | reflexivity].
Qed.

Lemma page_uploadAll (files : list File) (env : Env)
      (p : SharedListPage.State) (w : World) :
  let o := ImageUpload.uploadAll SharedListPage.own SharedListPage.set_own
             (SharedList.images (fst p)) (SharedListPage.onImagesChange (fst p))
             files env p w in
  (fst (state_of o) = fst p
   \/ exists out,
       (length out <= length files)%nat
       /\ ((forall f, In f files -> 0 <= file_size f) ->
           image_bytes out <= file_bytes files)
       /\ fst (state_of o)
          = SharedList.set_images (SharedList.images (fst p) ++ out)%list
                                  (fst p))
  /\ (forall entry, In entry (blobs (world_of o)) ->
                    In entry (blobs w)
                    \/ (In (snd entry) files
                        /\ Js.startsWith (file_type (snd entry)) "image/"
                           = true)).
Proof.
  cbv zeta. unfold ImageUpload.uploadAll, ImageUpload.setUploading.
  unfold_monad.
  match goal with
  | |- context [for_of files ?b [] env ?p0 ?w0] =>
      pose proof (upload_loop SharedListPage.State SharedListPage.own
                              SharedListPage.set_own SharedList.State fst
                              (fun c q => eq_refl) files [] env p0 w0)
        as (Hk & _ & Hout & Hblobs);
      cbv zeta in Hk, Hout, Hblobs;
      destruct (for_of files b [] env p0 w0) as [[[out|e] p1] w1]
  end; cbn in Hk, Hout, Hblobs.
  - destruct (Hout out eq_refl) as [Hlen Hbytes].
    pose proof (page_callback (fst p) (SharedList.images (fst p) ++ out)%list
                              env p1 w1) as [Hst Hb].
    cbv zeta in Hst, Hb.
    destruct (SharedListPage.onImagesChange (fst p)
                (SharedList.images (fst p) ++ out)%list env p1 w1)
      as [[[[]|e] p2] w2]; cbn in Hst, Hb |- *.
    + split.
      * destruct Hst as [Hst|Hst]; [left; congruence|].
        right. exists out. rewrite Hst, Hk. now repeat split.
      * intros entry Hentry. apply Hblobs. now rewrite <- Hb.
    + split.
      * destruct Hst as [Hst|Hst]; [left; congruence|].
        right. exists out. rewrite Hst, Hk. now repeat split.
      * intros entry Hentry. apply Hblobs. now rewrite <- Hb.
  - split; [left; exact Hk | exact Hblobs].
Qed.

(** X16. Whatever files are selected on the shared page and whatever
    the store and the uploads do, the view afterwards is the view as it
    was, or the view with new images appended after the old ones, and
    then at most four images of at most 1 GiB in total are attached;
    file sizes are taken as not negative. *)
Theorem attachments_stay_within_the_quota :
  forall (formatFileSize : Z -> string) (files : list File) (env : Env)
         (p : SharedListPage.State) (w : World),
    (forall f, In f files -> 0 <= file_size f) ->
    let view' :=
      fst (state_of (SharedListPage.handleFileSelect formatFileSize files
                                                     env p w)) in
    view' = fst p
    \/ exists added,
        view' = SharedList.set_images
                  (SharedList.images (fst p) ++ added)%list (fst p)
        /\ Z.of_nat (length (SharedList.images view')) <= 4
        /\ image_bytes (SharedList.images view') <= 1024 * 1024 * 1024.
Proof.
  intros formatFileSize files env p w Hsizes. cbv zeta.
  unfold SharedListPage.handleFileSelect, bind, render.
  destruct (handleFileSelect_cases
              SharedListPage.State SharedListPage.own SharedListPage.set_own
              (SharedListPage.onImagesChange (fst p)) formatFileSize
              (SharedList.images (fst p)) 4 (1024 * 1024 * 1024) files env p w)
    as [[_ ->]|[(_ & _ & ->)|[(_ & _ & _ & ->)|(_ & Hcount & Hsize & ->)]]];
    try (left; reflexivity).
  destruct (page_uploadAll files env p w)
    as [[Hsame|(out & Hlen & Hbytes & Heq)] _]; [now left|].
  right. exists out. split; [exact Heq|]. rewrite Heq.
  cbn [SharedList.images SharedList.set_images].
  rewrite length_app, image_bytes_app.
  specialize (Hbytes Hsizes).
  unfold within_count, within_size, total_bytes in Hcount, Hsize.
  unfold image_bytes, file_bytes in *. lia.
Qed.

Lemma attachments_stay_within_the_quota_witness :
  let view' :=
    fst (state_of (SharedListPage.handleFileSelect
                     plain_bytes [notes_file; one_more] calm roomy_page
                     sample_world)) in
  map img_filename (SharedList.images view') = ["a.png"; "e.png"]
  /\ (view' = fst roomy_page
      \/ exists added,
          view' = SharedList.set_images
                    (SharedList.images (fst roomy_page) ++ added)%list
                    (fst roomy_page)
          /\ Z.of_nat (length (SharedList.images view')) <= 4
          /\ image_bytes (SharedList.images view') <= 1024 * 1024 * 1024).
Proof.
  split; [reflexivity|].
  apply (attachments_stay_within_the_quota
           plain_bytes [notes_file; one_more] calm roomy_page sample_world).
  intros f [<-|[<-|[]]]; cbn; lia.
Defined.

(** X17. Selecting files on the shared page stores nothing but image
    files of the selection: every blob held afterwards was held before
    or is one of the selected files whose type starts with [image/]. *)
Theorem only_image_files_are_uploaded :
  forall (formatFileSize : Z -> string) (files : list File) (env : Env)
         (p : SharedListPage.State) (w : World) (entry : string * File),
    In entry (blobs (world_of (SharedListPage.handleFileSelect
                                 formatFileSize files env p w))) ->
    In entry (blobs w)
    \/ (In (snd entry) files
        /\ Js.startsWith (file_type (snd entry)) "image/" = true).
Proof.
  intros formatFileSize files env p w entry.
  unfold SharedListPage.handleFileSelect, bind, render.
  destruct (handleFileSelect_cases
              SharedListPage.State SharedListPage.own SharedListPage.set_own
              (SharedListPage.onImagesChange (fst p)) formatFileSize
              (SharedList.images (fst p)) 4 (1024 * 1024 * 1024) files env p w)
    as [[_ ->]|[(_ & _ & ->)|[(_ & _ & _ & ->)|(_ & _ & _ & ->)]]];
    try (cbn; now left).
  destruct (page_uploadAll files env p w) as [_ Hblobs]. apply Hblobs.
Qed.

Lemma only_image_files_are_uploaded_witness :
  let w' := world_of (SharedListPage.handleFileSelect
                        plain_bytes [notes_file; one_more] calm roomy_page
                        sample_world) in
  let entry := last (blobs w') (EmptyString, notes_file) in
  map snd (blobs w') = (map snd (blobs sample_world) ++ [one_more])%list
  /\ In entry (blobs w')
  /\ (In entry (blobs sample_world)
      \/ (In (snd entry) [notes_file; one_more]
          /\ Js.startsWith (file_type (snd entry)) "image/" = true)).
Proof.
  cbv zeta. split; [reflexivity|].
  assert (Hin : In (last (blobs (world_of (SharedListPage.handleFileSelect
                                            plain_bytes [notes_file; one_more]
                                            calm roomy_page sample_world)))
                         (EmptyString, notes_file))
                   (blobs (world_of (SharedListPage.handleFileSelect
                                       plain_bytes [notes_file; one_more]
                                       calm roomy_page sample_world))))
    by (vm_compute; auto 10).
  split; [exact Hin|].
  exact (only_image_files_are_uploaded
           plain_bytes [notes_file; one_more] calm roomy_page sample_world
           _ Hin).
Defined.

(** ** The dashboard *)

Lemma insert_by_keeps_sorted {R} (le : R -> R -> bool) (r : R) (xs : list R) :
  (forall a b, le a b = false -> le b a = true) ->
  Sorted (fun a b => le a b = true) xs ->
  Sorted (fun a b => le a b = true) (Store.insert_by le r xs).
Proof.
  intros Htotal. induction 1 as [|x xs Hsorted IH Hhd]; cbn.
  - repeat constructor.
  - destruct (le r x) eqn:Hrx.
    + constructor; [now constructor | now constructor].
    + constructor; [exact IH|].
      destruct xs as [|y ys]; cbn.
      * constructor. now apply Htotal.
      * destruct (le r y); constructor; [now apply Htotal|].
        now inversion Hhd.
Qed.

Lemma sort_by_is_sorted {R} (le : R -> R -> bool) (xs : list R) :
  (forall a b, le a b = false -> le b a = true) ->
  Sorted (fun a b => le a b = true) (Store.sort_by le xs).
Proof.
  intros Htotal. unfold Store.sort_by.
  induction xs as [|x xs IH]; cbn; [constructor|].
  now apply insert_by_keeps_sorted.
Qed.

Lemma counted_lists_calm (xs : list ListRecord) :
  forall (acc : list (ListRecord * nat)) (env : Env) (st : Dashboard.State)
         (w : World),
    no_faults env ->
    let o := for_of xs
               (fun acc l =>
                  its <- Db.query Store.listItems
                           (fun i => (item_listId i =? list_id l)%string) None ;;
                  ret (acc ++ [(l, length its)])%list)
               acc env st w in
    result_of o = Ok (acc ++ map (counted w) xs)%list
    /\ state_of o = st
    /\ db (world_of o) = db w
    /\ log (world_of o) = log w.
Proof.
  induction xs as [|x xs IH]; intros acc env st w Hcalm; cbn [for_of].
  - cbn. now rewrite app_nil_r.
  - cbv zeta. unfold bind at 1. unfold_monad. rewrite Hcalm.
    match goal with
    | |- context [for_of xs ?b ?acc' env st ?w'] =>
        destruct (IH acc' env st w' Hcalm) as (Hres & Hst & Hdb & Hlog)
    end.
    cbv zeta in Hres, Hst, Hdb, Hlog. unfold_monad.
    rewrite Hres, Hst, Hdb, Hlog. cbn.
    unfold counted, rows_of, Store.select. cbn.
    rewrite <- app_assoc. now repeat split.
Qed.

Lemma loadLists_calm (u : User) (env : Env) (st : Dashboard.State)
      (w : World) :
  Dashboard.user st = Some u ->
  no_faults env ->
  exists w1,
    Dashboard.loadLists env st w
    = (Ok tt,
       Dashboard.set_loading false
         (Dashboard.set_lists
            (map (counted w)
                 (Store.select
                    (fun l => (list_userId l =? user_id u)%string)
                    (Some (fun a b => String.leb (list_createdAt b)
                                                 (list_createdAt a)))
                    (Store.lists (db w))))
            st),
       w1)
    /\ db w1 = db w /\ log w1 = log w.
Proof.
  intros Huser Hcalm. unfold Dashboard.loadLists.
  unfold bind at 1. unfold render at 1. rewrite Huser.
  unfold try_finally, try_catch. unfold bind at 1.
  unfold Db.query at 1. unfold await_store. rewrite Hcalm.
  unfold bind at 1.
  match goal with
  | |- context [for_of ?xs ?body ?acc ?e ?s ?w0] =>
      destruct (counted_lists_calm xs acc e s w0 Hcalm)
        as (Hres & Hst & Hdb & Hlog);
      cbv zeta in Hres, Hst, Hdb, Hlog;
      destruct (for_of xs body acc e s w0) as [[r st1] w1]
  end.
  cbn in Hres, Hst, Hdb, Hlog. subst r st1. unfold setState. cbn.
  exists w1. unfold counted, rows_of in *. cbn. now repeat split.
Qed.

(** X18. With a user signed in and no failure, the dashboard shows the
    lists of that user and no others, each once, newest first, each
    with the exact number of its rows in the store; the load ends the
    loading state, writes nothing and reports nothing. *)
Theorem dashboard_shows_own_lists_with_exact_counts :
  forall (u : User) (env : Env) (st : Dashboard.State) (w : World),
    Dashboard.user st = Some u ->
    no_faults env ->
    let st' := state_of (Dashboard.loadLists env st w) in
    let w' := world_of (Dashboard.loadLists env st w) in
    Permutation (map fst (Dashboard.lists st'))
                (filter (fun l => (list_userId l =? user_id u)%string)
                        (Store.lists (db w)))
    /\ Sorted newest_first (map fst (Dashboard.lists st'))
    /\ Dashboard.lists st' = map (counted w) (map fst (Dashboard.lists st'))
    /\ Dashboard.loading st' = false
    /\ db w' = db w
    /\ log w' = log w.
Proof.
  intros u env st w Huser Hcalm. cbv zeta.
  destruct (loadLists_calm u env st w Huser Hcalm) as (w1 & -> & Hdb & Hlog).
  cbn.
  assert (Hfst : forall ls, map fst (map (counted w) ls) = ls).
  { induction ls as [|l ls IHls]; cbn; [reflexivity|]. now rewrite IHls. }
  rewrite Hfst. unfold Store.select.
  split; [apply sort_by_permutation|].
  split.
  { apply (sort_by_is_sorted
             (fun a b => String.leb (list_createdAt b) (list_createdAt a))).
    intros a b Hab.
    destruct (String.leb_total (list_createdAt a) (list_createdAt b));
      [assumption | congruence]. }
  split.
  { unfold counted, rows_of. cbn. reflexivity. }
  repeat split; assumption.
Qed.

Lemma dashboard_shows_own_lists_with_exact_counts_witness :
  let st' := state_of (Dashboard.loadLists calm alice_dashboard
                                           two_owners_world) in
  let w' := world_of (Dashboard.loadLists calm alice_dashboard
                                          two_owners_world) in
  Dashboard.lists st' = [(errands, 0%nat); (groceries, 2%nat)]
  /\ Permutation (map fst (Dashboard.lists st'))
                 (filter (fun l => (list_userId l =? user_id alice)%string)
                         (Store.lists (db two_owners_world)))
  /\ Sorted newest_first (map fst (Dashboard.lists st'))
  /\ Dashboard.lists st'
     = map (counted two_owners_world) (map fst (Dashboard.lists st'))
  /\ Dashboard.loading st' = false
  /\ db w' = db two_owners_world
  /\ log w' = log two_owners_world.
Proof.
  split; [reflexivity|].
  apply (dashboard_shows_own_lists_with_exact_counts
           alice calm alice_dashboard two_owners_world).
  - reflexivity.
  - intros n. reflexivity.
Defined.

Lemma deleteList_store (listId : string) (env : Env) (st : Dashboard.State)
      (w : World) :
  let w' := world_of (Dashboard.deleteList listId env st w) in
  Store.listItems (db w') = Store.listItems (db w)
  /\ Store.listImages (db w') = Store.listImages (db w)
  /\ Store.listCollaborators (db w') = Store.listCollaborators (db w)
  /\ (fault env (tick w) = false ->
      Store.has_id list_id listId (Store.lists (db w)) = true ->
      Store.lists (db w')
      = filter (fun l => negb (list_id l =? listId)%string)
               (Store.lists (db w))
      /\ tick w' = S (tick w)).
Proof.
  cbv zeta. unfold Dashboard.deleteList. unfold_monad.
  destruct (fault env (tick w)); cbn.
  - repeat split; try reflexivity. discriminate.
  - unfold Store.delete.
    destruct (Store.has_id list_id listId (Store.lists (db w))); cbn.
    + repeat split; reflexivity.
    + repeat split; try reflexivity; discriminate.
Qed.

(** X19. Deleting a list on the dashboard takes away the list record
    alone: the items, images and collaborator records of the store are
    left as they are, also those of the deleted list. Once the record
    is gone, opening the link of that list finds nothing and sends the
    visitor back to the start page. *)
Theorem deleted_list_leaves_its_rows_and_a_dead_link :
  forall (listId tok : string) (env env' : Env) (st : Dashboard.State)
         (visitor : SharedList.State) (w : World),
    tok <> EmptyString ->
    Store.has_id list_id listId (Store.lists (db w)) = true ->
    (forall l, In l (Store.lists (db w)) ->
               list_shareToken l = tok -> list_id l = listId) ->
    fault env (tick w) = false ->
    fault env' (S (tick w)) = false ->
    let w' := world_of (Dashboard.deleteList listId env st w) in
    Store.listItems (db w') = Store.listItems (db w)
    /\ Store.listImages (db w') = Store.listImages (db w)
    /\ Store.listCollaborators (db w') = Store.listCollaborators (db w)
    /\ Store.has_id list_id listId (Store.lists (db w')) = false
    /\ SharedList.loadSharedList (Some tok) env' visitor w'
       = not_found_outcome visitor w'.
Proof.
  intros listId tok env env' st visitor w Htok Hknown Hlink Hfault Hfault'.
  cbv zeta.
  destruct (deleteList_store listId env st w)
    as (Hitems & Himages & Hcollab & Hlists).
  cbv zeta in Hitems, Himages, Hcollab, Hlists.
  destruct (Hlists Hfault Hknown) as [Hrows Htick].
  split; [exact Hitems|]. split; [exact Himages|]. split; [exact Hcollab|].
  assert (Hgone : forall l,
             In l (Store.lists
                     (db (world_of (Dashboard.deleteList listId env st w)))) ->
             list_id l <> listId /\ In l (Store.lists (db w))).
  { intros l Hl. rewrite Hrows in Hl. apply filter_In in Hl.
    destruct Hl as [Hin Hne]. split; [|exact Hin].
    apply negb_true_iff, String.eqb_neq in Hne. exact Hne. }
  split.
  - unfold Store.has_id.
    destruct (existsb _ _) eqn:Hex; [|reflexivity].
    apply existsb_exists in Hex. destruct Hex as (l & Hl & Hid).
    apply String.eqb_eq in Hid. now destruct (Hgone l Hl).
  - apply loadSharedList_not_found; [exact Htok | now rewrite Htick |].
    intros l Hl. destruct (Hgone l Hl) as [Hne Hin].
    destruct (String.eqb_spec (list_shareToken l) tok) as [Heq|_];
      [|reflexivity].
    exfalso. apply Hne. now apply Hlink.
Qed.

Lemma deleted_list_leaves_its_rows_and_a_dead_link_witness :
  let w' := world_of (Dashboard.deleteList "l1" calm alice_cards
                                           sample_world) in
  let visitor := SharedList.mkState (Some bob) None [] [] [] None true false in
  SharedList.list_ (state_of (SharedList.loadSharedList
                                (Some "tok1") calm visitor sample_world))
  = Some groceries
  /\ rows_for "l1" w' = [milk; eggs]
  /\ Store.listItems (db w') = Store.listItems (db sample_world)
  /\ Store.listImages (db w') = Store.listImages (db sample_world)
  /\ Store.listCollaborators (db w')
     = Store.listCollaborators (db sample_world)
  /\ Store.has_id list_id "l1" (Store.lists (db w')) = false
  /\ SharedList.loadSharedList (Some "tok1") calm visitor w'
     = not_found_outcome visitor w'.
Proof.
  split; [reflexivity|]. split; [reflexivity|].
  apply (deleted_list_leaves_its_rows_and_a_dead_link
           "l1" "tok1" calm calm alice_cards
           (SharedList.mkState (Some bob) None [] [] [] None true false)
           sample_world).
  - discriminate.
  - reflexivity.
  - intros l [<-|[<-|[]]]; [reflexivity | discriminate].
  - reflexivity.
  - reflexivity.
Defined.

(** ** The collaboration panel and the store *)

(** X20. Removing a collaborator or changing a role on the panel keeps
    the panel and the store in step, whatever the store does: when the
    panel listed the collaborator records of the list before, it lists
    them afterwards. *)
Theorem panel_and_store_stay_in_step :
  forall (listId : string) (a : PanelAction) (env : Env)
         (st : CollaborationPanel.State) (w : World),
    panel_in_step listId st w ->
    panel_in_step listId (state_of (panel_act a env st w))
                  (world_of (panel_act a env st w)).
Proof.
  intros listId a env st w Hstep. destruct a as [id|id newRole]; cbn [panel_act].
  - unfold CollaborationPanel.removeCollaborator. unfold_monad.
    destruct (fault env (tick w)); cbn; [exact Hstep|].
    unfold Store.delete.
    destruct (Store.has_id col_id id (Store.listCollaborators (db w))); cbn;
      [|exact Hstep].
    unfold panel_in_step in *. cbn.
    rewrite filter_filter_commute. now apply permutation_filter.
  - unfold CollaborationPanel.updateCollaboratorRole. unfold_monad.
    destruct (fault env (tick w)); cbn; [exact Hstep|].
    unfold Store.update.
    destruct (Store.has_id col_id id (Store.listCollaborators (db w))); cbn;
      [|exact Hstep].
    unfold panel_in_step in *. cbn.
    rewrite filter_map_commute.
    + now apply Permutation_map.
    + intros x. now destruct (col_id x =? id)%string.
Qed.

Lemma panel_and_store_stay_in_step_witness :
  let o := panel_act (PanelSetRole "c1" CollaborationPanel.invite_viewer)
                     calm groceries_panel sample_world in
  panel_in_step "l1" groceries_panel sample_world
  /\ map col_role (CollaborationPanel.collaborators (state_of o))
     = [viewer; viewer]
  /\ panel_in_step "l1" (state_of o) (world_of o).
Proof.
  assert (Hstep : panel_in_step "l1" groceries_panel sample_world)
    by (unfold panel_in_step; cbn; reflexivity).
  split; [exact Hstep|]. split; [reflexivity|].
  exact (panel_and_store_stay_in_step
           "l1" (PanelSetRole "c1" CollaborationPanel.invite_viewer) calm
           groceries_panel sample_world Hstep).
Defined.

(** ** The editor and the shared page *)

Ltac pages_agree :=
  unfold same_list, SharedList.canEdit in *; cbn;
  repeat split; try congruence; try assumption.

Lemma pages_step_alike (a : ItemAction) (env : Env) (ed : ListEditor.State)
      (sh : SharedList.State) (w : World) :
  SharedList.canEdit sh = true ->
  same_list ed sh ->
  world_of (editor_act a env ed w) = world_of (shared_act a env sh w)
  /\ same_list (state_of (editor_act a env ed w))
               (state_of (shared_act a env sh w))
  /\ SharedList.canEdit (state_of (shared_act a env sh w)) = true.
Proof.
  intros Hedit [Hlist Hitems].
  destruct a as [|id updates|id]; cbn [editor_act shared_act].
  - unfold ListEditor.addItem, SharedList.addItem, SharedList.addItem_try.
    unfold_monad. rewrite Hlist, Hitems, Hedit.
    destruct (SharedList.list_ sh) as [l|] eqn:Hsh; cbn; [|pages_agree].
    split_fault; cbn; pages_agree.
  - unfold ListEditor.updateItem, SharedList.updateItem,
      SharedList.updateItem_try.
    unfold_monad. rewrite Hitems, Hedit. cbn.
    split_fault; cbn; [pages_agree|].
    destruct (Store.update _ _ _ _); cbn; pages_agree.
  - unfold ListEditor.removeItem, SharedList.removeItem,
      SharedList.removeItem_try.
    unfold_monad. rewrite Hitems, Hedit. cbn.
    split_fault; cbn; [pages_agree|].
    destruct (Store.delete _ _ _); cbn; pages_agree.
Qed.

(** X21. The owner's editor and the shared page of someone who may edit
    treat the items alike: started with the same list and items and
    given the same clicks, under the same behaviour of the store, they
    leave the same store and the same notifications behind and show
    the same items. *)
Theorem editor_and_shared_page_edit_alike :
  forall (acts : list ItemAction) (env : Env) (ed : ListEditor.State)
         (sh : SharedList.State) (w : World),
    SharedList.canEdit sh = true ->
    same_list ed sh ->
    snd (in_turn editor_act acts env ed w) = snd (in_turn shared_act acts env sh w)
    /\ same_list (fst (in_turn editor_act acts env ed w))
                 (fst (in_turn shared_act acts env sh w)).
Proof.
  induction acts as [|a acts IH]; intros env ed sh w Hedit Hsame;
    cbn [in_turn].
  - now split.
  - destruct (pages_step_alike a env ed sh w Hedit Hsame)
      as (Hworld & Hsame' & Hedit').
    rewrite Hworld. now apply IH.
Qed.

Lemma editor_and_shared_page_edit_alike_witness :
  let ed := in_turn editor_act a_few_edits calm groceries_editor_view
                   sample_world in
  let sh := in_turn shared_act a_few_edits calm
                   (groceries_view (Some bob) (Some editor)) sample_world in
  map item_content (ListEditor.items (fst ed)) = ["Milk"; "Bread"]
  /\ snd ed = snd sh
  /\ same_list (fst ed) (fst sh).
Proof.
  split; [reflexivity|].
  apply (editor_and_shared_page_edit_alike
           a_few_edits calm groceries_editor_view
           (groceries_view (Some bob) (Some editor)) sample_world).
  - reflexivity.
  - split; reflexivity.
Defined.

(** ** Removing an attachment *)

Lemma removal_adds_nothing (imageId : string) (imgs : list UploadedImage) :
  filter (fun newImg => negb (SharedList.has_image (img_id newImg) imgs))
         (filter (fun img => negb (img_id img =? imageId)%string) imgs)
  = [].
Proof.
  apply filter_nothing. intros img Hin. apply filter_In in Hin.
  destruct Hin as [Hin _]. apply negb_false_iff, has_image_iff.
  now exists img.
Qed.

Lemma handleImagesChange_removal (env : Env) (st : SharedList.State)
      (w : World) (imageId : string) :
  no_new_image_rows w
    (world_of (SharedList.handleImagesChange
                 (filter (fun img => negb (img_id img =? imageId)%string)
                         (SharedList.images st))
                 env st w)).
Proof.
  assert (Hsame : no_new_image_rows w w)
    by (unfold no_new_image_rows; repeat split; apply incl_refl).
  unfold SharedList.handleImagesChange, bind, render, ret.
  destruct (SharedList.list_ st) as [l|]; [|exact Hsame].
  destruct (SharedList.user st) as [u|]; [|exact Hsame].
  destruct (SharedList.canEdit st); cbn [negb]; [|exact Hsame].
  unfold SharedList.handleImagesChange_try. cbv zeta.
  rewrite removal_adds_nothing. cbn [for_of]. unfold_monad.
  match goal with
  | |- context [for_of ?xs ?b tt env st w] =>
      assert (Hrem : no_new_image_rows w (world_of (for_of xs b tt env st w)));
      [ apply (for_of_preserves (fun _ w' => no_new_image_rows w w'));
        [|exact Hsame];
        intros acc x env' v w' _ (Hin & Hl & Hi & Hc); cbn;
        split_fault; cbn; [now repeat split|];
        unfold Store.delete;
        destruct (Store.has_id _ _ _); cbn; [|now repeat split];
        repeat split; try assumption;
        intros r Hr; apply filter_In in Hr; apply Hin, Hr
      | destruct (for_of xs b tt env st w) as [[[[]|e] v1] w1];
        cbn in Hrem |- *; exact Hrem ]
  end.
Qed.

(** X22. Removing an image on the shared page never deletes the
    uploaded file and never adds a row: the blobs are as before, every
    image row of the store was there before, the other collections are
    untouched, and the view is as it was or shows the images without
    the removed identifier. *)
Theorem removed_image_keeps_its_blob :
  forall (imageId : string) (env : Env) (p : SharedListPage.State)
         (w : World),
    let o := SharedListPage.removeImage imageId env p w in
    blobs (world_of o) = blobs w
    /\ no_new_image_rows w (world_of o)
    /\ (fst (state_of o) = fst p
        \/ fst (state_of o)
           = SharedList.set_images
               (filter (fun img => negb (img_id img =? imageId)%string)
                       (SharedList.images (fst p)))
               (fst p)).
Proof.
  intros imageId env p w. cbv zeta.
  unfold SharedListPage.removeImage, bind, render, ImageUpload.removeImage.
  destruct (page_callback
              (fst p)
              (filter (fun img => negb (img_id img =? imageId)%string)
                      (SharedList.images (fst p)))
              env p w) as [Hview Hblobs].
  cbv zeta in Hview, Hblobs.
  split; [exact Hblobs|]. split; [|exact Hview].
  unfold SharedListPage.onImagesChange.
  destruct (SharedList.canEdit (fst p)).
  - unfold zoom.
    pose proof (handleImagesChange_removal env (fst p) w imageId) as Hrows.
    destruct (SharedList.handleImagesChange _ env (fst p) w) as [[r c] w'].
    exact Hrows.
  - unfold ret. cbn. unfold no_new_image_rows. repeat split. apply incl_refl.
Qed.
